(** * The extended package-state engine of aptitude (src/generic/apt/aptcache.cc)

    A shallow embedding of [aptitudeDepCache]: its action groups, its
    mutation operations ([mark_install], [mark_delete], [mark_keep], ...),
    the cascading removal of unused dependencies, the orphan reclaimer
    [sweep] with its helpers, the conflict oracle [is_conflicted] of apt.cc
    and the undo records built by [cleanup_after_change]; further the
    queries on held and upgradable packages with the hooks [IsInstallOk]
    and [IsDeleteOk], the upgrade of everything upgradable
    ([mark_all_upgradable]), the bookkeeping of new packages, the pass of
    [build_selection_list] over the loaded states, and of apt.cc the OR
    group around a dependency and the subsumption of dependencies.

    apt-pkg itself (the package cache, the version system and
    [pkgDepCache], the base class of [aptitudeDepCache]) is an external
    library.  Its data is modelled by records, its operations are taken as
    parameters ([pkgDepCache_ops], [Environment]); the laws a proof needs
    of them are stated where they are used. *)

From stdpp Require Import base decidable option list gmap strings.
From Stdlib Require Import ZArith Lia.

Local Open Scope Z_scope.
Local Open Scope nat_scope.

(** ** apt-pkg: enumerations and bit masks (pkgcache.h, depcache.h) *)

Module Dep.
Inductive DepType :=
  | Depends | PreDepends | Suggests | Recommends | Conflicts
  | Replaces | Obsoletes | DpkgBreaks | Enhances.
#[global] Instance DepType_eq_dec : EqDecision DepType.
Proof. solve_decision. Defined.
End Dep.

Module State.
Inductive PkgSelectedState := Unknown | Install | Hold | DeInstall | Purge.
Inductive PkgCurrentState :=
  | NotInstalled | UnPacked | HalfConfigured | HalfInstalled
  | ConfigFiles | Installed | TriggersAwaited | TriggersPending.
Inductive VerPriority := Required | Important | Standard | Optional | Extra.
#[global] Instance PkgSelectedState_eq_dec : EqDecision PkgSelectedState.
Proof. solve_decision. Defined.
#[global] Instance PkgCurrentState_eq_dec : EqDecision PkgCurrentState.
Proof. solve_decision. Defined.
#[global] Instance VerPriority_eq_dec : EqDecision VerPriority.
Proof. solve_decision. Defined.
End State.

(** [pkgCache::Flag] bits of [StateCache::Flags]. *)
Module Flag.
Definition Auto : Z := Z.shiftl 1 0.
Definition Essential : Z := Z.shiftl 1 3.
Definition Important : Z := Z.shiftl 1 4.
End Flag.

(** [pkgDepCache::InternalFlags] bits of [StateCache::iFlags]. *)
Definition AutoKept : Z := Z.shiftl 1 0.
Definition Purge : Z := Z.shiftl 1 1.
Definition ReInstall : Z := Z.shiftl 1 2.

(** The C test [x & mask] used as a condition. *)
Definition tst (x mask : Z) : bool := negb (Z.land x mask =? 0)%Z.

Inductive ModeList := ModeDelete | ModeKeep | ModeInstall.
#[global] Instance ModeList_eq_dec : EqDecision ModeList.
Proof. solve_decision. Defined.

(** ** apt-pkg: the package cache *)

Definition PkgID := nat.   (* Pkg->ID; a PkgIterator that is not end() *)
Definition VerID := nat.   (* a VerIterator that is not end(); [option VerID] otherwise *)

Record Dependency := {
  dep_Type : Dep.DepType;
  dep_CompareOp : Z;
  dep_TargetVer : string;
  dep_TargetPkg : PkgID;
  dep_ParentPkg : PkgID;
  dep_ParentVer : VerID }.

Record Provides := {
  prv_ParentPkg : PkgID;        (* the provided (virtual) package *)
  prv_OwnerPkg : PkgID;
  prv_OwnerVer : VerID;
  prv_ProvideVersion : string }.

Record Version := {
  ver_VerStr : string;
  ver_ParentPkg : PkgID;
  ver_DependsList : list Dependency;
  ver_ProvidesList : list Provides;
  ver_Priority : State.VerPriority;
  ver_Automatic : bool;
  ver_Downloadable : bool }.

Record Package := {
  pkg_Name : string;
  pkg_CurrentState : State.PkgCurrentState;
  pkg_CurrentVer : option VerID;
  pkg_VersionList : list VerID;
  pkg_RevDependsList : list Dependency;
  pkg_ProvidesList : list Provides }.

Record pkgCache := {
  Pkg : PkgID -> Package;
  Ver : VerID -> Version;
  PkgList : list PkgID          (* PkgBegin() ... end(), in iteration order *) }.

#[global] Instance Dependency_eq_dec : EqDecision Dependency.
Proof. solve_decision. Defined.

(** ** apt-pkg: the dependency cache *)

Record StateCache := {
  Mode : ModeList;
  Flags : Z;
  iFlags : Z;
  Garbage : bool;
  Marked : bool;
  DepState : Z;
  CandidateVer : option VerID;
  InstallVer : option VerID }.

#[global] Instance StateCache_eq_dec : EqDecision StateCache.
Proof. solve_decision. Defined.

Definition Delete (st : StateCache) : bool := bool_decide (Mode st = ModeDelete).
Definition Keep (st : StateCache) : bool := bool_decide (Mode st = ModeKeep).
Definition Install (st : StateCache) : bool := bool_decide (Mode st = ModeInstall).

(** The operations of [pkgDepCache] that aptitude calls, over an engine
    state [D] of which aptitude only reads the [StateCache] array. *)
Record pkgDepCache_ops (D : Type) := {
  PkgState : D -> PkgID -> StateCache;
  MarkInstall : PkgID -> bool -> D -> D;
  MarkDelete : PkgID -> bool -> D -> D;
  MarkKeep : PkgID -> bool -> bool -> D -> D;
  MarkAuto : PkgID -> bool -> D -> D;
  SetReInstall : PkgID -> bool -> D -> D;
  SetCandidateVersion : VerID -> D -> D;
  GetCandidateVersion : D -> PkgID -> option VerID;
  MarkAndSweep : D -> D;
  ActionGroup_ctor : D -> D;
  ActionGroup_dtor : D -> D;
  IsImportantDep : D -> Dependency -> bool }.

Arguments PkgState {D}.
Arguments MarkInstall {D}.
Arguments MarkDelete {D}.
Arguments MarkKeep {D}.
Arguments MarkAuto {D}.
Arguments SetReInstall {D}.
Arguments SetCandidateVersion {D}.
Arguments GetCandidateVersion {D}.
Arguments MarkAndSweep {D}.
Arguments ActionGroup_ctor {D}.
Arguments ActionGroup_dtor {D}.
Arguments IsImportantDep {D}.

(** What else the modelled functions read: the cache, the configuration
    ([aptcfg]), the version system ([_system->VS->CheckDep]), the answer of
    the [read_only_permission] signal, and three helpers of aptitude that
    these functions call and whose bodies are defined elsewhere. *)
Record Environment := {
  cache : pkgCache;
  aptcfg : gmap string bool;
  CheckDep : string -> Z -> string -> bool;
  read_only_permission : bool;
  is_installed : PkgID -> bool;
  is_virtual : PkgID -> bool;
  is_auto_installed : StateCache -> bool }.

Definition FindB (cfg : gmap string bool) (key : string) (dflt : bool) : bool :=
  default dflt (cfg !! key).

(** ** aptitude: extended state *)

Inductive changed_reason := manual | unused | from_resolver | libapt.
#[global] Instance changed_reason_eq_dec : EqDecision changed_reason.
Proof. solve_decision. Defined.

Record aptitude_state := {
  new_package : bool;
  reinstall : bool;
  upgrade : bool;
  remove_reason : changed_reason;
  selection_state : State.PkgSelectedState;
  original_selection_state : State.PkgSelectedState;
  candver : string;
  forbidver : string;
  previously_auto_package : bool;
  user_tags : list nat }.

Definition with_selection_state (v : State.PkgSelectedState) (e : aptitude_state) :=
  {| new_package := new_package e; reinstall := reinstall e; upgrade := upgrade e;
     remove_reason := remove_reason e; selection_state := v;
     original_selection_state := original_selection_state e;
     candver := candver e; forbidver := forbidver e;
     previously_auto_package := previously_auto_package e; user_tags := user_tags e |}.

Definition with_reinstall (v : bool) (e : aptitude_state) :=
  {| new_package := new_package e; reinstall := v; upgrade := upgrade e;
     remove_reason := remove_reason e; selection_state := selection_state e;
     original_selection_state := original_selection_state e;
     candver := candver e; forbidver := forbidver e;
     previously_auto_package := previously_auto_package e; user_tags := user_tags e |}.

Definition with_remove_reason (v : changed_reason) (e : aptitude_state) :=
  {| new_package := new_package e; reinstall := reinstall e; upgrade := upgrade e;
     remove_reason := v; selection_state := selection_state e;
     original_selection_state := original_selection_state e;
     candver := candver e; forbidver := forbidver e;
     previously_auto_package := previously_auto_package e; user_tags := user_tags e |}.

Definition with_candver (v : string) (e : aptitude_state) :=
  {| new_package := new_package e; reinstall := reinstall e; upgrade := upgrade e;
     remove_reason := remove_reason e; selection_state := selection_state e;
     original_selection_state := original_selection_state e;
     candver := v; forbidver := forbidver e;
     previously_auto_package := previously_auto_package e; user_tags := user_tags e |}.

Definition with_forbidver (v : string) (e : aptitude_state) :=
  {| new_package := new_package e; reinstall := reinstall e; upgrade := upgrade e;
     remove_reason := remove_reason e; selection_state := selection_state e;
     original_selection_state := original_selection_state e;
     candver := candver e; forbidver := v;
     previously_auto_package := previously_auto_package e; user_tags := user_tags e |}.

Definition with_previously_auto_package (v : bool) (e : aptitude_state) :=
  {| new_package := new_package e; reinstall := reinstall e; upgrade := upgrade e;
     remove_reason := remove_reason e; selection_state := selection_state e;
     original_selection_state := original_selection_state e;
     candver := candver e; forbidver := forbidver e;
     previously_auto_package := v; user_tags := user_tags e |}.

(** ** aptitude: undo records *)

Inductive undoable :=
| apt_undoer (pkg : PkgID) (prev_mode : ModeList) (prev_flags prev_iflags : Z)
             (prev_removereason : changed_reason)
             (prev_selection_state : State.PkgSelectedState)
             (prev_forbidver : string)
| candver_undoer (oldver : option VerID).

(** An [undo_group *]: [None] is the null pointer, items are appended by
    [add_item]. *)
Definition undo_group := list undoable.

Definition add_item (u : undoable) (undo : option undo_group) : option undo_group :=
  match undo with
  | Some items => Some (items ++ [u])
  | None => None
  end.

(** ** aptitude: the cache object *)

(** Emitted signals, and a marker for each reconciliation routine that
    [end_action_group] enters, in the order of emission. *)
Inductive Event :=
| pre_package_state_changed
| package_state_changed
| package_states_changed (changed_packages : gset PkgID)
| read_only_fail
| enter_sweep
| enter_cleanup_after_change
| enter_duplicate_cache.

Record apt_state_snapshot := {
  snap_PkgState : PkgID -> StateCache;
  snap_AptitudeState : PkgID -> aptitude_state }.

Record aptitudeDepCache (D : Type) := {
  depcache : D;
  package_states : PkgID -> aptitude_state;
  backup_state : option apt_state_snapshot;
  dirty : bool;
  read_only : bool;
  group_level : Z;
  errors : list string;         (* _error *)
  events : list Event }.

Arguments depcache {D}.
Arguments package_states {D}.
Arguments backup_state {D}.
Arguments dirty {D}.
Arguments read_only {D}.
Arguments group_level {D}.
Arguments errors {D}.
Arguments events {D}.

(** [PACKAGE] of config.h, the prefix of aptitude's configuration keys. *)
Definition PACKAGE : string := "aptitude"%string.

(** Loops whose body can fail. *)
Fixpoint foldM {A S : Type} (f : A -> S -> option S) (l : list A) (s : S) : option S :=
  match l with
  | [] => Some s
  | a :: l' =>
      match f a s with
      | Some s' => foldM f l' s'
      | None => None
      end
  end.

(** The first element of a nested search. *)
Fixpoint first_some {A B : Type} (f : A -> option B) (l : list A) : option B :=
  match l with
  | [] => None
  | a :: l' =>
      match f a with
      | Some b => Some b
      | None => first_some f l'
      end
  end.

(** ** A reference engine

    A minimal [pkgDepCache] whose marking operations honour every request
    and touch only the package they are given, with the helpers of apt.cc
    read off the cache.  It instantiates the parameters of the model in
    the concrete scenarios below; the general statements do not depend on
    it. *)

Module Ref.

Definition DepCache : Type := PkgID -> StateCache.

Definition with_Mode (m : ModeList) (st : StateCache) : StateCache :=
  {| Mode := m; Flags := Flags st; iFlags := iFlags st; Garbage := Garbage st;
     Marked := Marked st; DepState := DepState st; CandidateVer := CandidateVer st;
     InstallVer := InstallVer st |}.

Definition with_Flags (f : Z) (st : StateCache) : StateCache :=
  {| Mode := Mode st; Flags := f; iFlags := iFlags st; Garbage := Garbage st;
     Marked := Marked st; DepState := DepState st; CandidateVer := CandidateVer st;
     InstallVer := InstallVer st |}.

Definition with_iFlags (f : Z) (st : StateCache) : StateCache :=
  {| Mode := Mode st; Flags := Flags st; iFlags := f; Garbage := Garbage st;
     Marked := Marked st; DepState := DepState st; CandidateVer := CandidateVer st;
     InstallVer := InstallVer st |}.

Definition with_CandidateVer (v : option VerID) (st : StateCache) : StateCache :=
  {| Mode := Mode st; Flags := Flags st; iFlags := iFlags st; Garbage := Garbage st;
     Marked := Marked st; DepState := DepState st; CandidateVer := v;
     InstallVer := InstallVer st |}.

Definition with_InstallVer (v : option VerID) (st : StateCache) : StateCache :=
  {| Mode := Mode st; Flags := Flags st; iFlags := iFlags st; Garbage := Garbage st;
     Marked := Marked st; DepState := DepState st; CandidateVer := CandidateVer st;
     InstallVer := v |}.

Definition upd (p : PkgID) (f : StateCache -> StateCache) (d : DepCache) : DepCache :=
  fun q => if decide (q = p) then f (d q) else d q.

(** [x |= mask] or [x &= ~mask] *)
Definition set_bit (mask : Z) (b : bool) (x : Z) : Z :=
  if b then Z.lor x mask else Z.land x (Z.lnot mask).

Definition MarkInstall (pc : pkgCache) (p : PkgID) (AutoInst : bool) (d : DepCache)
  : DepCache :=
  match CandidateVer (d p) with
  | None => d
  | Some cv =>
      if decide (Some cv = pkg_CurrentVer (Pkg pc p))
      then upd p (fun st => with_InstallVer (Some cv) (with_Mode ModeKeep st)) d
      else upd p (fun st => with_iFlags (set_bit AutoKept false (iFlags st))
                              (with_InstallVer (Some cv) (with_Mode ModeInstall st))) d
  end.

Definition MarkDelete (p : PkgID) (rPurge : bool) (d : DepCache) : DepCache :=
  upd p (fun st =>
           with_iFlags (set_bit Purge rPurge (set_bit AutoKept false (iFlags st)))
             (with_InstallVer None (with_Mode ModeDelete st))) d.

Definition MarkKeep (pc : pkgCache) (p : PkgID) (Soft FromUser : bool) (d : DepCache)
  : DepCache :=
  upd p (fun st =>
           with_iFlags (set_bit AutoKept Soft (iFlags st))
             (with_InstallVer (pkg_CurrentVer (Pkg pc p)) (with_Mode ModeKeep st))) d.

Definition MarkAuto (p : PkgID) (b : bool) (d : DepCache) : DepCache :=
  upd p (fun st => with_Flags (set_bit Flag.Auto b (Flags st)) st) d.

Definition SetReInstall (p : PkgID) (b : bool) (d : DepCache) : DepCache :=
  upd p (fun st => with_iFlags (set_bit ReInstall b (iFlags st)) st) d.

Definition SetCandidateVersion (pc : pkgCache) (v : VerID) (d : DepCache) : DepCache :=
  upd (ver_ParentPkg (Ver pc v))
      (fun st =>
         let st := with_CandidateVer (Some v) st in
         if Install st then with_InstallVer (Some v) st else st) d.

(** The policy's candidate: the first version of the list. *)
Definition GetCandidateVersion (pc : pkgCache) (d : DepCache) (p : PkgID) : option VerID :=
  head (pkg_VersionList (Pkg pc p)).

Definition IsImportantDep (d : DepCache) (dep : Dependency) : bool :=
  match dep_Type dep with
  | Dep.Depends | Dep.PreDepends | Dep.Conflicts | Dep.Obsoletes | Dep.DpkgBreaks
  | Dep.Recommends => true
  | _ => false
  end.

(** The Garbage flags are left as they are. *)
Definition ops (pc : pkgCache) : pkgDepCache_ops DepCache :=
  Build_pkgDepCache_ops DepCache
    (fun d p => d p) (MarkInstall pc) MarkDelete (MarkKeep pc) MarkAuto SetReInstall
    (SetCandidateVersion pc) (GetCandidateVersion pc)
    (fun d => d) (fun d => d) (fun d => d) IsImportantDep.

(** Unversioned dependencies are satisfied by every version, versioned
    ones by the version of that name. *)
Definition CheckDep (A : string) (Op : Z) (B : string) : bool :=
  if (Op =? 0)%Z then true else bool_decide (A = B).

Definition is_installed (pc : pkgCache) (p : PkgID) : bool :=
  negb (bool_decide (pkg_CurrentVer (Pkg pc p) = None))
  && negb (bool_decide (pkg_CurrentState (Pkg pc p) = State.NotInstalled))
  && negb (bool_decide (pkg_CurrentState (Pkg pc p) = State.ConfigFiles)).

Definition is_virtual (pc : pkgCache) (p : PkgID) : bool :=
  bool_decide (pkg_VersionList (Pkg pc p) = []).

Definition is_auto_installed (st : StateCache) : bool := tst (Flags st) Flag.Auto.

Definition env (pc : pkgCache) (cfg : gmap string bool) (permission : bool) : Environment :=
  Build_Environment pc cfg CheckDep permission
    (is_installed pc) (is_virtual pc) is_auto_installed.

End Ref.

(** ** Concrete scenarios *)

Definition no_version : Version :=
  {| ver_VerStr := ""%string; ver_ParentPkg := 0; ver_DependsList := [];
     ver_ProvidesList := []; ver_Priority := State.Optional;
     ver_Automatic := true; ver_Downloadable := false |}.

Definition no_package : Package :=
  {| pkg_Name := ""%string; pkg_CurrentState := State.NotInstalled;
     pkg_CurrentVer := None; pkg_VersionList := []; pkg_RevDependsList := [];
     pkg_ProvidesList := [] |}.

(** A cache from the lists of its packages and versions, by position. *)
Definition make_cache (pkgs : list Package) (vers : list Version) : pkgCache :=
  {| Pkg := fun p => nth p pkgs no_package;
     Ver := fun v => nth v vers no_version;
     PkgList := seq 0 (length pkgs) |}.

Definition plain_state (m : ModeList) (flags iflags : Z) (cand inst : option VerID)
  : StateCache :=
  {| Mode := m; Flags := flags; iFlags := iflags; Garbage := false; Marked := true;
     DepState := 0%Z; CandidateVer := cand; InstallVer := inst |}.

Definition plain_ext (sel : State.PkgSelectedState) (reason : changed_reason)
  : aptitude_state :=
  {| new_package := false; reinstall := false; upgrade := false;
     remove_reason := reason; selection_state := sel;
     original_selection_state := sel; candver := ""%string; forbidver := ""%string;
     previously_auto_package := false; user_tags := [] |}.

(** A cache object with the snapshot of its own state, as after a commit. *)
Definition committed (d : PkgID -> StateCache) (ps : PkgID -> aptitude_state)
    (ro : bool) (level : Z) : aptitudeDepCache Ref.DepCache :=
  {| depcache := d; package_states := ps;
     backup_state := Some {| snap_PkgState := d; snap_AptitudeState := ps |};
     dirty := false; read_only := ro; group_level := level;
     errors := []; events := [] |}.

(** *** A purged package

    One package, "foo", with one downloadable version 1.0 and nothing
    installed; it was purged in an earlier session, so it is kept with
    selection state Purge and no Purge iflag. *)
Module Purged.

Definition foo : Package :=
  {| pkg_Name := "foo"%string; pkg_CurrentState := State.NotInstalled;
     pkg_CurrentVer := None; pkg_VersionList := [0]; pkg_RevDependsList := [];
     pkg_ProvidesList := [] |}.

Definition foo_1_0 : Version :=
  {| ver_VerStr := "1.0"%string; ver_ParentPkg := 0; ver_DependsList := [];
     ver_ProvidesList := []; ver_Priority := State.Optional;
     ver_Automatic := true; ver_Downloadable := true |}.

Definition pc : pkgCache := make_cache [foo] [foo_1_0].

Definition env : Environment := Ref.env pc ∅ false.

Definition start : aptitudeDepCache Ref.DepCache :=
  committed (fun _ => plain_state ModeKeep 0 0 (Some 0) None)
            (fun _ => plain_ext State.Purge manual) false 0.

End Purged.

(** *** Two automatically installed packages that depend on each other

    "liba" 1.0 depends on "libb" and "libb" 1.0 depends on "liba"; both
    are installed, kept, and carry the Auto flag.  The configuration is
    the default one: Delete-Unused on, Purge-Unused off. *)
Module Cycle.

Definition liba_on_libb : Dependency :=
  {| dep_Type := Dep.Depends; dep_CompareOp := 0%Z; dep_TargetVer := ""%string;
     dep_TargetPkg := 1; dep_ParentPkg := 0; dep_ParentVer := 0 |}.

Definition libb_on_liba : Dependency :=
  {| dep_Type := Dep.Depends; dep_CompareOp := 0%Z; dep_TargetVer := ""%string;
     dep_TargetPkg := 0; dep_ParentPkg := 1; dep_ParentVer := 1 |}.

Definition liba : Package :=
  {| pkg_Name := "liba"%string; pkg_CurrentState := State.Installed;
     pkg_CurrentVer := Some 0; pkg_VersionList := [0];
     pkg_RevDependsList := [libb_on_liba]; pkg_ProvidesList := [] |}.

Definition libb : Package :=
  {| pkg_Name := "libb"%string; pkg_CurrentState := State.Installed;
     pkg_CurrentVer := Some 1; pkg_VersionList := [1];
     pkg_RevDependsList := [liba_on_libb]; pkg_ProvidesList := [] |}.

Definition liba_1_0 : Version :=
  {| ver_VerStr := "1.0"%string; ver_ParentPkg := 0; ver_DependsList := [liba_on_libb];
     ver_ProvidesList := []; ver_Priority := State.Optional;
     ver_Automatic := true; ver_Downloadable := true |}.

Definition libb_1_0 : Version :=
  {| ver_VerStr := "1.0"%string; ver_ParentPkg := 1; ver_DependsList := [libb_on_liba];
     ver_ProvidesList := []; ver_Priority := State.Optional;
     ver_Automatic := true; ver_Downloadable := true |}.

Definition pc : pkgCache := make_cache [liba; libb] [liba_1_0; libb_1_0].

Definition env : Environment := Ref.env pc ∅ false.

Definition start : aptitudeDepCache Ref.DepCache :=
  committed (fun p => plain_state ModeKeep Flag.Auto 0 (Some p) (Some p))
            (fun _ => plain_ext State.Install manual) false 1.

(** The same cache opened without the write lock, inside an action
    group, with both packages scheduled for removal since the snapshot
    was taken. *)
Definition read_only_group : aptitudeDepCache Ref.DepCache :=
  {| depcache := fun p => plain_state ModeDelete Flag.Auto 0 (Some p) None;
     package_states := fun _ => plain_ext State.DeInstall manual;
     backup_state :=
       Some {| snap_PkgState := fun p => plain_state ModeKeep Flag.Auto 0 (Some p) (Some p);
               snap_AptitudeState := fun _ => plain_ext State.Install manual |};
     dirty := false; read_only := true; group_level := 1;
     errors := []; events := [] |}.

End Cycle.

(** *** The package manager as a dependency

    "aptitude" (0) is installed, kept and automatically installed; the
    installed "tools" (1) depends on it and nothing else does. *)
Module Self.

Definition tools_on_aptitude : Dependency :=
  {| dep_Type := Dep.Depends; dep_CompareOp := 0%Z; dep_TargetVer := ""%string;
     dep_TargetPkg := 0; dep_ParentPkg := 1; dep_ParentVer := 1 |}.

Definition aptitude : Package :=
  {| pkg_Name := "aptitude"%string; pkg_CurrentState := State.Installed;
     pkg_CurrentVer := Some 0; pkg_VersionList := [0];
     pkg_RevDependsList := [tools_on_aptitude]; pkg_ProvidesList := [] |}.

Definition tools : Package :=
  {| pkg_Name := "tools"%string; pkg_CurrentState := State.Installed;
     pkg_CurrentVer := Some 1; pkg_VersionList := [1];
     pkg_RevDependsList := []; pkg_ProvidesList := [] |}.

Definition aptitude_1_0 : Version :=
  {| ver_VerStr := "1.0"%string; ver_ParentPkg := 0; ver_DependsList := [];
     ver_ProvidesList := []; ver_Priority := State.Optional;
     ver_Automatic := true; ver_Downloadable := true |}.

Definition tools_1_0 : Version :=
  {| ver_VerStr := "1.0"%string; ver_ParentPkg := 1;
     ver_DependsList := [tools_on_aptitude];
     ver_ProvidesList := []; ver_Priority := State.Optional;
     ver_Automatic := true; ver_Downloadable := true |}.

Definition pc : pkgCache := make_cache [aptitude; tools] [aptitude_1_0; tools_1_0].

Definition env : Environment := Ref.env pc ∅ false.

Definition start : aptitudeDepCache Ref.DepCache :=
  committed (fun p => plain_state ModeKeep (if decide (p = 0) then Flag.Auto else 0%Z) 0
                        (Some p) (Some p))
            (fun _ => plain_ext State.Install manual) false 1.


End Self.

(** *** Unused removals at commit time

    "app" (0) is installed and kept; it depends on "libx" (1) and on
    "liby" (4).  "libx" depends on "libb" (2), which conflicts with
    "newlib" (3), a package about to be installed.  "liby" depends on
    "libz" (5).  The four libraries are installed and are pending unused
    removals that the engine no longer flags as garbage.  Version [i] is
    the one version of package [i]. *)
Module Orphans.

Definition dep (t : Dep.DepType) (parent target : PkgID) : Dependency :=
  {| dep_Type := t; dep_CompareOp := 0%Z; dep_TargetVer := ""%string;
     dep_TargetPkg := target; dep_ParentPkg := parent; dep_ParentVer := parent |}.

Definition package (name : string) (st : State.PkgCurrentState) (id : PkgID)
    (rev : list Dependency) : Package :=
  {| pkg_Name := name; pkg_CurrentState := st;
     pkg_CurrentVer := if decide (st = State.Installed) then Some id else None;
     pkg_VersionList := [id]; pkg_RevDependsList := rev; pkg_ProvidesList := [] |}.

Definition version (id : PkgID) (deps : list Dependency) : Version :=
  {| ver_VerStr := "1.0"%string; ver_ParentPkg := id; ver_DependsList := deps;
     ver_ProvidesList := []; ver_Priority := State.Optional;
     ver_Automatic := true; ver_Downloadable := true |}.

Definition pc : pkgCache :=
  make_cache
    [ package "app" State.Installed 0 [];
      package "libx" State.Installed 1 [dep Dep.Depends 0 1];
      package "libb" State.Installed 2 [dep Dep.Depends 1 2];
      package "newlib" State.NotInstalled 3 [dep Dep.Conflicts 2 3];
      package "liby" State.Installed 4 [dep Dep.Depends 0 4];
      package "libz" State.Installed 5 [dep Dep.Depends 4 5] ]
    [ version 0 [dep Dep.Depends 0 1; dep Dep.Depends 0 4];
      version 1 [dep Dep.Depends 1 2];
      version 2 [dep Dep.Conflicts 2 3];
      version 3 [];
      version 4 [dep Dep.Depends 4 5];
      version 5 [] ].

Definition env : Environment := Ref.env pc ∅ false.

Definition base (p : PkgID) : StateCache :=
  match p with
  | 0 => plain_state ModeKeep 0 0 (Some 0) (Some 0)
  | 3 => plain_state ModeInstall 0 0 (Some 3) (Some 3)
  | _ => plain_state ModeDelete Flag.Auto 0 (Some p) None
  end.

Definition ext (p : PkgID) : aptitude_state :=
  match p with
  | 0 | 3 => plain_ext State.Install manual
  | _ => plain_ext State.DeInstall unused
  end.

Definition start : aptitudeDepCache Ref.DepCache := committed base ext false 1.

End Orphans.

(** *** Garbage at commit time

    "app" (0) is installed and kept.  "libold" (1) is installed, kept and
    automatically installed, and "extra" (2) is not installed and about
    to be installed automatically; the engine flags both as garbage. *)
Module Leftover.

Definition pc : pkgCache :=
  make_cache
    [ Orphans.package "app" State.Installed 0 [];
      Orphans.package "libold" State.Installed 1 [];
      Orphans.package "extra" State.NotInstalled 2 [] ]
    [ Orphans.version 0 []; Orphans.version 1 []; Orphans.version 2 [] ].

Definition env : Environment := Ref.env pc ∅ false.

Definition garbage (m : ModeList) (cand inst : option VerID) : StateCache :=
  {| Mode := m; Flags := Flag.Auto; iFlags := 0; Garbage := true; Marked := false;
     DepState := 0%Z; CandidateVer := cand; InstallVer := inst |}.

Definition base (p : PkgID) : StateCache :=
  match p with
  | 1 => garbage ModeKeep (Some 1) (Some 1)
  | 2 => garbage ModeInstall (Some 2) (Some 2)
  | _ => plain_state ModeKeep 0 0 (Some p) (Some p)
  end.

Definition start : aptitudeDepCache Ref.DepCache :=
  committed base (fun _ => plain_ext State.Install manual) false 1.

End Leftover.

(** *** Upgrades and holds

    Four installed packages, each with a newer version 2.0 that is the
    policy's and the engine's candidate, and "fresh" (4), which is not
    installed.  "app" (0) is on hold, "lib" (1) is selected for
    installation, version 2.0 of "tool" (2) is forbidden, and the
    selection state of "old" (3) is unknown.  Package [p] has the
    versions [2p+1] (2.0) and [2p] (1.0). *)
Module Upgrades.

Definition package (name : string) (id : PkgID) (installed : bool) : Package :=
  {| pkg_Name := name;
     pkg_CurrentState := if installed then State.Installed else State.NotInstalled;
     pkg_CurrentVer := if installed then Some (2 * id) else None;
     pkg_VersionList := [2 * id + 1; 2 * id];
     pkg_RevDependsList := []; pkg_ProvidesList := [] |}.

Definition version (id : PkgID) (str : string) : Version :=
  {| ver_VerStr := str; ver_ParentPkg := id; ver_DependsList := [];
     ver_ProvidesList := []; ver_Priority := State.Optional;
     ver_Automatic := true; ver_Downloadable := true |}.

Definition pc : pkgCache :=
  make_cache
    [ package "app" 0 true; package "lib" 1 true; package "tool" 2 true;
      package "old" 3 true; package "fresh" 4 false ]
    [ version 0 "1.0"; version 0 "2.0"; version 1 "1.0"; version 1 "2.0";
      version 2 "1.0"; version 2 "2.0"; version 3 "1.0"; version 3 "2.0";
      version 4 "1.0"; version 4 "2.0" ].

Definition env : Environment := Ref.env pc ∅ false.

Definition base (p : PkgID) : StateCache :=
  plain_state ModeKeep 0 0 (Some (2 * p + 1)) (Some (2 * p)).

Definition ext (p : PkgID) : aptitude_state :=
  match p with
  | 0 => plain_ext State.Hold manual
  | 2 => with_forbidver "2.0" (plain_ext State.Install manual)
  | 3 => plain_ext State.Unknown manual
  | _ => plain_ext State.Install manual
  end.

Definition start : aptitudeDepCache Ref.DepCache := committed base ext false 0.

End Upgrades.

(** ** aptitude: the bookkeeping of new packages *)

Definition with_new_package (v : bool) (e : aptitude_state) :=
  {| new_package := v; reinstall := reinstall e; upgrade := upgrade e;
     remove_reason := remove_reason e; selection_state := selection_state e;
     original_selection_state := original_selection_state e;
     candver := candver e; forbidver := forbidver e;
     previously_auto_package := previously_auto_package e;
     user_tags := user_tags e |}.

(** The cache object together with its member [new_package_count], which
    only [set_new_flag] and [forget_new] write after the cache is
    loaded, and the number of [cache_reloaded] signals sent.  (The
    counter is a C integer; the model counts in Z.) *)
Record counted_cache (D : Type) := {
  obj : aptitudeDepCache D;
  new_package_count : Z;
  reloads : nat }.

Arguments obj {D}.
Arguments new_package_count {D}.
Arguments reloads {D}.

(** *** New packages

    The three packages of the cache above, of which "libold" (1) and
    "extra" (2) are flagged as new. *)
Module Fresh.

Definition ext (p : PkgID) : aptitude_state :=
  match p with
  | 1 | 2 => with_new_package true (plain_ext State.Install manual)
  | _ => plain_ext State.Install manual
  end.

Definition start : counted_cache Ref.DepCache :=
  {| obj := committed (fun p => plain_state ModeKeep 0 0 (Some p) (Some p)) ext false 0;
     new_package_count := 2; reloads := 0 |}.

End Fresh.

(** *** Alternatives

    The dependency list "a | b | c, d" of a version. *)
Module Alternatives.

Definition alt (target : PkgID) (or_next : bool) : Dependency :=
  {| dep_Type := Dep.Depends; dep_CompareOp := if or_next then 16%Z else 0%Z;
     dep_TargetVer := ""%string; dep_TargetPkg := target;
     dep_ParentPkg := 0; dep_ParentVer := 0 |}.

Definition depends : list Dependency := [alt 1 true; alt 2 true; alt 3 false; alt 4 false].

End Alternatives.

(** *** A version system

    Versions are compared by the length of their strings, and [CheckDep]
    decides by that comparison under the operator of the lower 4 bits
    (1 is <=, 2 is >=, 3 is <<, 4 is >>, 5 is =, 6 is !=). *)
Module Versions.

Definition cmp (a b : string) : Z :=
  (Z.of_nat (String.length a) - Z.of_nat (String.length b))%Z.

Definition CheckDep (A : string) (op : Z) (B : string) : bool :=
  if bool_decide (B = ""%string) then true
  else
    match Z.land op 15 with
    | 1%Z => (cmp A B <=? 0)%Z
    | 2%Z => (0 <=? cmp A B)%Z
    | 3%Z => (cmp A B <? 0)%Z
    | 4%Z => (0 <? cmp A B)%Z
    | 5%Z => (cmp A B =? 0)%Z
    | 6%Z => negb (cmp A B =? 0)%Z
    | _ => false
    end.

Definition env : Environment :=
  Build_Environment (make_cache [] []) ∅ CheckDep false
    (fun _ => false) (fun _ => false) (fun _ => false).

Definition on (op : Z) (ver : string) : Dependency :=
  {| dep_Type := Dep.Depends; dep_CompareOp := op; dep_TargetVer := ver;
     dep_TargetPkg := 1; dep_ParentPkg := 0; dep_ParentVer := 0 |}.

End Versions.

(** *** A shared library

    "one" (0) and "two" (1) are installed by hand and both depend on
    "lib" (2), which was installed automatically.  All three are kept. *)
Module Shared.

Definition pc : pkgCache :=
  make_cache
    [ Orphans.package "one" State.Installed 0 [];
      Orphans.package "two" State.Installed 1 [];
      Orphans.package "lib" State.Installed 2
        [Orphans.dep Dep.Depends 0 2; Orphans.dep Dep.Depends 1 2] ]
    [ Orphans.version 0 [Orphans.dep Dep.Depends 0 2];
      Orphans.version 1 [Orphans.dep Dep.Depends 1 2];
      Orphans.version 2 [] ].

Definition env : Environment := Ref.env pc ∅ false.

Definition start : aptitudeDepCache Ref.DepCache :=
  committed (fun p => plain_state ModeKeep (if decide (p = 2) then Flag.Auto else 0%Z) 0
                        (Some p) (Some p))
            (fun _ => plain_ext State.Install manual) false 1.

End Shared.

Section AptitudeDepCache.

Context {D : Type}.
Variable E : pkgDepCache_ops D.
Variable env : Environment.

(** *** Field updates and accessors *)

Definition set_depcache (d : D) (c : aptitudeDepCache D) : aptitudeDepCache D :=
  {| depcache := d; package_states := package_states c;
     backup_state := backup_state c; dirty := dirty c; read_only := read_only c;
     group_level := group_level c; errors := errors c; events := events c |}.

Definition set_package_states (ps : PkgID -> aptitude_state) (c : aptitudeDepCache D)
  : aptitudeDepCache D :=
  {| depcache := depcache c; package_states := ps;
     backup_state := backup_state c; dirty := dirty c; read_only := read_only c;
     group_level := group_level c; errors := errors c; events := events c |}.

Definition set_backup_state (b : option apt_state_snapshot) (c : aptitudeDepCache D)
  : aptitudeDepCache D :=
  {| depcache := depcache c; package_states := package_states c;
     backup_state := b; dirty := dirty c; read_only := read_only c;
     group_level := group_level c; errors := errors c; events := events c |}.

Definition set_dirty (b : bool) (c : aptitudeDepCache D) : aptitudeDepCache D :=
  {| depcache := depcache c; package_states := package_states c;
     backup_state := backup_state c; dirty := b; read_only := read_only c;
     group_level := group_level c; errors := errors c; events := events c |}.

Definition set_group_level (n : Z) (c : aptitudeDepCache D) : aptitudeDepCache D :=
  {| depcache := depcache c; package_states := package_states c;
     backup_state := backup_state c; dirty := dirty c; read_only := read_only c;
     group_level := n; errors := errors c; events := events c |}.

(** [_error->Error(msg)] *)
Definition Error (msg : string) (c : aptitudeDepCache D) : aptitudeDepCache D :=
  {| depcache := depcache c; package_states := package_states c;
     backup_state := backup_state c; dirty := dirty c; read_only := read_only c;
     group_level := group_level c; errors := errors c ++ [msg]; events := events c |}.

Definition emit (e : Event) (c : aptitudeDepCache D) : aptitudeDepCache D :=
  {| depcache := depcache c; package_states := package_states c;
     backup_state := backup_state c; dirty := dirty c; read_only := read_only c;
     group_level := group_level c; errors := errors c; events := events c ++ [e] |}.

(** A call of a [pkgDepCache] member. *)
Definition on_depcache (f : D -> D) (c : aptitudeDepCache D) : aptitudeDepCache D :=
  set_depcache (f (depcache c)) c.

(** The [StateCache] of a package: [operator[]] of the cache. *)
Definition state_of (c : aptitudeDepCache D) (pkg : PkgID) : StateCache :=
  PkgState E (depcache c) pkg.

Definition get_ext_state (c : aptitudeDepCache D) (pkg : PkgID) : aptitude_state :=
  package_states c pkg.

(** An assignment through [get_ext_state(pkg)] or [package_states[pkg->ID]]. *)
Definition upd_ext_state (pkg : PkgID) (f : aptitude_state -> aptitude_state)
    (c : aptitudeDepCache D) : aptitudeDepCache D :=
  set_package_states
    (fun p => if decide (p = pkg) then f (package_states c p) else package_states c p) c.

Definition Name (p : PkgID) : string := pkg_Name (Pkg (cache env) p).
Definition CurrentState (p : PkgID) : State.PkgCurrentState :=
  pkg_CurrentState (Pkg (cache env) p).
Definition CurrentVer (p : PkgID) : option VerID := pkg_CurrentVer (Pkg (cache env) p).
Definition VersionList (p : PkgID) : list VerID := pkg_VersionList (Pkg (cache env) p).
Definition RevDependsList (p : PkgID) : list Dependency :=
  pkg_RevDependsList (Pkg (cache env) p).
Definition ProvidesList (p : PkgID) : list Provides :=
  pkg_ProvidesList (Pkg (cache env) p).
Definition VerStr (v : VerID) : string := ver_VerStr (Ver (cache env) v).
Definition ParentPkg (v : VerID) : PkgID := ver_ParentPkg (Ver (cache env) v).
Definition DependsList (v : VerID) : list Dependency := ver_DependsList (Ver (cache env) v).
Definition VerProvidesList (v : VerID) : list Provides :=
  ver_ProvidesList (Ver (cache env) v).

(** [CurrentState == NotInstalled || CurrentState == ConfigFiles] *)
Definition not_on_system (p : PkgID) : bool :=
  bool_decide (CurrentState p = State.NotInstalled)
  || bool_decide (CurrentState p = State.ConfigFiles).

(** [dep->Type == Depends || dep->Type == PreDepends] *)
Definition is_strong (dep : Dependency) : bool :=
  bool_decide (dep_Type dep = Dep.Depends) || bool_decide (dep_Type dep = Dep.PreDepends).

(** [dep->Type == Conflicts || dep->Type == DpkgBreaks] *)
Definition is_conflict (dep : Dependency) : bool :=
  bool_decide (dep_Type dep = Dep.Conflicts) || bool_decide (dep_Type dep = Dep.DpkgBreaks).

(** [_system->VS->CheckDep(A, dep->CompareOp, dep.TargetVer())] *)
Definition check (A : string) (dep : Dependency) : bool :=
  CheckDep env A (dep_CompareOp dep) (dep_TargetVer dep).

(** *** apt.cc: install_version, is_conflicted, can_remove_autoinstalled *)

Definition install_version (pkg : PkgID) (d : D) : option VerID :=
  match VersionList pkg with
  | [] => None
  | _ =>
      let state := PkgState E d pkg in
      if Delete state then None
      else if Install state then InstallVer state
      else if not_on_system pkg then None
      else CurrentVer pkg
  end.

Definition is_conflicted (ver : option VerID) (d : D) : option Dependency :=
  match ver with
  | None => None
  | Some v =>
      let parentPkg := ParentPkg v in
      (* forward conflicts: direct, then virtual *)
      let forward (dep : Dependency) : bool :=
        is_conflict dep &&
        ((bool_decide (dep_TargetPkg dep <> parentPkg)
          && match install_version (dep_TargetPkg dep) d with
             | Some iv => check (VerStr iv) dep
             | None => false
             end)
         || existsb (fun prv =>
                       bool_decide (prv_OwnerPkg prv <> parentPkg)
                       && bool_decide (install_version (prv_OwnerPkg prv) d
                                       = Some (prv_OwnerVer prv))
                       && check (prv_ProvideVersion prv) dep)
                    (ProvidesList (dep_TargetPkg dep))) in
      (* reverse conflicts on the package, and on what the version provides *)
      let reverse (A : string) (dep : Dependency) : bool :=
        is_conflict dep
        && bool_decide (dep_ParentPkg dep <> parentPkg)
        && bool_decide (install_version (dep_ParentPkg dep) d = Some (dep_ParentVer dep))
        && check A dep in
      match find forward (DependsList v) with
      | Some dep => Some dep
      | None =>
          match find (reverse (VerStr v)) (RevDependsList parentPkg) with
          | Some dep => Some dep
          | None =>
              first_some
                (fun prv => find (reverse (prv_ProvideVersion prv))
                                 (RevDependsList (prv_ParentPkg prv)))
                (VerProvidesList v)
          end
      end
  end.

(** The dependency types both the cascading removal and
    [can_remove_autoinstalled] consider. *)
Definition considered (keep_recommends_installed keep_suggests_installed : bool)
    (dep : Dependency) : bool :=
  bool_decide (dep_Type dep = Dep.Depends)
  || bool_decide (dep_Type dep = Dep.PreDepends)
  || (bool_decide (dep_Type dep = Dep.Recommends) && keep_recommends_installed)
  || (bool_decide (dep_Type dep = Dep.Suggests) && keep_suggests_installed).

Definition can_remove_autoinstalled (pkg : PkgID) (d : D)
    (keep_recommends_installed keep_suggests_installed : bool) : bool :=
  let early_no :=
    if is_virtual env pkg then false   (* virtual packages: handled by the scan *)
    else if negb (bool_decide (VersionList pkg = [])) && bool_decide (CurrentVer pkg = None)
    then true
    else
      match CurrentVer pkg with
      | Some cur => negb (ver_Automatic (Ver (cache env) cur))
      | None => false
      end in
  if early_no then false
  else
    let rdeps_prevent_removal :=
      existsb (fun rev_dep =>
                 considered keep_recommends_installed keep_suggests_installed rev_dep
                 && let rev_dep_state := PkgState E d (dep_ParentPkg rev_dep) in
                    let rev_dep_to_remain_installed :=
                      is_installed env (dep_ParentPkg rev_dep) && negb (Delete rev_dep_state) in
                    let rev_dep_to_be_installed := Install rev_dep_state in
                    rev_dep_to_remain_installed || rev_dep_to_be_installed)
              (RevDependsList pkg) in
    negb rdeps_prevent_removal.

(** *** Helpers of sweep() *)

(** The body of both loops of [remove_reverse_current_versions], for one
    reverse dependency [dep] tested against the version string [A];
    [rec] is the recursive call. *)
Definition follow_revdep (rec : gset PkgID -> VerID -> option (gset PkgID))
    (bad_pkg : PkgID) (A : string) (dep : Dependency) (reinstated : gset PkgID)
    : option (gset PkgID) :=
  (* Skip self-deps. *)
  if decide (dep_ParentPkg dep = bad_pkg) then Some reinstated
  (* Skip packages that aren't in the reinstate set. *)
  else if decide (dep_ParentPkg dep ∉ reinstated) then Some reinstated
  else if is_strong dep
          && bool_decide (Some (dep_ParentVer dep) = CurrentVer (dep_ParentPkg dep))
          && check A dep
  then rec (reinstated ∖ {[dep_ParentPkg dep]}) (dep_ParentVer dep)
  else Some reinstated.

(** [remove_reverse_current_versions]: the recursion erases a member of
    [reinstated] before each recursive call; [fuel] bounds its depth. *)
Fixpoint remove_reverse_current_versions (fuel : nat) (reinstated : gset PkgID)
    (bad_ver : VerID) : option (gset PkgID) :=
  match fuel with
  | O => None
  | S fuel' =>
      let follow := follow_revdep (remove_reverse_current_versions fuel')
                      (ParentPkg bad_ver) in
      (* Follow direct revdeps. *)
      match foldM (follow (VerStr bad_ver)) (RevDependsList (ParentPkg bad_ver)) reinstated with
      | None => None
      | Some reinstated =>
          (* Follow indirect revdeps. *)
          foldM (fun prv reinstated =>
                   foldM (follow (prv_ProvideVersion prv))
                         (RevDependsList (prv_ParentPkg prv)) reinstated)
                (VerProvidesList bad_ver) reinstated
      end
  end.

(** The sanity check of [trace_not_orphaned] and [find_not_orphaned]. *)
Definition not_currently_installed (p : PkgID) : bool :=
  not_on_system p || bool_decide (CurrentVer p = None).

(** The body of the loop of [trace_not_orphaned], for one dependency of
    the current version; [rec] is the recursive call. *)
Definition trace_dep (rec : PkgID -> gset PkgID -> option (gset PkgID)) (d : D)
    (dep : Dependency) (not_orphaned : gset PkgID) : option (gset PkgID) :=
  if negb (IsImportantDep E d dep) then Some not_orphaned
  else
    let targetPkg := dep_TargetPkg dep in
    (* If the target is installed, check if it matches the dep and is
       reinstated. *)
    match
      (if negb (not_on_system targetPkg) then
         match CurrentVer targetPkg with
         | Some tv =>
             if check (VerStr tv) dep then rec targetPkg not_orphaned
             else Some not_orphaned
         | None => Some not_orphaned
             (* the source dereferences the end iterator here *)
         end
       else Some not_orphaned)
    with
    | None => None
    | Some not_orphaned =>
        foldM (fun prv not_orphaned =>
                 if check (prv_ProvideVersion prv) dep
                 then rec (prv_OwnerPkg prv) not_orphaned
                 else Some not_orphaned)
              (ProvidesList targetPkg) not_orphaned
    end.

(** [trace_not_orphaned]: every call that goes on inserts a new member
    of [reinstated] into [not_orphaned]; [fuel] bounds the depth. *)
Fixpoint trace_not_orphaned (fuel : nat) (notOrphan : PkgID) (reinstated : gset PkgID)
    (d : D) (not_orphaned : gset PkgID) : option (gset PkgID) :=
  match fuel with
  | O => None
  | S fuel' =>
      if decide (notOrphan ∈ not_orphaned) then Some not_orphaned
      else if not_currently_installed notOrphan then Some not_orphaned
      else if decide (notOrphan ∉ reinstated) then Some not_orphaned
      else
        match CurrentVer notOrphan with
        | None => Some not_orphaned       (* excluded by the sanity check *)
        | Some cur =>
            foldM (trace_dep (fun p => trace_not_orphaned fuel' p reinstated d) d)
                  (DependsList cur) ({[notOrphan]} ∪ not_orphaned)
        end
  end.

(** "only consider installed or to be installed packages" *)
Definition installed_or_to_be (d : D) (p : PkgID) : bool :=
  let state := PkgState E d p in
  Install state || (is_installed env p && negb (Delete state)).

(** The body of both loops of [find_not_orphaned], for one reverse
    dependency [dep] tested against the version string [A]. *)
Definition visit_revdep (fuel : nat) (maybeOrphan : PkgID) (reinstated : gset PkgID)
    (d : D) (A : string) (dep : Dependency) (not_orphaned : gset PkgID)
    : option (gset PkgID) :=
  if bool_decide (dep_ParentPkg dep <> maybeOrphan) && is_strong dep then
    if negb (installed_or_to_be d (dep_ParentPkg dep)) then Some not_orphaned
    else if check A dep
    then trace_not_orphaned fuel maybeOrphan reinstated d not_orphaned
    else Some not_orphaned
  else Some not_orphaned.

Definition find_not_orphaned (fuel : nat) (maybeOrphan : PkgID) (reinstated : gset PkgID)
    (d : D) (not_orphaned : gset PkgID) : option (gset PkgID) :=
  if not_currently_installed maybeOrphan then Some not_orphaned
  else
    match CurrentVer maybeOrphan with
    | None => Some not_orphaned           (* excluded by the sanity check *)
    | Some maybeOrphanCurrentVer =>
        let visit := visit_revdep fuel maybeOrphan reinstated d in
        match foldM (visit (VerStr maybeOrphanCurrentVer)) (RevDependsList maybeOrphan)
                    not_orphaned with
        | None => None
        | Some not_orphaned =>
            foldM (fun prv not_orphaned =>
                     foldM (visit (prv_ProvideVersion prv))
                           (RevDependsList (prv_ParentPkg prv)) not_orphaned)
                  (VerProvidesList maybeOrphanCurrentVer) not_orphaned
        end
    end.

(** *** sweep() *)

(** The body of the first loop of [sweep], for one package: garbage is
    scheduled for removal or normalised, an unused removal that is no
    longer garbage goes to [reinstated] or, when conflicted, to
    [reinstated_bad]. *)
Definition sweep_classify (purge_unused : bool)
    (acc : aptitudeDepCache D * gset PkgID * gset PkgID) (pkg : PkgID)
    : aptitudeDepCache D * gset PkgID * gset PkgID :=
  let '(c, reinstated, reinstated_bad) := acc in
  if Garbage (state_of c pkg) then
    if negb (bool_decide (CurrentVer pkg = None))
       && negb (bool_decide (CurrentState pkg = State.ConfigFiles))
    then
      if negb (Delete (state_of c pkg)) then
        let c := emit pre_package_state_changed c in
        let c := on_depcache (MarkDelete E pkg purge_unused) c in
        let c := upd_ext_state pkg
                   (with_selection_state
                      (if purge_unused then State.Purge else State.DeInstall)) c in
        let c := upd_ext_state pkg (with_remove_reason unused) c in
        (c, reinstated, reinstated_bad)
      else (c, reinstated, reinstated_bad)
    else
      let c :=
        if bool_decide (CurrentVer pkg = None) then
          if tst (iFlags (state_of c pkg)) Purge
          then upd_ext_state pkg (with_selection_state State.Purge) c
          else upd_ext_state pkg (with_selection_state State.DeInstall) c
        else upd_ext_state pkg (with_selection_state State.Install) c in
      let c := emit pre_package_state_changed c in
      let c := on_depcache (MarkKeep E pkg false false) c in
      (c, reinstated, reinstated_bad)
  else if Delete (state_of c pkg)
          && bool_decide (remove_reason (package_states c pkg) = unused)
  then
    match is_conflicted (CurrentVer pkg) (depcache c) with
    | Some conflict => (c, reinstated, {[pkg]} ∪ reinstated_bad)
    | None => (c, {[pkg]} ∪ reinstated, reinstated_bad)
    end
  else (c, reinstated, reinstated_bad).

(** Remove packages that transitively depend on a package in
    [reinstated_bad] from [reinstated]. *)
Definition sweep_block (reinstated reinstated_bad : gset PkgID) : option (gset PkgID) :=
  foldM (fun it reinstated =>
           match CurrentVer it with
           | Some bad_ver =>
               remove_reverse_current_versions (S (size reinstated)) reinstated bad_ver
           | None => Some reinstated     (* a conflicted version is never end() *)
           end)
        (elements reinstated_bad) reinstated.

(** Figure out which reinstated packages aren't orphaned. *)
Definition sweep_not_orphaned (reinstated : gset PkgID) (d : D) : option (gset PkgID) :=
  foldM (fun it not_orphaned =>
           find_not_orphaned (S (size reinstated)) it reinstated d not_orphaned)
        (elements reinstated) ∅.

(** The first loop of [sweep], inside the engine's action group: the
    cache after it, [reinstated] and [reinstated_bad]. *)
Definition sweep_first_loop (c : aptitudeDepCache D)
  : aptitudeDepCache D * gset PkgID * gset PkgID :=
  (* Suppress intermediate removals. *)
  let c := on_depcache (ActionGroup_ctor E) c in
  let purge_unused := FindB (aptcfg env) (PACKAGE +:+ "::Purge-Unused") false in
  fold_left (sweep_classify purge_unused) (PkgList (cache env)) (c, ∅, ∅).

Definition sweep (c : aptitudeDepCache D) : option (aptitudeDepCache D) :=
  if negb (FindB (aptcfg env) (PACKAGE +:+ "::Delete-Unused") true) then Some c
  else
    let '(c, reinstated, reinstated_bad) := sweep_first_loop c in
    match sweep_block reinstated reinstated_bad with
    | None => None
    | Some reinstated =>
        match sweep_not_orphaned reinstated (depcache c) with
        | None => None
        | Some not_orphaned =>
            (* The ones that survived should be reinstated: *)
            let c := fold_left (fun c pkg => on_depcache (MarkKeep E pkg false false) c)
                               (elements not_orphaned) c in
            Some (on_depcache (ActionGroup_dtor E) c)
        end
    end.

(** *** Snapshots, undo records and the commit-time diff *)

Definition duplicate_cache (c : aptitudeDepCache D) : aptitudeDepCache D :=
  set_backup_state
    (Some {| snap_PkgState := PkgState E (depcache c);
             snap_AptitudeState := package_states c |}) c.

Definition state_restorer (pkg : PkgID) (state : StateCache) (ext_state : aptitude_state)
  : undoable :=
  apt_undoer pkg (Mode state) (Flags state) (iFlags state)
             (remove_reason ext_state) (selection_state ext_state) (forbidver ext_state).

(** The fields whose change yields an undo record. *)
Definition primary_change (cur bak : StateCache) (ext bext : aptitude_state) : bool :=
  negb (bool_decide (Mode cur = Mode bak))
  || negb (Z.land (Flags cur) Flag.Auto =? Z.land (Flags bak) Flag.Auto)%Z
  || negb (bool_decide (selection_state ext = selection_state bext))
  || negb (bool_decide (reinstall ext = reinstall bext))
  || negb (bool_decide (remove_reason ext = remove_reason bext))
  || negb (bool_decide (forbidver ext = forbidver bext)).

(** The changes that only update the display. *)
Definition cosmetic_change (cur bak : StateCache) (ext bext : aptitude_state) : bool :=
  negb (Flags cur =? Flags bak)%Z
  || negb (DepState cur =? DepState bak)%Z
  || negb (bool_decide (CandidateVer cur = CandidateVer bak))
  || negb (bool_decide (Marked cur = Marked bak))
  || negb (bool_decide (Garbage cur = Garbage bak))
  || negb (bool_decide (user_tags ext = user_tags bext))
  || negb (bool_decide (new_package ext = new_package bext)).

(** "Catch packages which switched without altering their Aptitude
    selection mode" *)
Definition alter_sticky (pkg : PkgID) (c : aptitudeDepCache D) : aptitudeDepCache D :=
  match Mode (state_of c pkg) with
  | ModeDelete =>
      if negb (bool_decide (selection_state (package_states c pkg) = State.DeInstall)) then
        let c := if negb (bool_decide (CurrentVer pkg = None))
                 then upd_ext_state pkg (with_remove_reason libapt) c else c in
        upd_ext_state pkg (with_selection_state State.DeInstall) c
      else c
  | ModeKeep =>
      if negb (bool_decide (CurrentVer pkg = None))
      then upd_ext_state pkg (with_selection_state State.Install) c
      else if bool_decide (CurrentState pkg = State.NotInstalled)
      then upd_ext_state pkg (with_selection_state State.Purge) c
      else upd_ext_state pkg (with_selection_state State.DeInstall) c
  | ModeInstall =>
      if negb (bool_decide (selection_state (package_states c pkg) = State.Install))
      then upd_ext_state pkg (with_selection_state State.Install) c
      else c
  end.

Definition cleanup_step (bak : apt_state_snapshot) (alter_stickies : bool)
    (acc : aptitudeDepCache D * option undo_group * gset PkgID) (pkg : PkgID)
    : aptitudeDepCache D * option undo_group * gset PkgID :=
  let '(c, undo, changed_packages) := acc in
  let cur := state_of c pkg in
  let ext := package_states c pkg in
  let bcur := snap_PkgState bak pkg in
  let bext := snap_AptitudeState bak pkg in
  if primary_change cur bcur ext bext then
    let c := emit pre_package_state_changed c in
    let c :=
      if alter_stickies
         && negb (bool_decide (Mode cur = Mode bcur))
         && bool_decide (selection_state ext = selection_state bext)
      then alter_sticky pkg c else c in
    let undo := add_item (state_restorer pkg bcur bext) undo in
    (c, undo, {[pkg]} ∪ changed_packages)
  else if cosmetic_change cur bcur ext bext then (c, undo, {[pkg]} ∪ changed_packages)
  else (c, undo, changed_packages).

(** [backup_state] is [None] when its arrays are NULL. *)
Definition cleanup_after_change (undo : option undo_group) (alter_stickies : bool)
    (c : aptitudeDepCache D) : aptitudeDepCache D * option undo_group * gset PkgID :=
  match backup_state c with
  | None => (c, undo, ∅)
  | Some bak => fold_left (cleanup_step bak alter_stickies) (PkgList (cache env)) (c, undo, ∅)
  end.

(** *** Action groups *)

(** [read_only && !read_only_permission()] *)
Definition read_only_denied (c : aptitudeDepCache D) : bool :=
  read_only c && negb (read_only_permission env).

(** The body of the guard: [if(group_level == 0) read_only_fail();]. *)
Definition refuse (c : aptitudeDepCache D) : aptitudeDepCache D :=
  if (group_level c =? 0)%Z then emit read_only_fail c else c.

Definition begin_action_group (c : aptitudeDepCache D) : aptitudeDepCache D :=
  set_group_level (group_level c + 1)%Z c.

(** [eassert(group_level>0)] throws when it fails: the result is [None].
    [cleanup_after_change] is called with its default [alter_stickies]. *)
Definition end_action_group (undo : option undo_group) (c : aptitudeDepCache D)
  : option (aptitudeDepCache D * option undo_group) :=
  if negb (0 <? group_level c)%Z then None
  else if (group_level c =? 1)%Z then
    if read_only_denied c then
      let c := refuse c in
      Some (set_group_level (group_level c - 1)%Z c, undo)
    else
      match sweep (emit enter_sweep c) with
      | None => None
      | Some c =>
          let '(c, undo, changed_packages) :=
            cleanup_after_change undo true (emit enter_cleanup_after_change c) in
          let c := duplicate_cache (emit enter_duplicate_cache c) in
          let c := emit package_state_changed c in
          let c := emit (package_states_changed changed_packages) c in
          Some (set_group_level (group_level c - 1)%Z c, undo)
      end
  else Some (set_group_level (group_level c - 1)%Z c, undo).

(** Constructor and destructor of [aptitudeDepCache::action_group]. *)
Definition action_group_ctor (c : aptitudeDepCache D) : aptitudeDepCache D :=
  begin_action_group (on_depcache (ActionGroup_ctor E) c).

Definition action_group_dtor (undo : option undo_group) (c : aptitudeDepCache D)
  : option (aptitudeDepCache D * option undo_group) :=
  end_action_group undo (on_depcache (ActionGroup_dtor E) c).

(** *** Mutation operations *)

(** "Make the package manually installed if it was being garbage-collected." *)
Definition set_to_manual_p (c : aptitudeDepCache D) (p : PkgID) : bool :=
  (bool_decide (CurrentVer p = None) && negb (Install (state_of c p)))
  || (negb (bool_decide (CurrentVer p = None))
      && Delete (state_of c p)
      && bool_decide (remove_reason (get_ext_state c p) = unused)).

Definition set_candidate_version (ver : option VerID) (undo : option undo_group)
    (c : aptitudeDepCache D) : aptitudeDepCache D * option undo_group :=
  if read_only_denied c then (refuse c, undo)
  else
    let c := set_dirty true c in
    match ver with
    | None => (c, undo)
    | Some v =>
        let P := ParentPkg v in
        if ver_Downloadable (Ver (cache env) v)
           || (bool_decide (Some v = CurrentVer P)
               && negb (bool_decide (CurrentState P = State.ConfigFiles)))
        then
          let c := emit pre_package_state_changed c in
          let set_to_manual := set_to_manual_p c P in
          let c := if set_to_manual then on_depcache (MarkAuto E P false) c else c in
          let prev := CandidateVer (state_of c P) in
          let c :=
            if negb (bool_decide (Some v = GetCandidateVersion E (depcache c) P))
            then upd_ext_state P (with_candver (VerStr v)) c
            else upd_ext_state P (with_candver ""%string) c in
          let c := upd_ext_state P (with_selection_state State.Install) c in
          let c := on_depcache (SetCandidateVersion E v) c in
          if (group_level c =? 0)%Z then
            let undo := add_item (candver_undoer prev) undo in
            let c := on_depcache (MarkAndSweep E) c in
            (emit package_state_changed c, undo)
          else (c, undo)
        else (c, undo)
    end.

Definition internal_mark_install (P : PkgID) (AutoInst reinst : bool)
    (c : aptitudeDepCache D) : aptitudeDepCache D :=
  let c := set_dirty true c in
  let set_to_manual := set_to_manual_p c P in
  (* MarkInstall and friends like to modify the auto flag, so save it
     here and restore it afterwards: *)
  let previously_auto := tst (Flags (state_of c P)) Flag.Auto in
  let final_auto := if set_to_manual then false else previously_auto in
  let c := if negb reinst then on_depcache (MarkInstall E P AutoInst) c
           else on_depcache (MarkKeep E P AutoInst true) c in
  let c := on_depcache (SetReInstall E P reinst) c in
  let c := on_depcache (MarkAuto E P final_auto) c in
  let c := upd_ext_state P (with_selection_state State.Install) c in
  let c := upd_ext_state P (with_reinstall reinst) c in
  let c := upd_ext_state P (with_forbidver ""%string) c in
  upd_ext_state P (with_previously_auto_package final_auto) c.

(** "refuse to remove itself": [!Pkg.end() && is_installed(Pkg) &&
    string("aptitude") == Pkg.Name()], for a [Pkg] that is not [end()]. *)
Definition is_self (P : PkgID) : bool :=
  is_installed env P && bool_decide ("aptitude"%string = Name P).

(** [APT::Install-Recommends || APT::AutoRemove::RecommendsImportant ||
    Aptitude::Keep-Recommends] and the like for Suggests. *)
Definition keep_recommends_installed : bool :=
  FindB (aptcfg env) "APT::Install-Recommends" true
  || FindB (aptcfg env) "APT::AutoRemove::RecommendsImportant" true
  || FindB (aptcfg env) (PACKAGE +:+ "::Keep-Recommends") false.

Definition keep_suggests_installed : bool :=
  FindB (aptcfg env) "APT::AutoRemove::SuggestsImportant" true
  || FindB (aptcfg env) (PACKAGE +:+ "::Keep-Suggests") false.

Definition can_remove (p : PkgID) (c : aptitudeDepCache D) : bool :=
  can_remove_autoinstalled p (depcache c) keep_recommends_installed keep_suggests_installed.

(** "consider only automatically installed dependencies, or dependencies
    which are not required on their own right" *)
Definition is_not_required (state : StateCache) (dep_ver : VerID) : bool :=
  negb (tst (Flags state) Flag.Essential
        || tst (Flags state) Flag.Important
        || bool_decide (ver_Priority (Ver (cache env) dep_ver) = State.Important)
        || bool_decide (ver_Priority (Ver (cache env) dep_ver) = State.Required)).

(** The body of the loop of [internal_mark_delete] over the dependencies
    of the removed version; [rec] is the recursive call, which offers a
    package for removal.  ([dep.TargetPkg()] is never [end()].) *)
Definition cascade_dep
    (rec : PkgID -> list PkgID -> aptitudeDepCache D
           -> option (aptitudeDepCache D * list PkgID))
    (dep : Dependency) (acc : aptitudeDepCache D * list PkgID)
    : option (aptitudeDepCache D * list PkgID) :=
  let '(c, visited) := acc in
  let dep_pkg := dep_TargetPkg dep in
  (* consider only these type of dependencies *)
  if negb (considered keep_recommends_installed keep_suggests_installed dep)
  then Some (c, visited)
  else if is_virtual env dep_pkg then
    (* consider all provided virtual packages *)
    foldM
      (fun dep_prv '(c, visited) =>
         (* virtual package itself *)
         if negb (can_remove dep_pkg c) then Some (c, visited)
         (* real package *)
         else if negb (is_auto_installed env (state_of c (prv_OwnerPkg dep_prv)))
                 || negb (can_remove (prv_OwnerPkg dep_prv) c)
         then Some (c, visited)
         else rec (prv_OwnerPkg dep_prv) visited c)
      (ProvidesList dep_pkg) (c, visited)
  else
    (* if not virtual and no current version installed, no need to consider *)
    match CurrentVer dep_pkg with
    | None => Some (c, visited)
    | Some dep_ver =>
        let state := state_of c dep_pkg in
        let is_auto := is_auto_installed env state in
        if is_installed env dep_pkg && is_auto && is_not_required state dep_ver then
          if negb (can_remove dep_pkg c) then Some (c, visited)
          else rec dep_pkg visited c
        else Some (c, visited)
    end.

(** The part of [internal_mark_delete] before the cascade: the package
    itself is marked. *)
Definition mark_delete_head (P : PkgID) (purge unused_delete : bool)
    (c : aptitudeDepCache D) : aptitudeDepCache D :=
  let purge_unused := FindB (aptcfg env) (PACKAGE +:+ "::Purge-Unused") false in
  let purge := if unused_delete && purge_unused then true else purge in
  let c := set_dirty true c in
  let previously_to_delete := Delete (state_of c P) in
  let c := on_depcache (MarkDelete E P purge) c in
  let c := on_depcache (SetReInstall E P false) c in
  let c := upd_ext_state P
             (with_selection_state (if purge then State.Purge else State.DeInstall)) c in
  let c := upd_ext_state P (with_reinstall false) c in
  if negb previously_to_delete then
    if unused_delete then upd_ext_state P (with_remove_reason unused) c
    else upd_ext_state P (with_remove_reason manual) c
  else c.

(** [internal_mark_delete] with its list of visited packages.  The
    recursion goes through packages that are not yet in
    [unused_already_visited]; [fuel] bounds its depth. *)
Fixpoint internal_mark_delete_rec (fuel : nat) (P : PkgID) (purge unused_delete : bool)
    (unused_already_visited : list PkgID) (c : aptitudeDepCache D)
    : option (aptitudeDepCache D * list PkgID) :=
  match fuel with
  | O => None
  | S fuel' =>
      (* refuse to remove itself *)
      if is_self P
      then Some (Error "Cannot remove aptitude within aptitude"%string c,
                 unused_already_visited)
      else
        let c := mark_delete_head P purge unused_delete c in
        if negb (FindB (aptcfg env) (PACKAGE +:+ "::Delete-Unused") true)
        then Some (c, unused_already_visited)
        else
          match CurrentVer P with
          | None => Some (c, unused_already_visited)
          | Some cur =>
              if decide (P ∈ unused_already_visited)
              then Some (c, unused_already_visited)      (* already visited *)
              else
                (* not previously visited, register *)
                let unused_already_visited := unused_already_visited ++ [P] in
                (* from now on these are "unused deletes"; not to purge
                   unused lightly *)
                let purge := FindB (aptcfg env) (PACKAGE +:+ "::Purge-Unused") false in
                foldM (cascade_dep
                         (fun p visited c =>
                            internal_mark_delete_rec fuel' p purge true visited c))
                      (DependsList cur) (c, unused_already_visited)
          end
  end.

(** The three-argument [internal_mark_delete]: a fresh visited list.
    Each level of the recursion adds a package to the list, so the
    number of packages bounds the depth. *)
Definition internal_mark_delete (P : PkgID) (purge unused_delete : bool)
    (c : aptitudeDepCache D) : option (aptitudeDepCache D) :=
  match internal_mark_delete_rec (S (length (PkgList (cache env)))) P purge unused_delete [] c with
  | Some (c, _) => Some c
  | None => None
  end.

Definition internal_mark_keep (P : PkgID) (Automatic SetHold : bool)
    (c : aptitudeDepCache D) : aptitudeDepCache D :=
  let c := set_dirty true c in
  let was_garbage_removed :=
    Delete (state_of c P)
    && negb (bool_decide (CurrentVer P = None))
    && bool_decide (remove_reason (get_ext_state c P) = unused) in
  let c := if was_garbage_removed then on_depcache (MarkAuto E P false) c else c in
  let c := fst (set_candidate_version (GetCandidateVersion E (depcache c) P) None c) in
  let c := on_depcache (MarkKeep E P false (negb Automatic)) c in
  let c := on_depcache (SetReInstall E P false) c in
  let c := upd_ext_state P (with_reinstall false) c in
  let c := upd_ext_state P (with_forbidver ""%string) c in
  (* explicitly mark auto-installed *)
  let c := on_depcache (MarkAuto E P Automatic) c in
  if bool_decide (CurrentVer P = None) then
    if tst (iFlags (state_of c P)) Purge
    then upd_ext_state P (with_selection_state State.Purge) c
    else upd_ext_state P (with_selection_state State.DeInstall) c
  else if SetHold then upd_ext_state P (with_selection_state State.Hold) c
  else upd_ext_state P (with_selection_state State.Install) c.

Definition mark_install (P : PkgID) (AutoInst reinst : bool) (undo : option undo_group)
    (c : aptitudeDepCache D) : option (aptitudeDepCache D * option undo_group) :=
  if read_only_denied c then Some (refuse c, undo)
  else
    let c := action_group_ctor c in
    let c := emit pre_package_state_changed c in
    let c := internal_mark_install P AutoInst reinst c in
    action_group_dtor undo c.

Definition mark_delete (P : PkgID) (purge unused_delete : bool) (undo : option undo_group)
    (c : aptitudeDepCache D) : option (aptitudeDepCache D * option undo_group) :=
  if is_self P
  then Some (Error "Cannot remove aptitude within aptitude"%string c, undo)
  else if read_only_denied c then Some (refuse c, undo)
  else
    let c := action_group_ctor c in
    let c := emit pre_package_state_changed c in
    match internal_mark_delete P purge unused_delete c with
    | None => None
    | Some c => action_group_dtor undo c
    end.

Definition mark_keep (P : PkgID) (Automatic SetHold : bool) (undo : option undo_group)
    (c : aptitudeDepCache D) : option (aptitudeDepCache D * option undo_group) :=
  if read_only_denied c then Some (refuse c, undo)
  else
    let c := action_group_ctor c in
    let c := emit pre_package_state_changed c in
    let c := internal_mark_keep P Automatic SetHold c in
    action_group_dtor undo c.

Definition forbid_upgrade (P : PkgID) (verstr : string) (undo : option undo_group)
    (c : aptitudeDepCache D) : option (aptitudeDepCache D * option undo_group) :=
  if read_only_denied c then Some (refuse c, undo)
  else if negb (bool_decide (verstr = forbidver (get_ext_state c P))) then
    let c := action_group_ctor c in
    let c := emit pre_package_state_changed c in
    let candver := CandidateVer (state_of c P) in
    let c := set_dirty true c in
    let c := upd_ext_state P (with_forbidver verstr) c in
    let c :=
      match candver with
      | Some cv =>
          if bool_decide (VerStr cv = verstr) && Install (state_of c P)
          then on_depcache (MarkKeep E P false true) c else c
      | None => c
      end in
    action_group_dtor undo c
  else Some (c, undo).

(** [pkgDepCache::MarkKeep(i, true)] keeps every package softly before
    the one installation. *)
Definition mark_single_install (P : PkgID) (undo : option undo_group)
    (c : aptitudeDepCache D) : option (aptitudeDepCache D * option undo_group) :=
  if read_only_denied c then Some (refuse c, undo)
  else
    let c := action_group_ctor c in
    let c := emit pre_package_state_changed c in
    let c := set_dirty true c in
    let c := fold_left (fun c i => on_depcache (MarkKeep E i true true) c)
                       (PkgList (cache env)) c in
    let c := if set_to_manual_p c P then on_depcache (MarkAuto E P false) c else c in
    let c := internal_mark_install P true false c in
    action_group_dtor undo c.

Definition mark_auto_installed (P : PkgID) (set_auto : bool) (undo : option undo_group)
    (c : aptitudeDepCache D) : option (aptitudeDepCache D * option undo_group) :=
  if read_only_denied c then Some (refuse c, undo)
  else
    (* it is faster to check first *)
    let current_value := is_auto_installed env (state_of c P) in
    if negb (bool_decide (set_auto = current_value)) then
      let c := action_group_ctor c in
      let c := emit pre_package_state_changed c in
      let c := set_dirty true c in
      let c := on_depcache (MarkAuto E P set_auto) c in
      action_group_dtor undo c
    else Some (c, undo).

(** *** Applying an undo record *)

(** [apt_undoer::undo] between the constructor and the destructor of its
    action group: the operation for the recorded mode is replayed, then
    the Auto flag, remove_reason and forbidver are written back. *)
Definition undo_body (pkg : PkgID) (prev_mode : ModeList) (prev_flags prev_iflags : Z)
    (prev_removereason : changed_reason) (prev_selection_state : State.PkgSelectedState)
    (prev_forbidver : string) (c : aptitudeDepCache D) : option (aptitudeDepCache D) :=
  let c := emit pre_package_state_changed c in
  let r :=
    if tst prev_iflags ReInstall then Some (internal_mark_install pkg false true c)
    else
      match prev_mode with
      | ModeDelete =>
          internal_mark_delete pkg (tst prev_iflags Purge)
            (bool_decide (prev_removereason = unused)) c
      | ModeKeep =>
          Some (internal_mark_keep pkg (tst prev_iflags AutoKept)
                  (bool_decide (prev_selection_state = State.Hold)) c)
      | ModeInstall => Some (internal_mark_install pkg false false c)
      end in
  match r with
  | None => None
  | Some c =>
      (* make sure that everything is really set. *)
      let c := on_depcache (MarkAuto E pkg (tst prev_flags Flag.Auto)) c in
      let c := upd_ext_state pkg (with_remove_reason prev_removereason) c in
      Some (upd_ext_state pkg (with_forbidver prev_forbidver) c)
  end.

Definition undo (u : undoable) (c : aptitudeDepCache D) : option (aptitudeDepCache D) :=
  match u with
  | apt_undoer pkg prev_mode prev_flags prev_iflags prev_removereason
               prev_selection_state prev_forbidver =>
      let c := action_group_ctor c in
      match undo_body pkg prev_mode prev_flags prev_iflags prev_removereason
                      prev_selection_state prev_forbidver c with
      | None => None
      | Some c =>
          match action_group_dtor None c with
          | Some (c, _) => Some c
          | None => None
          end
      end
  | candver_undoer oldver =>
      let c := emit pre_package_state_changed c in
      let c := fst (set_candidate_version oldver None c) in
      Some (emit package_state_changed c)
  end.

(** *** Laws of a cooperating engine

    What the proofs below assume of [pkgDepCache], each as a named
    proposition; a statement lists the ones it relies on. *)

(** A request to keep or to delete is honoured. *)
Definition MarkKeep_honoured : Prop :=
  forall p soft fu d, Mode (PkgState E (MarkKeep E p soft fu d) p) = ModeKeep.

Definition MarkDelete_honoured : Prop :=
  forall p purge d, Mode (PkgState E (MarkDelete E p purge d) p) = ModeDelete.

(** [MarkAuto] writes the Auto flag and nothing else that is read here. *)
Definition MarkAuto_sets_Auto : Prop :=
  forall p b d, tst (Flags (PkgState E (MarkAuto E p b d) p)) Flag.Auto = b.


Definition MarkAuto_keeps_iFlags : Prop :=
  forall p b d q, iFlags (PkgState E (MarkAuto E p b d) q) = iFlags (PkgState E d q).

(** [SetReInstall] writes the ReInstall flag and leaves the modes. *)
Definition SetReInstall_sets_ReInstall : Prop :=
  forall p b d, tst (iFlags (PkgState E (SetReInstall E p b d) p)) ReInstall = b.

Definition SetReInstall_keeps_Mode : Prop :=
  forall p b d q, Mode (PkgState E (SetReInstall E p b d) q) = Mode (PkgState E d q).


(** *** The mutation operations as one type *)

Inductive mutation :=
| op_mark_install (P : PkgID) (AutoInst reinst : bool)
| op_mark_delete (P : PkgID) (purge unused_delete : bool)
| op_mark_keep (P : PkgID) (Automatic SetHold : bool)
| op_set_candidate_version (ver : option VerID)
| op_forbid_upgrade (P : PkgID) (verstr : string)
| op_mark_single_install (P : PkgID)
| op_mark_auto_installed (P : PkgID) (set_auto : bool).

Definition run (m : mutation) (undo : option undo_group) (c : aptitudeDepCache D)
  : option (aptitudeDepCache D * option undo_group) :=
  match m with
  | op_mark_install P AutoInst reinst => mark_install P AutoInst reinst undo c
  | op_mark_delete P purge unused_delete => mark_delete P purge unused_delete undo c
  | op_mark_keep P Automatic SetHold => mark_keep P Automatic SetHold undo c
  | op_set_candidate_version ver => Some (set_candidate_version ver undo c)
  | op_forbid_upgrade P verstr => forbid_upgrade P verstr undo c
  | op_mark_single_install P => mark_single_install P undo c
  | op_mark_auto_installed P set_auto => mark_auto_installed P set_auto undo c
  end.

(** The calls that self-protection turns down before the read-only guard. *)
Definition self_removal (m : mutation) : bool :=
  match m with
  | op_mark_delete P _ _ => is_self P
  | _ => false
  end.

(** *** The relations the sweep helpers compute with *)

(** [dep] is a strong dependency of the current version of [q] that the
    version string [A] satisfies. *)
Definition follows (q : PkgID) (A : string) (dep : Dependency) : Prop :=
  dep_ParentPkg dep = q /\ is_strong dep = true
  /\ Some (dep_ParentVer dep) = CurrentVer q /\ check A dep = true.

(** The current version of [q] depends on the version [v] of another
    package, directly or through something [v] provides: the test of
    [remove_reverse_current_versions], over the reverse dependency lists. *)
Definition rev_edge (q : PkgID) (v : VerID) : Prop :=
  q <> ParentPkg v
  /\ ((exists dep, dep ∈ RevDependsList (ParentPkg v) /\ follows q (VerStr v) dep)
      \/ (exists prv dep, prv ∈ VerProvidesList v
                          /\ dep ∈ RevDependsList (prv_ParentPkg prv)
                          /\ follows q (prv_ProvideVersion prv) dep)).

(** A chain of such dependencies inside the set [R], ending at [v]. *)
Inductive chain (R : gset PkgID) : PkgID -> VerID -> Prop :=
| chain_edge q v : q ∈ R -> rev_edge q v -> chain R q v
| chain_step q e ev v :
    q ∈ R -> CurrentVer e = Some ev -> rev_edge q ev -> chain R e v -> chain R q v.

(** What [remove_reverse_current_versions] returns for [R] and [v]. *)
Definition rrcv_post (R : gset PkgID) (v : VerID) (R' : gset PkgID) : Prop :=
  R' ⊆ R
  /\ (forall q, q ∈ R' -> ~ rev_edge q v)
  /\ (forall e ev, e ∈ R -> e ∉ R' -> CurrentVer e = Some ev ->
                   forall q, q ∈ R' -> ~ rev_edge q ev)
  /\ (forall e, e ∈ R -> e ∉ R' -> chain R e v).

(** A package of [reinstated] or [reinstated_bad] that is blocked: it is
    in [reinstated_bad], or its current version depends on the current
    version of a blocked package. *)
Inductive blocked (reinstated reinstated_bad : gset PkgID) : PkgID -> Prop :=
| blocked_bad p : p ∈ reinstated_bad -> blocked reinstated reinstated_bad p
| blocked_dep q p pv :
    q ∈ reinstated -> blocked reinstated reinstated_bad p ->
    CurrentVer p = Some pv -> rev_edge q pv ->
    blocked reinstated reinstated_bad q.

(** A package passes the checks of [trace_not_orphaned]: it is on the
    system and in the reinstatement set. *)
Definition qual (reinstated : gset PkgID) (p : PkgID) : Prop :=
  not_currently_installed p = false /\ p ∈ reinstated.

(** The dependency [dep] leads [trace_not_orphaned] to the package [c]:
    [c] is its target, installed in a version that satisfies it, or
    [c] owns a provision of the target that satisfies it. *)
Definition dep_reaches (dep : Dependency) (c : PkgID) : Prop :=
  (c = dep_TargetPkg dep /\ not_on_system c = false
   /\ exists cv, CurrentVer c = Some cv /\ check (VerStr cv) dep = true)
  \/ (exists prv, prv ∈ ProvidesList (dep_TargetPkg dep) /\ prv_OwnerPkg prv = c
                  /\ check (prv_ProvideVersion prv) dep = true).

(** An important dependency of the current version of [r] leads to [c]. *)
Definition tedge (d : D) (r c : PkgID) : Prop :=
  exists rv dep, CurrentVer r = Some rv /\ dep ∈ DependsList rv
                 /\ IsImportantDep E d dep = true /\ dep_reaches dep c.

Definition closed (reinstated : gset PkgID) (d : D) (r : PkgID) (NO : gset PkgID) : Prop :=
  forall c, tedge d r c -> qual reinstated c -> c ∈ NO.

(** [not_orphaned] grows inside [reinstated], and what is new has all
    its qualifying dependencies in the set. *)
Definition grow (reinstated : gset PkgID) (d : D) (NO NO' : gset PkgID) : Prop :=
  NO ⊆ NO' /\ NO' ⊆ NO ∪ reinstated
  /\ (forall r, r ∈ NO' -> r ∉ NO -> closed reinstated d r NO').

Definition trace_post (reinstated : gset PkgID) (d : D) (p : PkgID)
    (NO NO' : gset PkgID) : Prop :=
  grow reinstated d NO NO' /\ (qual reinstated p -> p ∈ NO').

(** The reverse dependency [dep] makes [find_not_orphaned] trace [C]: a
    strong dependency of another package that is installed or to be
    installed, satisfied by the version string [A]. *)
Definition needs (d : D) (C : PkgID) (A : string) (dep : Dependency) : Prop :=
  dep_ParentPkg dep <> C /\ is_strong dep = true
  /\ installed_or_to_be d (dep_ParentPkg dep) = true /\ check A dep = true.

(** Some package that is installed or to be installed depends on the
    current version of [C], directly or through what it provides. *)
Definition root_needed (d : D) (C : PkgID) : Prop :=
  exists cv, CurrentVer C = Some cv
    /\ ((exists dep, dep ∈ RevDependsList C /\ needs d C (VerStr cv) dep)
        \/ (exists prv dep, prv ∈ VerProvidesList cv
                            /\ dep ∈ RevDependsList (prv_ParentPkg prv)
                            /\ needs d C (prv_ProvideVersion prv) dep)).

(** The packages [sweep] retains: needed by a package that stays, or by
    a retained package, and passing the checks themselves. *)
Inductive retained (reinstated : gset PkgID) (d : D) : PkgID -> Prop :=
| retained_root C :
    qual reinstated C -> root_needed d C -> retained reinstated d C
| retained_dep r C :
    retained reinstated d r -> tedge d r C -> qual reinstated C ->
    retained reinstated d C.

(** An operation on one package leaves the mode of the others. *)
Definition MarkKeep_frame : Prop :=
  forall p soft fu d q, q <> p ->
    Mode (PkgState E (MarkKeep E p soft fu d) q) = Mode (PkgState E d q).

Definition MarkDelete_frame : Prop :=
  forall p purge d q, q <> p ->
    Mode (PkgState E (MarkDelete E p purge d) q) = Mode (PkgState E d q).

(** Entering and leaving an engine action group, which ends in the
    engine's mark-and-sweep, leaves the modes. *)
Definition ActionGroup_keeps_Mode : Prop :=
  forall d q, Mode (PkgState E (ActionGroup_ctor E d) q) = Mode (PkgState E d q)
              /\ Mode (PkgState E (ActionGroup_dtor E d) q) = Mode (PkgState E d q).


(** The test of the second branch of the first loop of [sweep]: a
    pending unused removal that is not garbage. *)
Definition unused_removal (c : aptitudeDepCache D) (pkg : PkgID) : bool :=
  negb (Garbage (state_of c pkg))
  && Delete (state_of c pkg)
  && bool_decide (remove_reason (package_states c pkg) = unused).

(** A package [sweep] may reinstate: a candidate that is not blocked and
    is on the system. *)
Definition candidate_ok (reinstated reinstated_bad : gset PkgID) (C : PkgID) : Prop :=
  C ∈ reinstated /\ ~ blocked reinstated reinstated_bad C
  /\ not_currently_installed C = false.

(** The candidates that are needed: by a package that is installed or to
    be installed, or by a needed candidate. *)
Inductive needed (reinstated reinstated_bad : gset PkgID) (d : D) : PkgID -> Prop :=
| needed_root C :
    candidate_ok reinstated reinstated_bad C -> root_needed d C ->
    needed reinstated reinstated_bad d C
| needed_dep r C :
    needed reinstated reinstated_bad d r -> tedge d r C ->
    candidate_ok reinstated reinstated_bad C ->
    needed reinstated reinstated_bad d C.

(** [c'] differs from [c] in package states at most: level, flags and
    snapshot are the same, and the only events added are
    [pre_package_state_changed]. *)
Definition same_shell (c c' : aptitudeDepCache D) : Prop :=
  group_level c' = group_level c /\ read_only c' = read_only c
  /\ backup_state c' = backup_state c /\ errors c' = errors c
  /\ exists n, events c' = events c ++ replicate n pre_package_state_changed.

(** *** What the cascade proof assumes and states *)

(** Marking a package leaves the flags of the others, and what
    [is_auto_installed] reads of them. *)
Definition MarkDelete_keeps_marks : Prop :=
  forall p purge d q, q <> p ->
    Flags (PkgState E (MarkDelete E p purge d) q) = Flags (PkgState E d q)
    /\ is_auto_installed env (PkgState E (MarkDelete E p purge d) q)
       = is_auto_installed env (PkgState E d q).

Definition SetReInstall_keeps_marks : Prop :=
  forall p b d q, q <> p ->
    Flags (PkgState E (SetReInstall E p b d) q) = Flags (PkgState E d q)
    /\ is_auto_installed env (PkgState E (SetReInstall E p b d) q)
       = is_auto_installed env (PkgState E d q).

(** Every package a cascade can reach from a listed package is listed. *)
Definition cache_closed : Prop :=
  forall p cur dep, p ∈ PkgList (cache env) -> CurrentVer p = Some cur ->
    dep ∈ DependsList cur ->
    dep_TargetPkg dep ∈ PkgList (cache env)
    /\ forall prv, prv ∈ ProvidesList (dep_TargetPkg dep) ->
                   prv_OwnerPkg prv ∈ PkgList (cache env).

(** The selection state of an unused removal. *)
Definition unused_selection : State.PkgSelectedState :=
  if FindB (aptcfg env) (PACKAGE +:+ "::Purge-Unused") false
  then State.Purge else State.DeInstall.

(** [B] is scheduled for removal as unused. *)
Definition removed_as_unused (B : PkgID) (c : aptitudeDepCache D) : Prop :=
  Mode (state_of c B) = ModeDelete
  /\ remove_reason (package_states c B) = unused
  /\ selection_state (package_states c B) = unused_selection.

(** [B], with current version [bv], is still to be offered for removal:
    automatically installed, not required, not scheduled for removal for
    another reason, and no considered reverse dependency comes from a
    package that is installed or to be installed. *)
Definition removable (B : PkgID) (bv : VerID) (c : aptitudeDepCache D) : Prop :=
  is_auto_installed env (state_of c B) = true
  /\ is_not_required (state_of c B) bv = true
  /\ (Delete (state_of c B) = false \/ remove_reason (package_states c B) = unused)
  /\ forall rd, rd ∈ RevDependsList B ->
       considered keep_recommends_installed keep_suggests_installed rd = true ->
       installed_or_to_be (depcache c) (dep_ParentPkg rd) = false.

(** A visited list of at least [n] distinct listed packages. *)
Definition visited_ok (n : nat) (v : list PkgID) : Prop :=
  NoDup v /\ (forall x, x ∈ v -> x ∈ PkgList (cache env)) /\ n <= length v.

(** The first loop of [sweep] after the packages [l]. *)
Definition sweep_loop_upto (l : list PkgID) (c : aptitudeDepCache D)
  : aptitudeDepCache D * gset PkgID * gset PkgID :=
  fold_left (sweep_classify (FindB (aptcfg env) (PACKAGE +:+ "::Purge-Unused") false))
            l (on_depcache (ActionGroup_ctor E) c, ∅, ∅).

(** When the loop reaches [p], after the packages [l1], [p] is a pending
    unused removal that is not garbage, and [is_conflicted] answers
    [conflicted] for its current version. *)
Definition classified_at (c : aptitudeDepCache D) (l1 : list PkgID) (p : PkgID)
    (conflicted : bool) : Prop :=
  let c1 := (sweep_loop_upto l1 c).1.1 in
  unused_removal c1 p = true
  /\ (if conflicted
      then is_conflicted (CurrentVer p) (depcache c1) <> None
      else is_conflicted (CurrentVer p) (depcache c1) = None).


(** The conflict oracle in words: a Conflicts or Breaks clause of the
    version [v] is met by the version another package would have
    installed, directly or through a provision of the target; or such a
    clause of a version another package would have installed is met by
    [v], directly or through a package [v] provides.  Clauses between a
    package and itself do not count. *)
Definition oracle_conflict (v : VerID) (d : D) : Prop :=
  (exists dep iv,
      dep ∈ DependsList v /\ is_conflict dep = true
      /\ dep_TargetPkg dep <> ParentPkg v
      /\ install_version (dep_TargetPkg dep) d = Some iv
      /\ check (VerStr iv) dep = true)
  \/ (exists dep prv,
         dep ∈ DependsList v /\ is_conflict dep = true
         /\ prv ∈ ProvidesList (dep_TargetPkg dep)
         /\ prv_OwnerPkg prv <> ParentPkg v
         /\ install_version (prv_OwnerPkg prv) d = Some (prv_OwnerVer prv)
         /\ check (prv_ProvideVersion prv) dep = true)
  \/ (exists dep,
         dep ∈ RevDependsList (ParentPkg v) /\ is_conflict dep = true
         /\ dep_ParentPkg dep <> ParentPkg v
         /\ install_version (dep_ParentPkg dep) d = Some (dep_ParentVer dep)
         /\ check (VerStr v) dep = true)
  \/ (exists prv dep,
         prv ∈ VerProvidesList v /\ dep ∈ RevDependsList (prv_ParentPkg prv)
         /\ is_conflict dep = true
         /\ dep_ParentPkg dep <> ParentPkg v
         /\ install_version (dep_ParentPkg dep) d = Some (dep_ParentVer dep)
         /\ check (prv_ProvideVersion prv) dep = true).

(** A reinstatement candidate of [sweep] on [c]: when the first loop
    reaches [q], [q] is a pending unused removal that is not garbage.
    It is a conflicted candidate when the oracle has a conflict for its
    current version in the cache of that moment, a clean one otherwise. *)
Definition conflicted_candidate (c : aptitudeDepCache D) (q : PkgID) : Prop :=
  exists l1 l2 v,
    PkgList (cache env) = l1 ++ q :: l2
    /\ unused_removal (sweep_loop_upto l1 c).1.1 q = true
    /\ CurrentVer q = Some v
    /\ oracle_conflict v (depcache (sweep_loop_upto l1 c).1.1).

Definition clean_candidate (c : aptitudeDepCache D) (q : PkgID) : Prop :=
  exists l1 l2,
    PkgList (cache env) = l1 ++ q :: l2
    /\ unused_removal (sweep_loop_upto l1 c).1.1 q = true
    /\ forall v, CurrentVer q = Some v
                 -> ~ oracle_conflict v (depcache (sweep_loop_upto l1 c).1.1).

(** The invariant of a loop of [remove_reverse_current_versions] over the
    reverse dependencies [l1] seen so far, tested against [A]. *)
Definition rrcv_inv (R : gset PkgID) (v : VerID) (A : string) (l1 : list Dependency)
    (r : gset PkgID) : Prop :=
  r ⊆ R
  /\ (forall dep q, dep ∈ l1 -> q ∈ r -> q <> ParentPkg v -> ~ follows q A dep)
  /\ (forall e ev, e ∈ R -> e ∉ r -> CurrentVer e = Some ev ->
                   forall q, q ∈ r -> ~ rev_edge q ev)
  /\ (forall e, e ∈ R -> e ∉ r -> chain R e v).

(** *** What the further properties state *)

(** The package [p] differs from the snapshot in a field that yields an
    undo record; in a field that makes it visibly changed. *)
Definition changed_since (bak : apt_state_snapshot) (c : aptitudeDepCache D) (p : PkgID)
  : bool :=
  primary_change (state_of c p) (snap_PkgState bak p)
                 (package_states c p) (snap_AptitudeState bak p).

Definition touched_since (bak : apt_state_snapshot) (c : aptitudeDepCache D) (p : PkgID)
  : bool :=
  changed_since bak c p
  || cosmetic_change (state_of c p) (snap_PkgState bak p)
                     (package_states c p) (snap_AptitudeState bak p).

(** Two extended states that differ in [selection_state] and
    [remove_reason] at most. *)
Definition same_marks (e e' : aptitude_state) : Prop :=
  new_package e' = new_package e /\ reinstall e' = reinstall e
  /\ upgrade e' = upgrade e
  /\ original_selection_state e' = original_selection_state e
  /\ candver e' = candver e /\ forbidver e' = forbidver e
  /\ previously_auto_package e' = previously_auto_package e
  /\ user_tags e' = user_tags e.

(** Inside an engine action group the Garbage flags and the internal
    flags of a package are not touched by the marking of another
    package, and opening the group leaves them for every package: the
    engine recomputes Garbage in its mark-and-sweep, when the outermost
    group is left. *)
Definition Marks_frame_flags : Prop :=
  (forall d q,
      Garbage (PkgState E (ActionGroup_ctor E d) q) = Garbage (PkgState E d q)
      /\ iFlags (PkgState E (ActionGroup_ctor E d) q) = iFlags (PkgState E d q))
  /\ (forall p purge d q, q <> p ->
        Garbage (PkgState E (MarkDelete E p purge d) q) = Garbage (PkgState E d q)
        /\ iFlags (PkgState E (MarkDelete E p purge d) q) = iFlags (PkgState E d q))
  /\ (forall p soft fu d q, q <> p ->
        Garbage (PkgState E (MarkKeep E p soft fu d) q) = Garbage (PkgState E d q)
        /\ iFlags (PkgState E (MarkKeep E p soft fu d) q) = iFlags (PkgState E d q)).

(** What [sweep] reads of a package is the same in [c] and [c']. *)
Definition same_for (q : PkgID) (c c' : aptitudeDepCache D) : Prop :=
  Mode (state_of c' q) = Mode (state_of c q)
  /\ Garbage (state_of c' q) = Garbage (state_of c q)
  /\ iFlags (state_of c' q) = iFlags (state_of c q)
  /\ package_states c' q = package_states c q.

(** [pkg.CurrentVer() != 0 && pkg->CurrentState != ConfigFiles] *)
Definition has_installed_version (p : PkgID) : bool :=
  negb (bool_decide (CurrentVer p = None))
  && negb (bool_decide (CurrentState p = State.ConfigFiles)).

(** The selection state [sweep] writes for a garbage package that has no
    installed version. *)
Definition idle_selection (c : aptitudeDepCache D) (p : PkgID) : State.PkgSelectedState :=
  if bool_decide (CurrentVer p = None) then
    if tst (iFlags (state_of c p)) Purge then State.Purge else State.DeInstall
  else State.Install.

(** *** Held packages and upgrades *)

Definition is_held (c : aptitudeDepCache D) (pkg : PkgID) : bool :=
  let state := get_ext_state c pkg in
  let candver := CandidateVer (state_of c pkg) in
  negb (bool_decide (CurrentVer pkg = None))
  && (bool_decide (selection_state state = State.Hold)
      || match candver with
         | Some cv => bool_decide (VerStr cv = forbidver state)
         | None => false
         end).

(** [!is_held(p) && !GetCandidateVersion(p).end() &&
    (GetCandidateVersion(p) != p.CurrentVer())]: "allow downgrades when
    pinned high". *)
Definition do_upgrade (c : aptitudeDepCache D) (p : PkgID) : bool :=
  negb (is_held c p)
  && negb (bool_decide (GetCandidateVersion E (depcache c) p = None))
  && negb (bool_decide (GetCandidateVersion E (depcache c) p = CurrentVer p)).

(** The body of the loop of [get_upgradable]. *)
Definition get_upgradable_step (ignore_removed : bool)
    (acc : aptitudeDepCache D * gset PkgID) (p : PkgID)
    : aptitudeDepCache D * gset PkgID :=
  let '(c, upgradable) := acc in
  if bool_decide (CurrentVer p = None) then (c, upgradable)
  else if negb ignore_removed then
    (c, if do_upgrade c p then {[p]} ∪ upgradable else upgradable)
  else
    match selection_state (get_ext_state c p) with
    | State.Unknown =>
        (* This case shouldn't really happen; falls through *)
        let c := upd_ext_state p (with_selection_state State.Install) c in
        (c, if do_upgrade c p then {[p]} ∪ upgradable else upgradable)
    | State.Install =>
        (c, if do_upgrade c p then {[p]} ∪ upgradable else upgradable)
    | _ => (c, upgradable)
    end.

(** [upgradable] is empty when the callers of this file pass it. *)
Definition get_upgradable (ignore_removed : bool) (c : aptitudeDepCache D)
  : aptitudeDepCache D * gset PkgID :=
  fold_left (get_upgradable_step ignore_removed) (PkgList (cache env)) (c, ∅).

(** The hooks the engine asks before it installs or removes a package;
    [Depth] is 0 for a direct request. *)
Definition IsInstallOk (pkg : PkgID) (AutoInst : bool) (Depth : N) (FromUser : bool)
    (c : aptitudeDepCache D) : bool :=
  if (Depth =? 0)%N then true
  else
    match CandidateVer (state_of c pkg) with
    | None => true
    | Some candver =>
        let estate := get_ext_state c pkg in
        if bool_decide (selection_state estate = State.Hold)
           && negb (bool_decide (Some candver = CurrentVer pkg))
        then false
        else if bool_decide (forbidver estate = VerStr candver) then false
        else true
    end.

Definition IsDeleteOk (pkg : PkgID) (Purge : bool) (Depth : N) (FromUser : bool)
    (c : aptitudeDepCache D) : bool :=
  if (Depth =? 0)%N then true
  else if negb (FindB (aptcfg env) (PACKAGE +:+ "::Auto-Install-Remove-Ok") false)
  then false
  else if bool_decide (selection_state (get_ext_state c pkg) = State.Hold) then false
  else true.

(** *** New packages *)

Definition set_obj (c : aptitudeDepCache D) (s : counted_cache D) : counted_cache D :=
  {| obj := c; new_package_count := new_package_count s; reloads := reloads s |}.

Definition set_new_flag (pkg : PkgID) (is_new : bool) (s : counted_cache D)
  : counted_cache D :=
  if read_only_denied (obj s) then set_obj (refuse (obj s)) s
  else
    let estate := get_ext_state (obj s) pkg in
    if new_package estate && negb is_new then
      {| obj := upd_ext_state pkg (with_new_package is_new) (obj s);
         new_package_count := new_package_count s - 1; reloads := reloads s |}
    else if negb (new_package estate) && is_new then
      {| obj := upd_ext_state pkg (with_new_package is_new) (obj s);
         new_package_count := new_package_count s + 1; reloads := reloads s |}
    else s.

(** The body of the loop of [forget_new]; [undo] is the [forget_undoer]
    under construction, [None] when no undoer was asked for. *)
Definition forget_step (acc : counted_cache D * option (list PkgID)) (i : PkgID)
  : counted_cache D * option (list PkgID) :=
  let '(s, undo) := acc in
  if new_package (package_states (obj s) i) then
    let count :=
      if new_package (package_states (obj s) i) && (0 <? new_package_count s)%Z
      then (new_package_count s - 1)%Z else new_package_count s in
    let c := set_dirty true (obj s) in
    let c := upd_ext_state i (with_new_package false) c in
    ({| obj := c; new_package_count := count; reloads := reloads s |},
     match undo with
     | Some packages => Some (packages ++ [i])
     | None => None
     end)
  else (s, undo).

(** [forget_new(undoer, pkg_its)]; [undoer] tells whether the pointer is
    not null, and the second component of the result is what is stored
    through it: the packages of the [forget_undoer], or [None] when
    nothing is stored. *)
Definition forget_new (undoer : bool) (pkg_its : list PkgID) (s : counted_cache D)
  : counted_cache D * option (list PkgID) :=
  if read_only_denied (obj s) then (set_obj (refuse (obj s)) s, None)
  else
    let undo := if undoer then Some [] else None in
    let '(s, undo) := fold_left forget_step pkg_its (s, undo) in
    let stored :=
      match undo with
      | Some (i :: packages) => if undoer then Some (i :: packages) else None
      | _ => None
      end in
    ({| obj := duplicate_cache (obj s); new_package_count := new_package_count s;
        reloads := S (reloads s) |},
     stored).

(** [forget_new(undoer)]: all the packages of the cache. *)
Definition forget_new_all (undoer : bool) (s : counted_cache D)
  : counted_cache D * option (list PkgID) :=
  forget_new undoer (PkgList (cache env)) s.

(** [forget_undoer::undo] *)
Definition forget_undo (packages : list PkgID) (s : counted_cache D) : counted_cache D :=
  let s := fold_left (fun s i => set_new_flag i true s) packages s in
  {| obj := obj s; new_package_count := new_package_count s; reloads := S (reloads s) |}.

(** The number of listed packages that are flagged as new. *)
Definition count_new (c : aptitudeDepCache D) : nat :=
  length (filter (fun p => new_package (package_states c p) = true) (PkgList (cache env))).

(** *** apt.cc: the OR group around a dependency *)

(** [pkgCache::Dep::Or], the flag in [CompareOp] of a dependency that is
    followed by an alternative. *)
Definition Dep_Or : Z := 16.

(** The inner loop of [surrounding_or_internal]: [end] moves over the
    dependencies that carry the Or flag.  Positions in the dependency
    list of the parent version stand for the iterators; reading
    [end->CompareOp] past the list has no defined result, it is [None]
    here. *)
Fixpoint or_group_end (fuel : nat) (l : list Dependency) (dep : nat) (end_ : nat)
    (found : bool) : option (nat * bool) :=
  match fuel with
  | O => None
  | S fuel' =>
      match l !! end_ with
      | None => None
      | Some d =>
          if tst (dep_CompareOp d) Dep_Or
          then or_group_end fuel' l dep (S end_) (if (end_ =? dep)%nat then true else found)
          else Some (end_, found)
      end
  end.

(** The outer loop, and the [eassert(found)] after it, which throws. *)
Fixpoint or_group_search (fuel : nat) (l : list Dependency) (dep : nat)
    (start end_ : nat) (found : bool) : option (nat * nat) :=
  match fuel with
  | O => None
  | S fuel' =>
      if (end_ <? length l)%nat && negb found then
        let start := end_ in
        match or_group_end (S (length l)) l dep end_ found with
        | None => None
        | Some (end_, found) =>
            let found := if (end_ =? dep)%nat then true else found in
            or_group_search fuel' l dep start (S end_) found
        end
      else if found then Some (start, end_) else None
  end.

(** [surrounding_or_internal(dep, start, end)] for the dependency at
    position [dep] of the list [l] of its parent version: the positions
    of [start] and [end]. *)
Definition surrounding_or_internal (l : list Dependency) (dep : nat) : option (nat * nat) :=
  or_group_search (S (length l)) l dep 0 0 false.

(** The dependency at position [k] carries the Or flag. *)
Definition or_flag (l : list Dependency) (k : nat) : bool :=
  match l !! k with
  | Some d => tst (dep_CompareOp d) Dep_Or
  | None => false
  end.

(** The positions [s] (first) and [e] (one past the last) delimit the OR
    group of the list [l] that holds position [dep]: every member but
    the last carries the Or flag, and the group starts the list or
    follows a dependency without the flag. *)
Definition or_group (l : list Dependency) (dep s e : nat) : Prop :=
  s <= dep < e /\ e <= length l
  /\ (forall k, s <= k -> k < e - 1 -> or_flag l k = true)
  /\ or_flag l (e - 1) = false
  /\ (s = 0 \/ or_flag l (s - 1) = false).

(** *** apt.cc: subsumption of dependencies *)

(** [pkgCache::Dep::DepCompareOp] (pkgcache.h); the lower 4 bits of
    [CompareOp] are the operator. *)
Definition Dep_NoOp : Z := 0.
Definition Dep_LessEq : Z := 1.
Definition Dep_GreaterEq : Z := 2.
Definition Dep_Less : Z := 3.
Definition Dep_Greater : Z := 4.
Definition Dep_Equals : Z := 5.
Definition Dep_NotEquals : Z := 6.

(** [!d.TargetVer()]: the dependency names no version.  The record has
    the empty string where the cache has the null pointer. *)
Definition unversioned (d : Dependency) : bool :=
  bool_decide (dep_TargetVer d = ""%string).

(** [subsumes(d1, d2)], with the comparison [_system->VS->DoCmpVersion]
    as a parameter; [None] is [abort()]. *)
Definition subsumes (DoCmpVersion : string -> string -> Z) (d1 d2 : Dependency)
  : option bool :=
  let target1 := dep_TargetPkg d1 in
  let target2 := dep_TargetPkg d2 in
  if unversioned d1 then
    if bool_decide (target1 = target2) then Some true
    else if negb (unversioned d2) then Some false
    else Some (existsb (fun p => bool_decide (prv_OwnerPkg p = target2))
                       (ProvidesList target1))
  else
    if negb (bool_decide (target1 = target2)) then Some false
    else if unversioned d2 then Some false
    else
      let comp_mask := 15%Z in
      let t1 := Z.land (dep_CompareOp d1) comp_mask in
      let t2 := Z.land (dep_CompareOp d2) comp_mask in
      let cmpresult := DoCmpVersion (dep_TargetVer d1) (dep_TargetVer d2) in
      if (t1 =? Dep_LessEq)%Z then
        Some (((t2 =? Dep_Less)%Z || (t2 =? Dep_LessEq)%Z || (t2 =? Dep_Equals)%Z)
              && (0 <=? cmpresult)%Z)
      else if (t1 =? Dep_GreaterEq)%Z then
        Some (((t2 =? Dep_Greater)%Z || (t2 =? Dep_GreaterEq)%Z || (t2 =? Dep_Equals)%Z)
              && (cmpresult <=? 0)%Z)
      else if (t1 =? Dep_Less)%Z then
        Some (((t2 =? Dep_Less)%Z && (0 <=? cmpresult)%Z)
              || ((t2 =? Dep_Equals)%Z && (0 <? cmpresult)%Z))
      else if (t1 =? Dep_Greater)%Z then
        Some (((t2 =? Dep_Greater)%Z && (cmpresult <=? 0)%Z)
              || ((t2 =? Dep_Equals)%Z && (cmpresult <? 0)%Z))
      else if (t1 =? Dep_Equals)%Z then
        Some ((t2 =? Dep_Equals)%Z && (cmpresult =? 0)%Z)
      else if (t1 =? Dep_NotEquals)%Z then
        Some ((t2 =? Dep_NotEquals)%Z && (cmpresult =? 0)%Z)
      else None.

(** What the soundness of [subsumes] assumes of the version system: its
    comparison is a total preorder, and [CheckDep] decides by it: every
    version satisfies a dependency without a version, and a named
    version is compared under the operator in the lower 4 bits. *)
Definition version_order (cmp : string -> string -> Z) : Prop :=
  (forall a b, Z.sgn (cmp a b) = (- Z.sgn (cmp b a))%Z)
  /\ (forall a b c, (cmp a b <= 0)%Z -> (cmp b c <= 0)%Z -> (cmp a c <= 0)%Z).

Definition CheckDep_compares (cmp : string -> string -> Z) : Prop :=
  forall A op B, A <> ""%string ->
    CheckDep env A op B
    = if bool_decide (B = ""%string) then true
      else
        let Op := Z.land op 15 in
        let Res := cmp A B in
        if (Op =? Dep_LessEq)%Z then (Res <=? 0)%Z
        else if (Op =? Dep_GreaterEq)%Z then (0 <=? Res)%Z
        else if (Op =? Dep_Less)%Z then (Res <? 0)%Z
        else if (Op =? Dep_Greater)%Z then (0 <? Res)%Z
        else if (Op =? Dep_Equals)%Z then (Res =? 0)%Z
        else if (Op =? Dep_NotEquals)%Z then negb (Res =? 0)%Z
        else false.

(** *** What the candidate round trip assumes *)

(** The engine's [SetCandidateVersion] makes the version the candidate of
    its package, and neither [MarkAuto] nor the mark-and-sweep changes a
    candidate. *)
Definition SetCandidateVersion_sets : Prop :=
  forall v d, CandidateVer (PkgState E (SetCandidateVersion E v d) (ParentPkg v)) = Some v.

Definition Candidate_kept : Prop :=
  forall d q,
    CandidateVer (PkgState E (MarkAndSweep E d) q) = CandidateVer (PkgState E d q)
    /\ forall p b, CandidateVer (PkgState E (MarkAuto E p b d) q)
                   = CandidateVer (PkgState E d q).

(** The test of [set_candidate_version]: the version can be downloaded,
    or it is the installed version of a package that is not reduced to
    its configuration files. *)
Definition installable (v : VerID) : bool :=
  ver_Downloadable (Ver (cache env) v)
  || (bool_decide (Some v = CurrentVer (ParentPkg v))
      && negb (bool_decide (CurrentState (ParentPkg v) = State.ConfigFiles))).

(** Only [SetCandidateVersion] changes a candidate: the marking
    operations and the engine's action groups leave them. *)
Definition Candidate_stable : Prop :=
  forall d q,
    CandidateVer (PkgState E (ActionGroup_ctor E d) q) = CandidateVer (PkgState E d q)
    /\ CandidateVer (PkgState E (ActionGroup_dtor E d) q) = CandidateVer (PkgState E d q)
    /\ (forall p purge,
          CandidateVer (PkgState E (MarkDelete E p purge d) q) = CandidateVer (PkgState E d q))
    /\ (forall p soft fu,
          CandidateVer (PkgState E (MarkKeep E p soft fu d) q)
          = CandidateVer (PkgState E d q)).

(** *** build_selection_list: acting on the loaded states *)

(** "Don't make everything new": the first statement of the loop body. *)
Definition act_new (initial_open : bool) (s : counted_cache D) (i : PkgID)
  : counted_cache D :=
  let estate := get_ext_state (obj s) i in
  if initial_open then set_obj (upd_ext_state i (with_new_package false) (obj s)) s
  else if negb (bool_decide (VersionList i = [])) && new_package estate then
    {| obj := obj s; new_package_count := new_package_count s + 1; reloads := reloads s |}
  else s.

(** The [switch(estate.selection_state)] of the loop body;
    [Upgradable] is [StateCache::Upgradable()]. *)
Definition act_selection (do_initselections : bool) (Upgradable : StateCache -> bool)
    (c : aptitudeDepCache D) (i : PkgID) : aptitudeDepCache D :=
  let estate := get_ext_state c i in
  match selection_state estate with
  | State.Unknown =>
      if bool_decide (CurrentVer i = None)
      then upd_ext_state i (with_selection_state State.DeInstall) c
      else upd_ext_state i (with_selection_state State.Install) c
  | State.Install =>
      if negb do_initselections then c
      else if negb (bool_decide (candver estate = ""%string)) then
        let c :=
          fold_left (fun c ver =>
                       if bool_decide (VerStr ver = candver estate) && installable ver
                       then on_depcache (SetCandidateVersion E ver) c else c)
                    (VersionList i) c in
        on_depcache (MarkInstall E i false) c
      else if bool_decide (CurrentVer i = None) then on_depcache (MarkInstall E i false) c
      else
        let c := on_depcache (SetReInstall E i (reinstall estate)) c in
        if upgrade estate && Upgradable (state_of c i)
        then on_depcache (MarkInstall E i false) c else c
  | State.Hold =>
      if negb do_initselections then c else on_depcache (MarkKeep E i false true) c
  | State.DeInstall =>
      if negb do_initselections then c
      else if negb (bool_decide (CurrentVer i = None))
      then on_depcache (MarkDelete E i false) c else c
  | State.Purge =>
      if negb do_initselections then c
      else if negb (bool_decide (CurrentVer i = None))
      then on_depcache (MarkDelete E i true) c else c
  end.

Definition act_auto (c : aptitudeDepCache D) (i : PkgID) : aptitudeDepCache D :=
  if previously_auto_package (get_ext_state c i)
  then set_dirty true (on_depcache (MarkAuto E i true) c)
  else c.

(** The body of the loop "Act on them". *)
Definition act_step (initial_open do_initselections : bool)
    (Upgradable : StateCache -> bool) (s : counted_cache D) (i : PkgID)
  : counted_cache D :=
  let s := act_new initial_open s i in
  let c := act_selection do_initselections Upgradable (obj s) i in
  set_obj (act_auto c i) s.

(** [build_selection_list] from [new_package_count=0] to the refresh of
    the snapshot, after the states were read from the files. *)
Definition act_on_states (initial_open do_initselections : bool)
    (Upgradable : StateCache -> bool) (s : counted_cache D) : counted_cache D :=
  let s := {| obj := emit pre_package_state_changed (obj s);
              new_package_count := 0; reloads := reloads s |} in
  let s := fold_left (act_step initial_open do_initselections Upgradable)
                     (PkgList (cache env)) s in
  set_obj (duplicate_cache (obj s)) s.

(** The selection state the loop leaves for a package that had [sel]. *)
Definition initial_selection (i : PkgID) (sel : State.PkgSelectedState)
  : State.PkgSelectedState :=
  match sel with
  | State.Unknown => if bool_decide (CurrentVer i = None) then State.DeInstall
                     else State.Install
  | _ => sel
  end.

(** A package with versions that is flagged as new. *)
Definition counted_new (c : aptitudeDepCache D) (p : PkgID) : Prop :=
  VersionList p <> [] /\ new_package (package_states c p) = true.

(** *** Upgrading everything *)

(** One round of the loop of [mark_all_upgradable]: the upgradable
    packages are collected, then each is marked for installation. *)
Definition upgrade_pass (ignore_removed do_autoinstall : bool) (c : aptitudeDepCache D)
  : aptitudeDepCache D :=
  let '(c, to_upgrade) := get_upgradable ignore_removed c in
  fold_left (fun c it =>
               let c := emit pre_package_state_changed c in
               let c := set_dirty true c in
               internal_mark_install it do_autoinstall false c)
            (elements to_upgrade) c.

(** "Do this twice, only turning auto-install on the second time." *)
Definition mark_all_upgradable (with_autoinst ignore_removed : bool)
    (undo : option undo_group) (c : aptitudeDepCache D)
  : option (aptitudeDepCache D * option undo_group) :=
  if read_only_denied c then Some (refuse c, undo)
  else
    let c := emit pre_package_state_changed c in
    let c := action_group_ctor c in
    let c := upgrade_pass ignore_removed false c in
    let c := if with_autoinst then upgrade_pass ignore_removed true c else c in
    action_group_dtor undo c.

(** The marking for installation leaves the candidates as well. *)
Definition Candidate_unmarked : Prop :=
  forall d q,
    (forall p a, CandidateVer (PkgState E (MarkInstall E p a d) q)
                 = CandidateVer (PkgState E d q))
    /\ (forall p b, CandidateVer (PkgState E (SetReInstall E p b d) q)
                    = CandidateVer (PkgState E d q)).

(** What [is_held] reads of the package [p] is the same in [c'] as in
    [c], and the extended state differs in selection state and
    remove_reason at most. *)
Definition held_view (p : PkgID) (c c' : aptitudeDepCache D) : Prop :=
  CandidateVer (state_of c' p) = CandidateVer (state_of c p)
  /\ (selection_state (package_states c' p) = State.Hold
      <-> selection_state (package_states c p) = State.Hold)
  /\ same_marks (package_states c p) (package_states c' p).

(** ** Properties *)

(** *** Field updates *)

Lemma depcache_upd_ext_state p f (c : aptitudeDepCache D) :
  depcache (upd_ext_state p f c) = depcache c.
Proof. reflexivity. Qed.

Lemma state_of_upd_ext_state p f (c : aptitudeDepCache D) q :
  state_of (upd_ext_state p f c) q = state_of c q.
Proof. reflexivity. Qed.

Lemma package_states_upd_same p f (c : aptitudeDepCache D) :
  package_states (upd_ext_state p f c) p = f (package_states c p).
Proof. unfold upd_ext_state; simpl. rewrite decide_True; auto. Qed.

Lemma package_states_upd_other p f (c : aptitudeDepCache D) q :
  q <> p -> package_states (upd_ext_state p f c) q = package_states c q.
Proof. intros Hq. unfold upd_ext_state; simpl. rewrite decide_False; auto. Qed.

(** *** mark_keep *)


(** *** sweep with the policy off *)

(** C10. With [Aptitude::Delete-Unused] disabled [sweep] returns at once:
    the cache object, and with it every package's base state and extended
    state, is what it was; nothing is scheduled for removal and nothing
    is reinstated. *)
Theorem sweep_disabled_is_noop (c : aptitudeDepCache D) :
  FindB (aptcfg env) (PACKAGE +:+ "::Delete-Unused") true = false ->
  sweep c = Some c.
Proof.
  intros Hoff. unfold sweep. rewrite Hoff. reflexivity.
Qed.

(** *** Self-protection *)

(** C6. [mark_delete] of the installed package named "aptitude" is
    refused: the only effect is the message on the error channel; the
    engine state and the extended state of every package, the snapshot,
    the flags and the group level are untouched, and no undo item is
    added.  [internal_mark_delete] refuses in the same way. *)
Theorem mark_delete_refuses_self (P : PkgID) (purge unused_delete : bool)
    (undo : option undo_group) (c : aptitudeDepCache D) :
  is_installed env P = true ->
  Name P = "aptitude"%string ->
  let c' := Error "Cannot remove aptitude within aptitude"%string c in
  mark_delete P purge unused_delete undo c = Some (c', undo)
  /\ internal_mark_delete P purge unused_delete c = Some c'
  /\ depcache c' = depcache c
  /\ package_states c' = package_states c
  /\ errors c' = errors c ++ ["Cannot remove aptitude within aptitude"%string].
Proof.
  intros Hinst Hname c'.
  assert (Hself : is_self P = true).
  { unfold is_self. rewrite Hinst, Hname. reflexivity. }
  repeat split.
  - unfold mark_delete. rewrite Hself. reflexivity.
  - unfold internal_mark_delete. simpl. rewrite Hself. reflexivity.
Qed.

(** *** The read-only guard *)

(** C7, as the code has it.  When the store is read-only and the
    [read_only_permission] signal does not grant the write, a mutation
    operation changes nothing at any group level: engine state, extended
    states, snapshot, dirty flag and group level are what they were and
    no undo item is added.  [read_only_fail] is emitted exactly when
    [group_level] is 0; a nested call is turned down silently.  The one
    exception is [mark_delete] of the installed aptitude package, which
    self-protection turns down earlier, with an error message instead of
    the signal. *)
Theorem read_only_refuses (m : mutation) (undo : option undo_group)
    (c : aptitudeDepCache D) :
  read_only c = true ->
  read_only_permission env = false ->
  exists c',
    run m undo c = Some (c', undo)
    /\ depcache c' = depcache c
    /\ package_states c' = package_states c
    /\ backup_state c' = backup_state c
    /\ dirty c' = dirty c
    /\ group_level c' = group_level c
    /\ (if self_removal m
        then events c' = events c
             /\ errors c' = errors c ++ ["Cannot remove aptitude within aptitude"%string]
        else errors c' = errors c
             /\ events c' = events c ++ (if (group_level c =? 0)%Z
                                         then [read_only_fail] else [])).
Proof.
  intros Hro Hperm.
  assert (Hden : read_only_denied c = true).
  { unfold read_only_denied. rewrite Hro, Hperm. reflexivity. }
  assert (Hrefuse :
    depcache (refuse c) = depcache c /\ package_states (refuse c) = package_states c
    /\ backup_state (refuse c) = backup_state c /\ dirty (refuse c) = dirty c
    /\ group_level (refuse c) = group_level c
    /\ errors (refuse c) = errors c
    /\ events (refuse c) = events c ++ (if (group_level c =? 0)%Z
                                        then [read_only_fail] else [])).
  { unfold refuse. destruct (group_level c =? 0)%Z; simpl; rewrite ?app_nil_r; auto 10. }
  destruct m as [P a r | P purge u | P a h | ver | P v | P | P b]; simpl.
  - exists (refuse c). unfold mark_install. rewrite Hden. intuition.
  - unfold mark_delete. destruct (is_self P) eqn:Hself.
    + eexists. split; [reflexivity|]. simpl. auto 10.
    + exists (refuse c). rewrite Hden. intuition.
  - exists (refuse c). unfold mark_keep. rewrite Hden. intuition.
  - exists (refuse c). unfold set_candidate_version. rewrite Hden. intuition.
  - exists (refuse c). unfold forbid_upgrade. rewrite Hden. intuition.
  - exists (refuse c). unfold mark_single_install. rewrite Hden. intuition.
  - exists (refuse c). unfold mark_auto_installed. rewrite Hden. intuition.
Qed.

(** *** Loops *)

Lemma foldM_prefix {A S : Type} (f : A -> S -> option S) (I : list A -> S -> Prop)
    (l : list A) :
  (forall l1 a s, I l1 s -> a ∈ l -> exists s', f a s = Some s' /\ I (l1 ++ [a]) s') ->
  forall l0 s, I l0 s -> exists s', foldM f l s = Some s' /\ I (l0 ++ l) s'.
Proof.
  induction l as [|a l IH]; intros Hstep l0 s Hs.
  - exists s. rewrite app_nil_r. auto.
  - destruct (Hstep l0 a s Hs) as (s1 & Hf & Hs1); [left|].
    simpl. rewrite Hf.
    destruct (IH (fun l1 a s H Hin => Hstep l1 a s H (list_elem_of_further _ _ _ Hin))
                 (l0 ++ [a]) s1 Hs1) as (s' & Hfold & Hs').
    exists s'. split; [exact Hfold|]. rewrite <- app_assoc in Hs'. exact Hs'.
Qed.

Lemma foldM_inv {A S : Type} (f : A -> S -> option S) (I : S -> Prop) (l : list A) (s : S) :
  (forall a s, I s -> a ∈ l -> exists s', f a s = Some s' /\ I s') ->
  I s -> exists s', foldM f l s = Some s' /\ I s'.
Proof.
  intros Hstep Hs.
  apply (foldM_prefix f (fun _ => I) l (fun _ a s H Hin => Hstep a s H Hin) [] s Hs).
Qed.

Lemma fold_left_inv {A S : Type} (f : S -> A -> S) (I : list A -> S -> Prop) (l : list A) :
  (forall l1 a s, I l1 s -> a ∈ l -> I (l1 ++ [a]) (f s a)) ->
  forall l0 s, I l0 s -> I (l0 ++ l) (fold_left f l s).
Proof.
  induction l as [|a l IH]; intros Hstep l0 s Hs; simpl.
  - rewrite app_nil_r. exact Hs.
  - replace (l0 ++ a :: l) with ((l0 ++ [a]) ++ l) by (rewrite <- app_assoc; reflexivity).
    apply IH.
    + intros l1 b s1 H1 Hin. apply Hstep; [exact H1 | right; exact Hin].
    + apply Hstep; [exact Hs | left].
Qed.

(** *** remove_reverse_current_versions *)

Lemma chain_mono (R R' : gset PkgID) q v : R ⊆ R' -> chain R q v -> chain R' q v.
Proof.
  intros Hsub Hc. induction Hc.
  - apply chain_edge; [clear -Hsub H; set_solver | assumption].
  - eapply chain_step; eauto.
Qed.

Lemma chain_trans (R : gset PkgID) e q qv v :
  chain R e qv -> CurrentVer q = Some qv -> chain R q v -> chain R e v.
Proof.
  intros Hc. induction Hc as [q0 v0 Hin Hedge | q0 e0 ev0 v0 Hin Hcur Hedge Hc IH];
    intros Hq Hqv.
  - apply (chain_step R q0 q v0 v); auto.
  - apply (chain_step R q0 e0 ev0 v); auto.
Qed.

Lemma follow_revdep_step (fuel : nat) (R : gset PkgID) (v : VerID) (A : string)
    (l1 : list Dependency) (dep : Dependency) (r : gset PkgID) :
  (forall R0 v0, size R0 < fuel ->
     exists R', remove_reverse_current_versions fuel R0 v0 = Some R' /\ rrcv_post R0 v0 R') ->
  size R < S fuel ->
  (forall q, follows q A dep -> q <> ParentPkg v -> rev_edge q v) ->
  rrcv_inv R v A l1 r ->
  exists r', follow_revdep (remove_reverse_current_versions fuel) (ParentPkg v) A dep r
             = Some r'
             /\ rrcv_inv R v A (l1 ++ [dep]) r' /\ r' ⊆ r.
Proof.
  intros IH Hsize Hedge (Hsub & Hdone & Herased & Hchain).
  unfold follow_revdep.
  destruct (decide (dep_ParentPkg dep = ParentPkg v)) as [Hself|Hself].
  { exists r. split; [reflexivity|]. split; [|reflexivity]. repeat split; auto.
    intros dep' q Hin Hq Hne Hf. apply elem_of_app in Hin as [Hin|Hin].
    - eapply Hdone; eauto.
    - apply list_elem_of_singleton in Hin. subst dep'. destruct Hf as (Hp & _). congruence. }
  destruct (decide (dep_ParentPkg dep ∉ r)) as [Hout|Hnn].
  { exists r. split; [reflexivity|]. split; [|reflexivity]. repeat split; auto.
    intros dep' q Hin Hq Hne Hf. apply elem_of_app in Hin as [Hin|Hin].
    - eapply Hdone; eauto.
    - apply list_elem_of_singleton in Hin. subst dep'. destruct Hf as (Hp & _).
      subst q. contradiction. }
  assert (Hq0 : dep_ParentPkg dep ∈ r) by (destruct (decide (dep_ParentPkg dep ∈ r)); tauto).
  destruct (is_strong dep
            && bool_decide (Some (dep_ParentVer dep) = CurrentVer (dep_ParentPkg dep))
            && check A dep) eqn:Hcond.
  - apply andb_true_iff in Hcond as (Hcond & Hcheck).
    apply andb_true_iff in Hcond as (Hstrong & Hver).
    apply bool_decide_eq_true in Hver.
    assert (Hfol : follows (dep_ParentPkg dep) A dep) by (repeat split; auto).
    assert (Hsz : size (r ∖ {[dep_ParentPkg dep]}) < fuel).
    { assert (size r <= size R) by (apply subseteq_size; exact Hsub).
      assert (size (r ∖ {[dep_ParentPkg dep]}) = size r - 1).
      { rewrite size_difference by (clear -Hq0; set_solver).
        rewrite size_singleton. reflexivity. }
      assert (size r <> 0).
      { intros Hz. apply size_empty_inv in Hz. clear -Hz Hq0. set_solver. }
      lia. }
    destruct (IH _ (dep_ParentVer dep) Hsz) as (r' & Hrec & Hsub' & Hno & Her' & Hch').
    assert (Hr' : forall q, q ∈ r' -> q ∈ r /\ q <> dep_ParentPkg dep)
      by (clear -Hsub'; set_solver).
    assert (HrR : forall q, q ∈ r -> q ∈ R) by (clear -Hsub; set_solver).
    assert (Hdiff : forall q, q ∈ r -> q <> dep_ParentPkg dep -> q ∈ r ∖ {[dep_ParentPkg dep]})
      by (clear; set_solver).
    exists r'. split; [exact Hrec|]. split; [|clear -Hsub'; set_solver]. repeat split.
    + clear -Hsub' Hsub. set_solver.
    + intros dep' q Hin Hq Hne Hf. apply elem_of_app in Hin as [Hin|Hin].
      * apply (Hdone dep' q Hin); auto. apply Hr', Hq.
      * apply list_elem_of_singleton in Hin. subst dep'. destruct Hf as (Hp & _).
        subst q. apply Hr' in Hq. tauto.
    + intros e ev He Hne Hcur q Hq.
      destruct (decide (e ∈ r)) as [Her|Her].
      * destruct (decide (e = dep_ParentPkg dep)) as [->|Hne'].
        -- assert (ev = dep_ParentVer dep) by congruence. subst ev. apply Hno. exact Hq.
        -- apply (Her' e ev); auto.
      * apply (Herased e ev); auto. apply Hr', Hq.
    + intros e He Hne.
      destruct (decide (e ∈ r)) as [Her|Her].
      * destruct (decide (e = dep_ParentPkg dep)) as [->|Hne'].
        -- apply chain_edge; [exact He|]. apply Hedge; auto.
        -- assert (Hc : chain (r ∖ {[dep_ParentPkg dep]}) e (dep_ParentVer dep))
             by (apply Hch'; auto).
           eapply chain_trans.
           ++ eapply chain_mono; [|exact Hc]. clear -Hsub. set_solver.
           ++ symmetry. exact Hver.
           ++ apply chain_edge; [auto|]. apply Hedge; auto.
      * apply Hchain; auto.
  - exists r. split; [reflexivity|]. split; [|reflexivity]. repeat split; auto.
    intros dep' q Hin Hq Hne Hf. apply elem_of_app in Hin as [Hin|Hin].
    + eapply Hdone; eauto.
    + apply list_elem_of_singleton in Hin. subst dep'.
      destruct Hf as (Hp & Hs & Hv & Hc). subst q.
      rewrite Hs, Hc in Hcond. rewrite bool_decide_eq_true_2 in Hcond by exact Hv.
      discriminate.
Qed.

Lemma rrcv_inv_loop (fuel : nat) (R : gset PkgID) (v : VerID) (A : string)
    (l : list Dependency) (r : gset PkgID) :
  (forall R0 v0, size R0 < fuel ->
     exists R', remove_reverse_current_versions fuel R0 v0 = Some R' /\ rrcv_post R0 v0 R') ->
  size R < S fuel ->
  (forall dep q, dep ∈ l -> follows q A dep -> q <> ParentPkg v -> rev_edge q v) ->
  rrcv_inv R v A [] r ->
  exists r', foldM (follow_revdep (remove_reverse_current_versions fuel) (ParentPkg v) A) l r
             = Some r'
             /\ rrcv_inv R v A l r' /\ r' ⊆ r.
Proof.
  intros IH Hsize Hedge Hinv.
  destruct (foldM_prefix
              (follow_revdep (remove_reverse_current_versions fuel) (ParentPkg v) A)
              (fun l1 r' => rrcv_inv R v A l1 r' /\ r' ⊆ r) l) with (l0 := @nil Dependency) (s := r)
    as (r' & Hfold & Hinv' & Hsub').
  - intros l1 dep r1 (Hinv1 & Hsub1) Hin.
    destruct (follow_revdep_step fuel R v A l1 dep r1 IH Hsize) as (r2 & Hf & Hinv2 & Hsub2).
    + intros q Hfol Hne. apply (Hedge dep q); auto.
    + exact Hinv1.
    + exists r2. split; [exact Hf|]. split; [exact Hinv2|].
      clear -Hsub1 Hsub2. set_solver.
  - split; [exact Hinv | reflexivity].
  - exists r'. auto.
Qed.

Lemma rrcv_inv_nil (R : gset PkgID) (v : VerID) (A B : string) (l : list Dependency)
    (r : gset PkgID) :
  rrcv_inv R v A l r -> rrcv_inv R v B [] r.
Proof.
  intros (Hsub & _ & Herased & Hchain). repeat split; auto.
  intros dep q Hin. inversion Hin.
Qed.

(** With more fuel than [reinstated] has members, the function returns,
    and what it returns is described by [rrcv_post]. *)
Lemma remove_reverse_current_versions_spec (fuel : nat) :
  forall (R : gset PkgID) (v : VerID),
    size R < fuel ->
    exists R', remove_reverse_current_versions fuel R v = Some R' /\ rrcv_post R v R'.
Proof.
  induction fuel as [|fuel IH]; intros R v Hsize; [lia|].
  simpl.
  destruct (rrcv_inv_loop fuel R v (VerStr v) (RevDependsList (ParentPkg v)) R IH Hsize)
    as (r1 & Hf1 & Hinv1 & Hsub1).
  { intros dep q Hin Hfol Hne. split; [exact Hne|]. left. exists dep. auto. }
  { split; [reflexivity|]. split; [intros dep q Hin; inversion Hin|].
    split; intros; contradiction. }
  rewrite Hf1.
  set (J := fun (lp : list Provides) (r : gset PkgID) =>
              rrcv_inv R v (VerStr v) (RevDependsList (ParentPkg v)) r
              /\ (forall prv dep q, prv ∈ lp -> dep ∈ RevDependsList (prv_ParentPkg prv) ->
                                    q ∈ r -> q <> ParentPkg v ->
                                    ~ follows q (prv_ProvideVersion prv) dep)).
  destruct (foldM_prefix
              (fun prv reinstated =>
                 foldM (follow_revdep (remove_reverse_current_versions fuel) (ParentPkg v)
                          (prv_ProvideVersion prv))
                       (RevDependsList (prv_ParentPkg prv)) reinstated)
              J (VerProvidesList v)) with (l0 := @nil Provides) (s := r1)
    as (r2 & Hf2 & (Hinv2 & Hprv2)).
  - intros lp prv r (Hinvr & Hprvr) Hin.
    destruct (rrcv_inv_loop fuel R v (prv_ProvideVersion prv)
                (RevDependsList (prv_ParentPkg prv)) r IH Hsize)
      as (r' & Hf & Hinv' & Hsub').
    { intros dep q Hind Hfol Hne. split; [exact Hne|]. right. exists prv, dep. auto. }
    { eapply rrcv_inv_nil; exact Hinvr. }
    exists r'. split; [exact Hf|].
    assert (Hr' : forall q, q ∈ r' -> q ∈ r) by (clear -Hsub'; set_solver).
    destruct Hinvr as (Hsubr & Hdoner & Herr & Hchr).
    destruct Hinv' as (Hsubr' & Hdoner' & Herr' & Hchr').
    split.
    + split; [exact Hsubr'|].
      split; [intros dep q Hind Hq; apply Hdoner; auto|].
      split; [exact Herr' | exact Hchr'].
    + intros prv' dep q Hinp Hind Hq Hne.
      apply elem_of_app in Hinp as [Hinp|Hinp].
      * apply (Hprvr prv' dep q); auto.
      * apply list_elem_of_singleton in Hinp. subst prv'. apply (Hdoner' dep q); auto.
  - split; [exact Hinv1|]. intros prv dep q Hin. inversion Hin.
  - exists r2. split; [exact Hf2|].
    destruct Hinv2 as (Hsub2 & Hdone2 & Her2 & Hch2).
    repeat split; auto.
    intros q Hq (Hne & [(dep & Hin & Hfol) | (prv & dep & Hinp & Hind & Hfol)]).
    + apply (Hdone2 dep q); auto.
    + apply (Hprv2 prv dep q); auto.
Qed.

(** *** The blocking pass of sweep *)

Lemma chain_blocked (R0 bad r : gset PkgID) e p bv :
  r ⊆ R0 -> blocked R0 bad p -> CurrentVer p = Some bv ->
  chain r e bv -> blocked R0 bad e.
Proof.
  intros Hsub Hp Hcur Hc.
  induction Hc as [q v Hin Hedge | q e0 ev0 v Hin Hcur0 Hedge Hc IH].
  - apply (blocked_dep R0 bad q p v); auto.
  - apply (blocked_dep R0 bad q e0 ev0); auto.
Qed.

(** The blocking pass returns; it removes from [reinstated] the blocked
    packages and nothing else. *)
Lemma sweep_block_spec (R0 bad : gset PkgID) :
  exists Rf, sweep_block R0 bad = Some Rf
             /\ Rf ⊆ R0
             /\ (forall q, q ∈ R0 -> q ∉ Rf -> blocked R0 bad q)
             /\ (R0 ## bad -> forall q, blocked R0 bad q -> q ∉ Rf).
Proof.
  set (I := fun (lb : list PkgID) (r : gset PkgID) =>
              r ⊆ R0
              /\ (forall p pv, p ∈ lb -> CurrentVer p = Some pv ->
                               forall q, q ∈ r -> ~ rev_edge q pv)
              /\ (forall e ev, e ∈ R0 -> e ∉ r -> CurrentVer e = Some ev ->
                               forall q, q ∈ r -> ~ rev_edge q ev)
              /\ (forall e, e ∈ R0 -> e ∉ r -> blocked R0 bad e)).
  unfold sweep_block.
  destruct (foldM_prefix
              (fun it reinstated =>
                 match CurrentVer it with
                 | Some bad_ver =>
                     remove_reverse_current_versions (S (size reinstated)) reinstated bad_ver
                 | None => Some reinstated
                 end) I (elements bad)) with (l0 := @nil PkgID) (s := R0)
    as (Rf & Hfold & HI).
  - intros lb p r (Hsub & Hdone & Her & Hbl) Hin.
    apply elem_of_elements in Hin.
    destruct (CurrentVer p) as [bv|] eqn:Hcur.
    + destruct (remove_reverse_current_versions_spec (S (size r)) r bv)
        as (r' & Hrec & Hsub' & Hno & Her' & Hch'); [lia|].
      assert (Hr' : forall q, q ∈ r' -> q ∈ r) by (clear -Hsub'; set_solver).
      exists r'. split; [exact Hrec|].
      split; [clear -Hsub Hsub'; set_solver|].
      split; [|split].
      * intros p0 pv Hin0 Hcur0 q Hq.
        apply elem_of_app in Hin0 as [Hin0|Hin0].
        -- apply (Hdone p0 pv); auto.
        -- apply list_elem_of_singleton in Hin0. subst p0.
           assert (pv = bv) by congruence. subst pv. apply Hno. exact Hq.
      * intros e ev He Hne Hcure q Hq.
        destruct (decide (e ∈ r)) as [Hr|Hr].
        -- apply (Her' e ev); auto.
        -- apply (Her e ev); auto.
      * intros e He Hne.
        destruct (decide (e ∈ r)) as [Hr|Hr].
        -- apply (chain_blocked R0 bad r e p bv); auto.
           apply blocked_bad. exact Hin.
        -- apply Hbl; auto.
    + exists r. split; [reflexivity|].
      split; [exact Hsub|]. split; [|split; assumption].
      intros p0 pv Hin0 Hcur0 q Hq.
      apply elem_of_app in Hin0 as [Hin0|Hin0].
      * apply (Hdone p0 pv); auto.
      * apply list_elem_of_singleton in Hin0. subst p0. congruence.
  - split; [reflexivity|]. split; [intros p pv Hin; inversion Hin|].
    split; intros; contradiction.
  - destruct HI as (Hsub & Hdone & Her & Hbl).
    exists Rf. split; [exact Hfold|]. split; [exact Hsub|]. split; [exact Hbl|].
    intros Hdisj q Hq.
    induction Hq as [p Hp | q p pv Hq0 Hp IH Hcur Hedge].
    + intros Hin. assert (p ∈ R0) by (clear -Hsub Hin; set_solver).
      clear -Hdisj Hp H. set_solver.
    + intros Hin.
      assert (Hcase : p ∈ bad \/ p ∈ R0) by (inversion Hp; auto).
      destruct Hcase as [Hbad|HR0].
      * apply (Hdone p pv) with (q := q); auto. apply elem_of_elements. exact Hbad.
      * apply (Her p pv) with (q := q); auto.
Qed.

(** *** trace_not_orphaned and find_not_orphaned *)

Lemma grow_refl reinstated d NO : grow reinstated d NO NO.
Proof.
  split; [reflexivity|]. split; [clear; set_solver|]. intros r Hin Hout. contradiction.
Qed.

Lemma grow_trans reinstated d A B C :
  grow reinstated d A B -> grow reinstated d B C -> grow reinstated d A C.
Proof.
  intros (HAB & HBr & HclB) (HBC & HCr & HclC).
  split; [clear -HAB HBC; set_solver|].
  split; [clear -HBr HCr; set_solver|].
  intros r Hin Hout.
  destruct (decide (r ∈ B)) as [HB|HB].
  - intros c Hedge Hq. assert (c ∈ B) by (apply (HclB r); auto).
    clear -H HBC. set_solver.
  - apply HclC; auto.
Qed.

Lemma trace_dep_step (rec : PkgID -> gset PkgID -> option (gset PkgID))
    (reinstated : gset PkgID) (d : D) (base : gset PkgID) (dep : Dependency)
    (no : gset PkgID) :
  (forall p' no0, base ⊆ no0 ->
     exists no', rec p' no0 = Some no' /\ trace_post reinstated d p' no0 no') ->
  base ⊆ no ->
  exists no', trace_dep rec d dep no = Some no'
              /\ grow reinstated d no no'
              /\ (IsImportantDep E d dep = true ->
                  forall c, dep_reaches dep c -> qual reinstated c -> c ∈ no').
Proof.
  intros Hrec Hbase. unfold trace_dep.
  destruct (IsImportantDep E d dep) eqn:Himp; simpl.
  2: { exists no. split; [reflexivity|]. split; [apply grow_refl|]. discriminate. }
  (* the target itself *)
  assert (Hfirst : exists no1,
    (if negb (not_on_system (dep_TargetPkg dep)) then
       match CurrentVer (dep_TargetPkg dep) with
       | Some tv => if check (VerStr tv) dep then rec (dep_TargetPkg dep) no else Some no
       | None => Some no
       end
     else Some no) = Some no1
    /\ grow reinstated d no no1
    /\ (not_on_system (dep_TargetPkg dep) = false ->
        forall cv, CurrentVer (dep_TargetPkg dep) = Some cv ->
                   check (VerStr cv) dep = true ->
                   qual reinstated (dep_TargetPkg dep) -> dep_TargetPkg dep ∈ no1)).
  { destruct (not_on_system (dep_TargetPkg dep)) eqn:Hsys; simpl.
    { exists no. split; [reflexivity|]. split; [apply grow_refl|]. discriminate. }
    destruct (CurrentVer (dep_TargetPkg dep)) as [tv|] eqn:Hcur.
    2: { exists no. split; [reflexivity|]. split; [apply grow_refl|]. discriminate. }
    destruct (check (VerStr tv) dep) eqn:Hchk.
    - destruct (Hrec (dep_TargetPkg dep) no Hbase) as (no1 & Hr & Hg & Hq).
      exists no1. split; [exact Hr|]. split; [exact Hg|]. intros _ cv _ _ Hqual. auto.
    - exists no. split; [reflexivity|]. split; [apply grow_refl|].
      intros _ cv Hcv Hc. assert (cv = tv) by congruence. subst cv. congruence. }
  destruct Hfirst as (no1 & Hf1 & Hg1 & Hdone1). rewrite Hf1.
  (* the providers of the target *)
  destruct (foldM_prefix
              (fun prv not_orphaned =>
                 if check (prv_ProvideVersion prv) dep
                 then rec (prv_OwnerPkg prv) not_orphaned else Some not_orphaned)
              (fun lp no' =>
                 grow reinstated d no1 no'
                 /\ (forall prv, prv ∈ lp -> check (prv_ProvideVersion prv) dep = true ->
                                 qual reinstated (prv_OwnerPkg prv) -> prv_OwnerPkg prv ∈ no'))
              (ProvidesList (dep_TargetPkg dep))) with (l0 := @nil Provides) (s := no1)
    as (no2 & Hf2 & Hg2 & Hdone2).
  - intros lp prv no' (Hg & Hdone) Hin.
    assert (Hb' : base ⊆ no').
    { destruct Hg1 as (H1 & _). destruct Hg as (H2 & _). clear -Hbase H1 H2. set_solver. }
    destruct (check (prv_ProvideVersion prv) dep) eqn:Hchk.
    + destruct (Hrec (prv_OwnerPkg prv) no' Hb') as (no'' & Hr & Hg' & Hq).
      exists no''. split; [exact Hr|]. split; [eapply grow_trans; eauto|].
      intros prv' Hin' Hc' Hq'. apply elem_of_app in Hin' as [Hin'|Hin'].
      * assert (prv_OwnerPkg prv' ∈ no') by (apply Hdone; auto).
        destruct Hg' as (Hsub & _). clear -H Hsub. set_solver.
      * apply list_elem_of_singleton in Hin'. subst prv'. auto.
    + exists no'. split; [reflexivity|]. split; [exact Hg|].
      intros prv' Hin' Hc' Hq'. apply elem_of_app in Hin' as [Hin'|Hin'].
      * apply Hdone; auto.
      * apply list_elem_of_singleton in Hin'. subst prv'. congruence.
  - split; [apply grow_refl|]. intros prv Hin. inversion Hin.
  - exists no2. split; [exact Hf2|]. split; [eapply grow_trans; eauto|].
    intros _ c [(Hc & Hsys & cv & Hcur & Hchk) | (prv & Hin & Hown & Hchk)] Hq.
    + subst c. assert (dep_TargetPkg dep ∈ no1) by (eapply Hdone1; eauto).
      destruct Hg2 as (Hsub & _). clear -H Hsub. set_solver.
    + subst c. apply (Hdone2 prv); auto.
Qed.

(** With more fuel than [reinstated] has members outside [not_orphaned],
    [trace_not_orphaned] returns, and [trace_post] describes the result. *)
Lemma trace_not_orphaned_spec (reinstated : gset PkgID) (d : D) (fuel : nat) :
  forall (p : PkgID) (NO : gset PkgID),
    size (reinstated ∖ NO) < fuel ->
    exists NO', trace_not_orphaned fuel p reinstated d NO = Some NO'
                /\ trace_post reinstated d p NO NO'.
Proof.
  induction fuel as [|fuel IH]; intros p NO Hsize; [lia|].
  simpl.
  destruct (decide (p ∈ NO)) as [Hin|Hout].
  { exists NO. split; [reflexivity|]. split; [apply grow_refl | auto]. }
  destruct (not_currently_installed p) eqn:Hsane.
  { exists NO. split; [reflexivity|]. split; [apply grow_refl|].
    intros (Hq & _). congruence. }
  destruct (decide (p ∉ reinstated)) as [Hnr|Hr].
  { exists NO. split; [reflexivity|]. split; [apply grow_refl|].
    intros (_ & Hq). contradiction. }
  assert (Hpr : p ∈ reinstated) by (destruct (decide (p ∈ reinstated)); tauto).
  destruct (CurrentVer p) as [cur|] eqn:Hcur.
  2: { unfold not_currently_installed in Hsane. rewrite Hcur in Hsane.
       rewrite bool_decide_eq_true_2 in Hsane by reflexivity.
       rewrite orb_true_r in Hsane. discriminate. }
  set (NO1 := {[p]} ∪ NO).
  assert (Hrec : forall p' no0, NO1 ⊆ no0 ->
            exists no', trace_not_orphaned fuel p' reinstated d no0 = Some no'
                        /\ trace_post reinstated d p' no0 no').
  { intros p' no0 Hb. apply IH.
    assert (Hlt : size (reinstated ∖ no0) < size (reinstated ∖ NO)).
    { apply subset_size. unfold NO1 in Hb. clear -Hb Hpr Hout. set_solver. }
    lia. }
  destruct (foldM_prefix
              (trace_dep (fun p0 => trace_not_orphaned fuel p0 reinstated d) d)
              (fun l1 no =>
                 grow reinstated d NO1 no
                 /\ (forall dep, dep ∈ l1 -> IsImportantDep E d dep = true ->
                       forall c, dep_reaches dep c -> qual reinstated c -> c ∈ no))
              (DependsList cur)) with (l0 := @nil Dependency) (s := NO1)
    as (NO' & Hfold & Hg & Hdone).
  - intros l1 dep no (Hg & Hdone) Hin.
    assert (Hb : NO1 ⊆ no) by (destruct Hg; auto).
    destruct (trace_dep_step (fun p0 => trace_not_orphaned fuel p0 reinstated d)
                reinstated d NO1 dep no Hrec Hb) as (no' & Hstep & Hg' & Hd').
    exists no'. split; [exact Hstep|]. split; [eapply grow_trans; eauto|].
    intros dep' Hin' Himp c Hreach Hq. apply elem_of_app in Hin' as [Hin'|Hin'].
    + assert (c ∈ no) by (eapply Hdone; eauto).
      destruct Hg' as (Hsub & _). clear -H Hsub. set_solver.
    + apply list_elem_of_singleton in Hin'. subst dep'. auto.
  - split; [apply grow_refl|]. intros dep Hin. inversion Hin.
  - exists NO'. split; [exact Hfold|].
    destruct Hg as (Hsub & Hsup & Hcl).
    assert (HpNO' : p ∈ NO') by (unfold NO1 in Hsub; clear -Hsub; set_solver).
    split; [|auto].
    split; [unfold NO1 in Hsub; clear -Hsub; set_solver|].
    split; [unfold NO1 in Hsup; clear -Hsup Hpr; set_solver|].
    intros r Hr' Hnot.
    destruct (decide (r = p)) as [->|Hne].
    + intros c (rv & dep & Hcv & Hin & Himp & Hreach) Hq.
      assert (rv = cur) by congruence. subst rv. eapply Hdone; eauto.
    + apply Hcl; auto. unfold NO1. clear -Hnot Hne. set_solver.
Qed.

Lemma visit_revdep_step (C : PkgID) (reinstated : gset PkgID) (d : D) (A : string)
    (dep : Dependency) (no : gset PkgID) :
  exists no', visit_revdep (S (size reinstated)) C reinstated d A dep no = Some no'
              /\ grow reinstated d no no'
              /\ (needs d C A dep -> qual reinstated C -> C ∈ no').
Proof.
  unfold visit_revdep.
  destruct (bool_decide (dep_ParentPkg dep <> C)) eqn:Hne; simpl.
  2: { exists no. split; [reflexivity|]. split; [apply grow_refl|].
       intros (Hn & _). apply bool_decide_eq_false in Hne. contradiction. }
  destruct (is_strong dep) eqn:Hs; simpl.
  2: { exists no. split; [reflexivity|]. split; [apply grow_refl|].
       intros (_ & Hn & _). congruence. }
  destruct (installed_or_to_be d (dep_ParentPkg dep)) eqn:Hi; simpl.
  2: { exists no. split; [reflexivity|]. split; [apply grow_refl|].
       intros (_ & _ & Hn & _). congruence. }
  destruct (check A dep) eqn:Hc.
  2: { exists no. split; [reflexivity|]. split; [apply grow_refl|].
       intros (_ & _ & _ & Hn). congruence. }
  destruct (trace_not_orphaned_spec reinstated d (S (size reinstated)) C no)
    as (no' & Ht & Hg & Hq).
  { assert (size (reinstated ∖ no) <= size reinstated)
      by (apply subseteq_size; clear; set_solver).
    lia. }
  exists no'. split; [exact Ht|]. split; [exact Hg|]. auto.
Qed.

Lemma visit_revdep_loop (C : PkgID) (reinstated : gset PkgID) (d : D) (A : string)
    (l : list Dependency) (no : gset PkgID) :
  exists no', foldM (visit_revdep (S (size reinstated)) C reinstated d A) l no = Some no'
              /\ grow reinstated d no no'
              /\ (forall dep, dep ∈ l -> needs d C A dep -> qual reinstated C -> C ∈ no').
Proof.
  destruct (foldM_prefix
              (visit_revdep (S (size reinstated)) C reinstated d A)
              (fun l1 no' =>
                 grow reinstated d no no'
                 /\ (forall dep, dep ∈ l1 -> needs d C A dep -> qual reinstated C -> C ∈ no'))
              l) with (l0 := @nil Dependency) (s := no) as (no' & Hf & Hg & Hd).
  - intros l1 dep no1 (Hg & Hd) Hin.
    destruct (visit_revdep_step C reinstated d A dep no1) as (no2 & Hv & Hg2 & Hd2).
    exists no2. split; [exact Hv|]. split; [eapply grow_trans; eauto|].
    intros dep' Hin' Hn Hq. apply elem_of_app in Hin' as [Hin'|Hin'].
    + assert (C ∈ no1) by (eapply Hd; eauto).
      destruct Hg2 as (Hsub & _). clear -H Hsub. set_solver.
    + apply list_elem_of_singleton in Hin'. subst dep'. auto.
  - split; [apply grow_refl|]. intros dep Hin. inversion Hin.
  - exists no'. auto.
Qed.

Lemma find_not_orphaned_spec (C : PkgID) (reinstated : gset PkgID) (d : D)
    (NO : gset PkgID) :
  exists NO', find_not_orphaned (S (size reinstated)) C reinstated d NO = Some NO'
              /\ grow reinstated d NO NO'
              /\ (root_needed d C -> qual reinstated C -> C ∈ NO').
Proof.
  unfold find_not_orphaned.
  destruct (not_currently_installed C) eqn:Hsane.
  { exists NO. split; [reflexivity|]. split; [apply grow_refl|].
    intros _ (Hq & _). congruence. }
  destruct (CurrentVer C) as [cv|] eqn:Hcur.
  2: { exists NO. split; [reflexivity|]. split; [apply grow_refl|].
       intros (cv & Hcv & _). congruence. }
  destruct (visit_revdep_loop C reinstated d (VerStr cv) (RevDependsList C) NO)
    as (no1 & Hf1 & Hg1 & Hd1).
  rewrite Hf1.
  destruct (foldM_prefix
              (fun prv not_orphaned =>
                 foldM (visit_revdep (S (size reinstated)) C reinstated d
                          (prv_ProvideVersion prv))
                       (RevDependsList (prv_ParentPkg prv)) not_orphaned)
              (fun lp no' =>
                 grow reinstated d no1 no'
                 /\ (forall prv dep, prv ∈ lp -> dep ∈ RevDependsList (prv_ParentPkg prv) ->
                       needs d C (prv_ProvideVersion prv) dep -> qual reinstated C ->
                       C ∈ no'))
              (VerProvidesList cv)) with (l0 := @nil Provides) (s := no1)
    as (no2 & Hf2 & Hg2 & Hd2).
  - intros lp prv no (Hg & Hd) Hin.
    destruct (visit_revdep_loop C reinstated d (prv_ProvideVersion prv)
                (RevDependsList (prv_ParentPkg prv)) no) as (no' & Hf & Hg' & Hd').
    exists no'. split; [exact Hf|]. split; [eapply grow_trans; eauto|].
    intros prv' dep Hin' Hind Hn Hq. apply elem_of_app in Hin' as [Hin'|Hin'].
    + assert (C ∈ no) by (eapply Hd; eauto).
      destruct Hg' as (Hsub & _). clear -H Hsub. set_solver.
    + apply list_elem_of_singleton in Hin'. subst prv'. eapply Hd'; eauto.
  - split; [apply grow_refl|]. intros prv dep Hin. inversion Hin.
  - exists no2. split; [exact Hf2|]. split; [eapply grow_trans; eauto|].
    intros (cv' & Hcv' & Hneed) Hq.
    assert (cv' = cv) by congruence. subst cv'.
    destruct Hneed as [(dep & Hin & Hn) | (prv & dep & Hinp & Hind & Hn)].
    + assert (C ∈ no1) by (eapply Hd1; eauto).
      destruct Hg2 as (Hsub & _). clear -H Hsub. set_solver.
    + eapply Hd2; eauto.
Qed.

(** The third pass of [sweep] returns the retained packages. *)
Lemma sweep_not_orphaned_spec (reinstated : gset PkgID) (d : D) :
  exists NO, sweep_not_orphaned reinstated d = Some NO
             /\ NO ⊆ reinstated
             /\ (forall C, retained reinstated d C -> C ∈ NO).
Proof.
  unfold sweep_not_orphaned.
  destruct (foldM_prefix
              (fun it not_orphaned =>
                 find_not_orphaned (S (size reinstated)) it reinstated d not_orphaned)
              (fun l1 no =>
                 grow reinstated d ∅ no
                 /\ (forall C, C ∈ l1 -> root_needed d C -> qual reinstated C -> C ∈ no))
              (elements reinstated)) with (l0 := @nil PkgID) (s := (∅ : gset PkgID))
    as (NO & Hf & Hg & Hd).
  - intros l1 C no (Hg & Hd) Hin.
    destruct (find_not_orphaned_spec C reinstated d no) as (no' & Hfn & Hg' & Hd').
    exists no'. split; [exact Hfn|]. split; [eapply grow_trans; eauto|].
    intros C' Hin' Hn Hq. apply elem_of_app in Hin' as [Hin'|Hin'].
    + assert (C' ∈ no) by (eapply Hd; eauto).
      destruct Hg' as (Hsub & _). clear -H Hsub. set_solver.
    + apply list_elem_of_singleton in Hin'. subst C'. auto.
  - split; [apply grow_refl|]. intros C Hin. inversion Hin.
  - exists NO. split; [exact Hf|].
    destruct Hg as (_ & Hsup & Hcl).
    split; [clear -Hsup; set_solver|].
    intros C HC. induction HC as [C Hq Hroot | r C Hr IH Hedge Hq].
    + apply Hd; auto. apply elem_of_elements. destruct Hq; auto.
    + apply (Hcl r); auto. clear. set_solver.
Qed.

(** *** The first loop of sweep *)

Lemma fold_left_split_inv {A S : Type} (f : S -> A -> S) (I : list A -> S -> Prop)
    (l : list A) :
  (forall l1 a l2 s, l = l1 ++ a :: l2 -> I l1 s -> I (l1 ++ [a]) (f s a)) ->
  forall s, I [] s -> I l (fold_left f l s).
Proof.
  intros Hstep.
  assert (H : forall l' l0 s, l = l0 ++ l' -> I l0 s -> I l (fold_left f l' s)).
  { induction l' as [|a l' IH]; intros l0 s Heq Hs; simpl.
    - rewrite app_nil_r in Heq. subst l0. exact Hs.
    - apply (IH (l0 ++ [a])).
      + rewrite <- app_assoc. exact Heq.
      + apply (Hstep l0 a l'); auto. }
  intros s Hs. apply (H l [] s); auto.
Qed.

Lemma sweep_classify_cases (purge_unused : bool) (c : aptitudeDepCache D)
    (R B : gset PkgID) (pkg : PkgID) :
  MarkKeep_frame -> MarkDelete_frame ->
  (unused_removal c pkg = true
   /\ is_conflicted (CurrentVer pkg) (depcache c) = None
   /\ sweep_classify purge_unused (c, R, B) pkg = (c, {[pkg]} ∪ R, B))
  \/ (unused_removal c pkg = true
      /\ is_conflicted (CurrentVer pkg) (depcache c) <> None
      /\ sweep_classify purge_unused (c, R, B) pkg = (c, R, {[pkg]} ∪ B))
  \/ (unused_removal c pkg = false
      /\ exists c', sweep_classify purge_unused (c, R, B) pkg = (c', R, B)
                    /\ forall q, q <> pkg ->
                         Mode (state_of c' q) = Mode (state_of c q)
                         /\ package_states c' q = package_states c q).
Proof.
  intros HK HD. unfold unused_removal, sweep_classify.
  destruct (Garbage (state_of c pkg)) eqn:Hg; simpl.
  - right. right. split; [reflexivity|].
    destruct (negb (bool_decide (CurrentVer pkg = None))
              && negb (bool_decide (CurrentState pkg = State.ConfigFiles))).
    + destruct (negb (Delete (state_of c pkg))).
      * eexists. split; [reflexivity|]. intros q Hq. split.
        -- unfold state_of; simpl. apply HD. exact Hq.
        -- simpl. rewrite !decide_False by exact Hq. reflexivity.
      * eexists. split; [reflexivity|]. auto.
    + eexists. split; [reflexivity|]. intros q Hq. split.
      * unfold state_of; simpl. rewrite HK by exact Hq.
        destruct (bool_decide (CurrentVer pkg = None)); [|reflexivity].
        destruct (tst (iFlags (PkgState E (depcache c) pkg)) Purge); reflexivity.
      * destruct (bool_decide (CurrentVer pkg = None)); simpl.
        -- destruct (tst (iFlags (state_of c pkg)) Purge); simpl;
             rewrite decide_False by exact Hq; reflexivity.
        -- rewrite decide_False by exact Hq. reflexivity.
  - destruct (Delete (state_of c pkg)
              && bool_decide (remove_reason (package_states c pkg) = unused)) eqn:Hc.
    + destruct (is_conflicted (CurrentVer pkg) (depcache c)) as [conflict|] eqn:Hconf.
      * right. left. repeat split; auto.
      * left. repeat split; auto.
    + right. right. split; [reflexivity|]. eexists. split; [reflexivity|]. auto.
Qed.

(** After the first loop the two sets are disjoint, and their members
    are still scheduled for removal as unused. *)
Lemma sweep_first_loop_spec (c : aptitudeDepCache D) :
  NoDup (PkgList (cache env)) -> MarkKeep_frame -> MarkDelete_frame ->
  let '(c1, R0, bad) := sweep_first_loop c in
  R0 ## bad
  /\ forall q, q ∈ R0 ∪ bad ->
       Mode (state_of c1 q) = ModeDelete
       /\ remove_reason (package_states c1 q) = unused.
Proof.
  intros Hnd HK HD. unfold sweep_first_loop.
  set (pu := FindB (aptcfg env) (PACKAGE +:+ "::Purge-Unused") false).
  set (I := fun (l1 : list PkgID) (s : aptitudeDepCache D * gset PkgID * gset PkgID) =>
              let '(c1, R, B) := s in
              (forall q, q ∈ R ∪ B -> q ∈ l1)
              /\ R ## B
              /\ forall q, q ∈ R ∪ B ->
                   Mode (state_of c1 q) = ModeDelete
                   /\ remove_reason (package_states c1 q) = unused).
  assert (HI : I (PkgList (cache env))
                 (fold_left (sweep_classify pu) (PkgList (cache env))
                            (on_depcache (ActionGroup_ctor E) c, ∅, ∅))).
  { apply fold_left_split_inv.
    - intros l1 a l2 [[c1 R] B] Heq (Hin & Hdisj & Hmode).
      assert (Ha : a ∉ l1).
      { rewrite Heq in Hnd. apply NoDup_app in Hnd as (_ & Hnd & _).
        intros Hal. apply (Hnd a Hal). left. }
      assert (HaRB : a ∉ R ∪ B) by (intros HaRB; apply Ha, Hin, HaRB).
      assert (Hdel : unused_removal c1 a = true ->
                Mode (state_of c1 a) = ModeDelete
                /\ remove_reason (package_states c1 a) = unused).
      { unfold unused_removal. intros H.
        apply andb_true_iff in H as (H & Hr). apply andb_true_iff in H as (_ & Hd).
        apply bool_decide_eq_true in Hr. apply bool_decide_eq_true in Hd. auto. }
      destruct (sweep_classify_cases pu c1 R B a HK HD)
        as [(Hu & _ & ->) | [(Hu & _ & ->) | (_ & c' & -> & Hframe)]]; simpl.
      + split; [|split].
        * intros q Hq. apply elem_of_app.
          destruct (decide (q = a)) as [->|Hne]; [right; left|left].
          apply Hin. clear -Hq Hne. set_solver.
        * clear -Hdisj HaRB. set_solver.
        * intros q Hq. destruct (decide (q = a)) as [->|Hne]; [auto|].
          apply Hmode. clear -Hq Hne. set_solver.
      + split; [|split].
        * intros q Hq. apply elem_of_app.
          destruct (decide (q = a)) as [->|Hne]; [right; left|left].
          apply Hin. clear -Hq Hne. set_solver.
        * clear -Hdisj HaRB. set_solver.
        * intros q Hq. destruct (decide (q = a)) as [->|Hne]; [auto|].
          apply Hmode. clear -Hq Hne. set_solver.
      + split; [|split].
        * intros q Hq. apply elem_of_app. left. auto.
        * exact Hdisj.
        * intros q Hq. assert (Hne : q <> a) by (intros ->; contradiction).
          destruct (Hframe q Hne) as (-> & ->). auto.
    - simpl. split; [|split].
      + intros q Hq. clear -Hq. set_solver.
      + clear. set_solver.
      + intros q Hq. clear -Hq. set_solver. }
  destruct (fold_left (sweep_classify pu) (PkgList (cache env))
              (on_depcache (ActionGroup_ctor E) c, ∅, ∅)) as [[c1 R0] bad].
  destruct HI as (_ & Hdisj & Hmode). auto.
Qed.

(** *** The last loop of sweep *)

Lemma reinstate_loop (l : list PkgID) (c1 : aptitudeDepCache D) :
  let c2 := fold_left (fun c pkg => on_depcache (MarkKeep E pkg false false) c) l c1 in
  package_states c2 = package_states c1
  /\ events c2 = events c1
  /\ (MarkKeep_frame ->
      forall q, q ∉ l -> Mode (state_of c2 q) = Mode (state_of c1 q))
  /\ (MarkKeep_frame -> MarkKeep_honoured ->
      forall q, q ∈ l -> Mode (state_of c2 q) = ModeKeep).
Proof.
  revert c1. induction l as [|p l IH]; intros c1; simpl.
  - repeat split; auto. intros _ _ q Hq. inversion Hq.
  - destruct (IH (on_depcache (MarkKeep E p false false) c1)) as (Hps & Hev & Hout & Hin).
    split; [exact Hps|]. split; [exact Hev|]. split.
    + intros HF q Hq. rewrite Hout; auto.
      * unfold state_of; simpl. apply HF. intros ->. apply Hq. left.
      * intros Hql. apply Hq. right. exact Hql.
    + intros HF HK q Hq.
      destruct (decide (q ∈ l)) as [Hql|Hql]; [apply Hin; auto|].
      rewrite Hout by auto.
      apply elem_of_cons in Hq as [->|Hq]; [|contradiction].
      unfold state_of; simpl. apply HK.
Qed.

(** [sweep] returns: its helpers never run out of fuel. *)
Lemma sweep_total (c : aptitudeDepCache D) : exists c', sweep c = Some c'.
Proof.
  unfold sweep.
  destruct (negb (FindB (aptcfg env) (PACKAGE +:+ "::Delete-Unused") true)); [eauto|].
  destruct (sweep_first_loop c) as [[c1 R0] bad].
  destruct (sweep_block_spec R0 bad) as (Rf & -> & _).
  destruct (sweep_not_orphaned_spec Rf (depcache c1)) as (NO & -> & _).
  eauto.
Qed.

(** *** The conflict oracle *)

Lemma find_is_Some {A : Type} (f : A -> bool) (l : list A) :
  find f l <> None <-> exists x, x ∈ l /\ f x = true.
Proof.
  split.
  - destruct (find f l) as [x|] eqn:Hf; [|congruence]. intros _.
    apply find_some in Hf as (Hin & Hx). exists x. split; [|exact Hx].
    apply list_elem_of_In. exact Hin.
  - intros (x & Hin & Hx) Hnone. apply list_elem_of_In in Hin.
    pose proof (find_none f l Hnone x Hin). congruence.
Qed.

Lemma first_some_is_Some {A B : Type} (f : A -> option B) (l : list A) :
  first_some f l <> None <-> exists x, x ∈ l /\ f x <> None.
Proof.
  induction l as [|a l IH]; simpl.
  - split; [congruence|]. intros (x & Hin & _). inversion Hin.
  - destruct (f a) as [b|] eqn:Hfa.
    + split; [|congruence]. intros _. exists a. split; [left|congruence].
    + rewrite IH. split.
      * intros (x & Hin & Hx). exists x. split; [right; exact Hin | exact Hx].
      * intros (x & Hin & Hx). apply elem_of_cons in Hin as [-> | Hin];
          [congruence|]. exists x. auto.
Qed.

(** [is_conflicted] finds a dependency exactly when the oracle, as
    worded, has a conflict; it finds none for an [end()] version. *)
Lemma is_conflicted_iff (v : VerID) (d : D) :
  is_conflicted (Some v) d <> None <-> oracle_conflict v d.
Proof.
  pose (forward := fun dep : Dependency =>
                    is_conflict dep
                    && ((bool_decide (dep_TargetPkg dep <> ParentPkg v)
                         && match install_version (dep_TargetPkg dep) d with
                            | Some iv => check (VerStr iv) dep
                            | None => false
                            end)
                        || existsb (fun prv =>
                                      bool_decide (prv_OwnerPkg prv <> ParentPkg v)
                                      && bool_decide (install_version (prv_OwnerPkg prv) d
                                                      = Some (prv_OwnerVer prv))
                                      && check (prv_ProvideVersion prv) dep)
                                   (ProvidesList (dep_TargetPkg dep)))).
  pose (reverse := fun (A : string) (dep : Dependency) =>
                    is_conflict dep
                    && bool_decide (dep_ParentPkg dep <> ParentPkg v)
                    && bool_decide (install_version (dep_ParentPkg dep) d
                                    = Some (dep_ParentVer dep))
                    && check A dep).
  change (is_conflicted (Some v) d)
    with (match find forward (DependsList v) with
          | Some dep => Some dep
          | None =>
              match find (reverse (VerStr v)) (RevDependsList (ParentPkg v)) with
              | Some dep => Some dep
              | None =>
                  first_some
                    (fun prv => find (reverse (prv_ProvideVersion prv))
                                     (RevDependsList (prv_ParentPkg prv)))
                    (VerProvidesList v)
              end
          end).
  assert (Hfwd : (exists dep, dep ∈ DependsList v /\ forward dep = true)
                 <-> ((exists dep iv,
                          dep ∈ DependsList v /\ is_conflict dep = true
                          /\ dep_TargetPkg dep <> ParentPkg v
                          /\ install_version (dep_TargetPkg dep) d = Some iv
                          /\ check (VerStr iv) dep = true)
                      \/ (exists dep prv,
                             dep ∈ DependsList v /\ is_conflict dep = true
                             /\ prv ∈ ProvidesList (dep_TargetPkg dep)
                             /\ prv_OwnerPkg prv <> ParentPkg v
                             /\ install_version (prv_OwnerPkg prv) d
                                = Some (prv_OwnerVer prv)
                             /\ check (prv_ProvideVersion prv) dep = true))).
  { split.
    - intros (dep & Hin & Hf). unfold forward in Hf.
      apply andb_true_iff in Hf as (Hc & Hf).
      apply orb_true_iff in Hf as [Hf | Hf].
      + apply andb_true_iff in Hf as (Hne & Hiv).
        apply bool_decide_eq_true in Hne.
        destruct (install_version (dep_TargetPkg dep) d) as [iv|] eqn:Hi; [|discriminate].
        left. exists dep, iv. auto.
      + apply existsb_exists in Hf as (prv & Hp & Hf).
        apply andb_true_iff in Hf as (Hf & Hck).
        apply andb_true_iff in Hf as (Hne & Hiv).
        apply bool_decide_eq_true in Hne. apply bool_decide_eq_true in Hiv.
        apply list_elem_of_In in Hp.
        right. exists dep, prv. auto 10.
    - intros [(dep & iv & Hin & Hc & Hne & Hiv & Hck)
             | (dep & prv & Hin & Hc & Hp & Hne & Hiv & Hck)];
        exists dep; (split; [exact Hin|]); unfold forward; rewrite Hc; simpl.
      + rewrite Hiv, Hck. rewrite bool_decide_eq_true_2 by exact Hne. reflexivity.
      + apply orb_true_iff. right. apply existsb_exists. exists prv.
        split; [apply list_elem_of_In; exact Hp|].
        rewrite Hck. rewrite !bool_decide_eq_true_2 by assumption. reflexivity. }
  assert (Hrev : forall A (l : list Dependency),
             (exists dep, dep ∈ l /\ reverse A dep = true)
             <-> (exists dep, dep ∈ l /\ is_conflict dep = true
                              /\ dep_ParentPkg dep <> ParentPkg v
                              /\ install_version (dep_ParentPkg dep) d
                                 = Some (dep_ParentVer dep)
                              /\ check A dep = true)).
  { intros A l. split.
    - intros (dep & Hin & Hf). unfold reverse in Hf.
      apply andb_true_iff in Hf as (Hf & Hck).
      apply andb_true_iff in Hf as (Hf & Hiv).
      apply andb_true_iff in Hf as (Hc & Hne).
      apply bool_decide_eq_true in Hne. apply bool_decide_eq_true in Hiv.
      exists dep. auto.
    - intros (dep & Hin & Hc & Hne & Hiv & Hck). exists dep. split; [exact Hin|].
      unfold reverse. rewrite Hc, Hck.
      rewrite !bool_decide_eq_true_2 by assumption. reflexivity. }
  unfold oracle_conflict.
  destruct (find forward (DependsList v)) as [dep|] eqn:Hff.
  { split; [|congruence]. intros _.
    assert (Hex : find forward (DependsList v) <> None) by congruence.
    apply find_is_Some in Hex. apply Hfwd in Hex.
    destruct Hex as [H | H]; [left | right; left]; exact H. }
  assert (Hnf : ~ exists dep, dep ∈ DependsList v /\ forward dep = true).
  { intros Hex. apply find_is_Some in Hex. congruence. }
  destruct (find (reverse (VerStr v)) (RevDependsList (ParentPkg v))) as [dep|] eqn:Hfr.
  { split; [|congruence]. intros _.
    assert (Hex : find (reverse (VerStr v)) (RevDependsList (ParentPkg v)) <> None)
      by congruence.
    apply find_is_Some in Hex. apply Hrev in Hex. right. right. left. exact Hex. }
  assert (Hnr : ~ exists dep, dep ∈ RevDependsList (ParentPkg v)
                              /\ reverse (VerStr v) dep = true).
  { intros Hex. apply find_is_Some in Hex. congruence. }
  rewrite first_some_is_Some. split.
  - intros (prv & Hp & Hfound). apply find_is_Some in Hfound. apply Hrev in Hfound.
    destruct Hfound as (dep & Hin & Hrest).
    right. right. right. exists prv, dep. auto.
  - intros [H | [H | [H | (prv & dep & Hp & Hin & Hrest)]]].
    + exfalso. apply Hnf. apply Hfwd. left. exact H.
    + exfalso. apply Hnf. apply Hfwd. right. exact H.
    + exfalso. apply Hnr. apply Hrev. exact H.
    + exists prv. split; [exact Hp|]. apply find_is_Some. apply Hrev.
      exists dep. auto.
Qed.

(** *** What the sets of the first loop contain *)

Lemma sweep_classify_sets (pu : bool) (c : aptitudeDepCache D) (R B : gset PkgID)
    (pkg : PkgID) :
  let r := sweep_classify pu (c, R, B) pkg in
  if unused_removal c pkg then
    match is_conflicted (CurrentVer pkg) (depcache c) with
    | Some _ => r.1.2 = R /\ r.2 = {[pkg]} ∪ B
    | None => r.1.2 = {[pkg]} ∪ R /\ r.2 = B
    end
  else r.1.2 = R /\ r.2 = B.
Proof.
  unfold unused_removal, sweep_classify.
  destruct (Garbage (state_of c pkg)); simpl.
  - destruct (negb (bool_decide (CurrentVer pkg = None))
              && negb (bool_decide (CurrentState pkg = State.ConfigFiles)));
      [destruct (negb (Delete (state_of c pkg)))|]; simpl; auto.
  - destruct (Delete (state_of c pkg)
              && bool_decide (remove_reason (package_states c pkg) = unused)); simpl; auto.
    destruct (is_conflicted (CurrentVer pkg) (depcache c)); simpl; auto.
Qed.

Lemma snoc_split_other {A : Type} (l l1 l2 : list A) (a p : A) :
  l ++ [a] = l1 ++ p :: l2 -> p <> a -> exists l2', l2 = l2' ++ [a] /\ l = l1 ++ p :: l2'.
Proof.
  intros Heq Hne. destruct l2 as [|x l2] using rev_ind.
  - apply app_inj_tail in Heq as (_ & Heq). congruence.
  - clear IHl2. replace (l1 ++ p :: l2 ++ [x]) with ((l1 ++ p :: l2) ++ [x]) in Heq
      by (rewrite <- app_assoc; reflexivity).
    apply app_inj_tail in Heq as (Hl & ->). eauto.
Qed.

Lemma snoc_split_last {A : Type} (l l1 l2 : list A) (a : A) :
  l ++ [a] = l1 ++ a :: l2 -> a ∉ l -> l1 = l /\ l2 = [].
Proof.
  intros Heq Hnot. destruct l2 as [|x l2] using rev_ind.
  - apply app_inj_tail in Heq as (-> & _). auto.
  - clear IHl2. replace (l1 ++ a :: l2 ++ [x]) with ((l1 ++ a :: l2) ++ [x]) in Heq
      by (rewrite <- app_assoc; reflexivity).
    apply app_inj_tail in Heq as (Hl & _). exfalso. apply Hnot. rewrite Hl.
    apply elem_of_app. right. left.
Qed.

(** A package is in [reinstated_bad] (in [reinstated]) exactly when,
    at its turn in the loop, it is a pending unused removal that is not
    garbage and [is_conflicted] finds a conflict (finds none). *)
Lemma sweep_loop_members (c : aptitudeDepCache D) (l : list PkgID) (p : PkgID) :
  NoDup l ->
  (p ∈ (sweep_loop_upto l c).2
   <-> exists l1 l2, l = l1 ++ p :: l2 /\ classified_at c l1 p true)
  /\ (p ∈ (sweep_loop_upto l c).1.2
      <-> exists l1 l2, l = l1 ++ p :: l2 /\ classified_at c l1 p false).
Proof.
  revert p. induction l as [|a l IH] using rev_ind; intros p Hnd.
  - simpl. split; (split; [intros H; clear -H; set_solver|]);
      intros (l1 & l2 & Heq & _); destruct l1; discriminate.
  - apply NoDup_app in Hnd as (Hnd & Hdisj & _).
    assert (Ha : a ∉ l) by (intros Hal; apply (Hdisj a Hal); left).
    assert (IHB := fun q => proj1 (IH q Hnd)).
    assert (IHR := fun q => proj2 (IH q Hnd)).
    unfold sweep_loop_upto in *. rewrite fold_left_app. simpl.
    set (pu := FindB (aptcfg env) (PACKAGE +:+ "::Purge-Unused") false) in *.
    set (s := fold_left (sweep_classify pu) l (on_depcache (ActionGroup_ctor E) c, ∅, ∅)) in *.
    pose proof (sweep_classify_sets pu s.1.1 s.1.2 s.2 a) as Hsets.
    replace (s.1.1, s.1.2, s.2) with s in Hsets by (destruct s as [[? ?] ?]; reflexivity).
    simpl in Hsets.
    assert (Hlift : forall b, (exists l1 l2, l = l1 ++ p :: l2 /\ classified_at c l1 p b)
                              -> exists l1 l2, l ++ [a] = l1 ++ p :: l2
                                               /\ classified_at c l1 p b).
    { intros b (l1 & l2 & -> & Hc). exists l1, (l2 ++ [a]).
      split; [rewrite <- app_assoc; reflexivity | exact Hc]. }
    assert (Hdrop : forall b, p <> a ->
              (exists l1 l2, l ++ [a] = l1 ++ p :: l2 /\ classified_at c l1 p b)
              -> exists l1 l2, l = l1 ++ p :: l2 /\ classified_at c l1 p b).
    { intros b Hne (l1 & l2 & Heq & Hc).
      destruct (snoc_split_other l l1 l2 a p Heq Hne) as (l2' & _ & ->). eauto. }
    assert (Hat : forall b, (exists l1 l2, l ++ [a] = l1 ++ a :: l2 /\ classified_at c l1 a b)
                            <-> classified_at c l a b).
    { intros b. split.
      - intros (l1 & l2 & Heq & Hc).
        destruct (snoc_split_last l l1 l2 a Heq Ha) as (-> & _). exact Hc.
      - intros Hc. exists l, []. auto. }
    assert (HaB : a ∉ s.2).
    { intros H. apply IHB in H as (l1 & l2 & -> & _). apply Ha.
      apply elem_of_app. right. left. }
    assert (HaR : a ∉ s.1.2).
    { intros H. apply IHR in H as (l1 & l2 & -> & _). apply Ha.
      apply elem_of_app. right. left. }
    assert (Hcl : forall b, classified_at c l a b <->
                   unused_removal s.1.1 a = true
                   /\ (if b then is_conflicted (CurrentVer a) (depcache s.1.1) <> None
                       else is_conflicted (CurrentVer a) (depcache s.1.1) = None))
      by (intros b; reflexivity).
    destruct (decide (p = a)) as [->|Hne].
    + rewrite !Hat, !Hcl.
      destruct (unused_removal s.1.1 a);
        [destruct (is_conflicted (CurrentVer a) (depcache s.1.1)) as [conflict|]|];
        destruct Hsets as (-> & ->); split; split;
        try (intros (H1 & H2); congruence);
        try (intros H; exfalso; clear -H HaB HaR; set_solver);
        try (intros _; clear; set_solver);
        try (intros _; split; [reflexivity | congruence]).
    + assert (HpB : p ∈ (sweep_classify pu s a).2 <-> p ∈ s.2).
      { destruct (unused_removal s.1.1 a);
          [destruct (is_conflicted (CurrentVer a) (depcache s.1.1))|];
          destruct Hsets as (_ & ->); clear -Hne; set_solver. }
      assert (HpR : p ∈ (sweep_classify pu s a).1.2 <-> p ∈ s.1.2).
      { destruct (unused_removal s.1.1 a);
          [destruct (is_conflicted (CurrentVer a) (depcache s.1.1))|];
          destruct Hsets as (-> & _); clear -Hne; set_solver. }
      rewrite HpB, HpR, IHB, IHR. split; split; auto.
Qed.

(** [reinstated_bad] holds the conflicted candidates and [reinstated]
    the clean ones. *)
Lemma first_loop_sets (c : aptitudeDepCache D) :
  NoDup (PkgList (cache env)) ->
  let '(c1, reinstated, reinstated_bad) := sweep_first_loop c in
  (forall q, q ∈ reinstated_bad <-> conflicted_candidate c q)
  /\ (forall q, q ∈ reinstated <-> clean_candidate c q).
Proof.
  intros Hnd.
  change (sweep_first_loop c) with (sweep_loop_upto (PkgList (cache env)) c).
  pose proof (fun q => sweep_loop_members c (PkgList (cache env)) q Hnd) as Hmem.
  destruct (sweep_loop_upto (PkgList (cache env)) c) as [[c1 R0] bad] eqn:Hloop.
  simpl in Hmem.
  split; intros q.
  - rewrite (proj1 (Hmem q)). unfold conflicted_candidate, classified_at. split.
    + intros (l1 & l2 & Heq & Hun & Hc).
      destruct (CurrentVer q) as [v|] eqn:Hcur; [|contradiction Hc; reflexivity].
      exists l1, l2, v. split; [exact Heq|]. split; [exact Hun|].
      split; [reflexivity|]. apply is_conflicted_iff. exact Hc.
    + intros (l1 & l2 & v & Heq & Hun & Hcur & Hc).
      exists l1, l2. split; [exact Heq|]. split; [exact Hun|].
      rewrite Hcur. apply is_conflicted_iff. exact Hc.
  - rewrite (proj2 (Hmem q)). unfold clean_candidate, classified_at. split.
    + intros (l1 & l2 & Heq & Hun & Hc).
      exists l1, l2. split; [exact Heq|]. split; [exact Hun|].
      intros v Hcur Hor. rewrite Hcur in Hc.
      apply is_conflicted_iff in Hor. contradiction.
    + intros (l1 & l2 & Heq & Hun & Hc).
      exists l1, l2. split; [exact Heq|]. split; [exact Hun|].
      destruct (CurrentVer q) as [v|] eqn:Hcur; [|reflexivity].
      destruct (is_conflicted (Some v) (depcache (sweep_loop_upto l1 c).1.1))
        as [dep|] eqn:Hi; [|reflexivity].
      exfalso. apply (Hc v eq_refl). apply is_conflicted_iff. congruence.
Qed.

(** *** What sweep does to the reinstatement candidates *)

Lemma blocked_is_candidate (R0 bad : gset PkgID) (q : PkgID) :
  blocked R0 bad q -> q ∈ R0 ∪ bad.
Proof.
  intros H. inversion H; subst.
  - apply elem_of_union. right. assumption.
  - apply elem_of_union. left. assumption.
Qed.

(** C2. With Delete-Unused on, let [reinstated] and [reinstated_bad] be
    the sets the first loop of [sweep] builds from the pending unused
    removals that are no longer garbage: [reinstated_bad] holds those for
    whose current version the conflict oracle has a conflict (a Conflicts
    or Breaks clause of the version against the version another package
    would have installed, or of such a version against this one, directly
    or through a provision, never between a package and itself), and
    [reinstated] the others.  A candidate is [blocked] when it is in
    [reinstated_bad], or when its current version has a Depends or
    PreDepends that the current version of a blocked package satisfies,
    directly or through a package that version provides.  [sweep]
    returns, every blocked package is out of the reinstatement set after
    the blocking pass, and after [sweep] it is still in mode Delete with
    remove_reason unused. *)
Theorem sweep_blocked_stay_removed (c : aptitudeDepCache D) :
  FindB (aptcfg env) (PACKAGE +:+ "::Delete-Unused") true = true ->
  NoDup (PkgList (cache env)) ->
  MarkKeep_frame -> MarkDelete_frame -> ActionGroup_keeps_Mode ->
  let '(c1, reinstated, reinstated_bad) := sweep_first_loop c in
  (forall q, q ∈ reinstated_bad <-> conflicted_candidate c q)
  /\ (forall q, q ∈ reinstated <-> clean_candidate c q)
  /\ exists Rf c',
       sweep_block reinstated reinstated_bad = Some Rf
       /\ sweep c = Some c'
       /\ forall q, blocked reinstated reinstated_bad q ->
            (q ∉ Rf)
            /\ Mode (state_of c' q) = ModeDelete
            /\ remove_reason (package_states c' q) = unused.
Proof.
  intros Hon Hnd HKF HDF HAG.
  pose proof (sweep_first_loop_spec c Hnd HKF HDF) as Hfl.
  pose proof (first_loop_sets c Hnd) as Hsets.
  unfold sweep. rewrite Hon. simpl.
  destruct (sweep_first_loop c) as [[c1 R0] bad].
  destruct Hfl as (Hdisj & Hmode).
  split; [exact (proj1 Hsets)|]. split; [exact (proj2 Hsets)|].
  destruct (sweep_block_spec R0 bad) as (Rf & Hblock & HsubR & _ & Hout).
  destruct (sweep_not_orphaned_spec Rf (depcache c1)) as (NO & Hno & HsubNO & _).
  rewrite Hblock, Hno.
  exists Rf. eexists. split; [reflexivity|]. split; [reflexivity|].
  intros q Hq.
  assert (HqRf : q ∉ Rf) by (apply Hout; auto).
  split; [exact HqRf|].
  destruct (Hmode q (blocked_is_candidate R0 bad q Hq)) as (Hm & Hr).
  destruct (reinstate_loop (elements NO) c1) as (Hps & _ & Hkeep & _).
  split.
  - unfold state_of; simpl. rewrite (proj2 (HAG _ q)).
    fold (state_of (fold_left (fun c0 pkg => on_depcache (MarkKeep E pkg false false) c0)
                      (elements NO) c1) q).
    rewrite Hkeep; auto.
    intros Hin. apply elem_of_elements in Hin. apply HqRf.
    clear -Hin HsubNO. set_solver.
  - simpl. rewrite Hps. exact Hr.
Qed.

Lemma needed_retained (R0 bad Rf : gset PkgID) (d : D) :
  (forall q, q ∈ R0 -> q ∉ Rf -> blocked R0 bad q) ->
  forall C, needed R0 bad d C -> retained Rf d C.
Proof.
  intros Hsound.
  assert (Hok : forall C, candidate_ok R0 bad C -> qual Rf C).
  { intros C (HC & Hnb & Hsane). split; [exact Hsane|].
    destruct (decide (C ∈ Rf)) as [Hin|Hout]; [exact Hin|].
    exfalso. apply Hnb. apply Hsound; auto. }
  intros C HC. induction HC as [C Hc Hroot | r C Hr IH Hedge Hc].
  - apply retained_root; auto.
  - apply (retained_dep Rf d r C); auto.
Qed.

(** C1, as the code has it.  With Delete-Unused on, let [reinstated] and
    [reinstated_bad] be the sets of the first loop of [sweep] and [c1]
    the cache after it: [reinstated] holds the pending unused removals
    that are not garbage and for whose current version the conflict
    oracle has no conflict, [reinstated_bad] those for which it has one.
    A candidate C is reinstated, its mode after [sweep] is Keep, when C
    is in [reinstated], is not blocked (no chain of Depends or PreDepends
    of current versions leads from C to a member of [reinstated_bad]),
    is on the system, and is needed: a package other than C that is
    installed or to be installed has a Depends or PreDepends in the
    reverse dependency list of C, or of a package the current version of
    C provides, that this version satisfies; or the current version of a
    needed candidate has an important dependency that leads to C.  The
    engine is assumed to honour [MarkKeep]. *)
Theorem sweep_reinstates_needed (c : aptitudeDepCache D) :
  FindB (aptcfg env) (PACKAGE +:+ "::Delete-Unused") true = true ->
  NoDup (PkgList (cache env)) ->
  MarkKeep_honoured -> MarkKeep_frame -> ActionGroup_keeps_Mode ->
  let '(c1, reinstated, reinstated_bad) := sweep_first_loop c in
  (forall q, q ∈ reinstated <-> clean_candidate c q)
  /\ (forall q, q ∈ reinstated_bad <-> conflicted_candidate c q)
  /\ exists c',
       sweep c = Some c'
       /\ forall C, needed reinstated reinstated_bad (depcache c1) C ->
            Mode (state_of c' C) = ModeKeep.
Proof.
  intros Hon Hnd HK HKF HAG.
  pose proof (first_loop_sets c Hnd) as Hsets.
  unfold sweep. rewrite Hon. simpl.
  destruct (sweep_first_loop c) as [[c1 R0] bad].
  split; [exact (proj2 Hsets)|]. split; [exact (proj1 Hsets)|].
  destruct (sweep_block_spec R0 bad) as (Rf & Hblock & HsubR & Hsound & _).
  destruct (sweep_not_orphaned_spec Rf (depcache c1)) as (NO & Hno & HsubNO & Hret).
  rewrite Hblock, Hno.
  eexists. split; [reflexivity|].
  intros C HC.
  assert (HCNO : C ∈ NO) by (apply Hret; eapply needed_retained; eauto).
  destruct (reinstate_loop (elements NO) c1) as (_ & _ & _ & Hkeep).
  unfold state_of; simpl. rewrite (proj2 (HAG _ C)).
  apply Hkeep; auto. apply elem_of_elements. exact HCNO.
Qed.

(** *** Action groups *)

Ltac shell :=
  unfold same_shell; simpl; repeat (split; [reflexivity|]);
  first [ exists 0; simpl; symmetry; apply app_nil_r | exists 1; reflexivity ].

Lemma same_shell_refl (c : aptitudeDepCache D) : same_shell c c.
Proof. shell. Qed.

Lemma same_shell_trans (c1 c2 c3 : aptitudeDepCache D) :
  same_shell c1 c2 -> same_shell c2 c3 -> same_shell c1 c3.
Proof.
  intros (Hg & Hr & Hb & He & n & Hn) (Hg' & Hr' & Hb' & He' & m & Hm).
  repeat split; try congruence.
  exists (n + m). rewrite Hm, Hn, <- app_assoc, replicate_add. reflexivity.
Qed.

Lemma sweep_classify_shell (pu : bool) (c : aptitudeDepCache D) (R B : gset PkgID)
    (pkg : PkgID) :
  same_shell c (sweep_classify pu (c, R, B) pkg).1.1.
Proof.
  unfold sweep_classify.
  destruct (Garbage (state_of c pkg)).
  - destruct (negb (bool_decide (CurrentVer pkg = None))
              && negb (bool_decide (CurrentState pkg = State.ConfigFiles))).
    + destruct (negb (Delete (state_of c pkg))); shell.
    + destruct (bool_decide (CurrentVer pkg = None));
        [destruct (tst (iFlags (state_of c pkg)) Purge)|]; shell.
  - destruct (Delete (state_of c pkg)
              && bool_decide (remove_reason (package_states c pkg) = unused)).
    + destruct (is_conflicted (CurrentVer pkg) (depcache c)); shell.
    + shell.
Qed.

Lemma sweep_shell (c c' : aptitudeDepCache D) : sweep c = Some c' -> same_shell c c'.
Proof.
  unfold sweep.
  destruct (negb (FindB (aptcfg env) (PACKAGE +:+ "::Delete-Unused") true)).
  { intros [= <-]. apply same_shell_refl. }
  assert (Hfl : same_shell c (sweep_first_loop c).1.1).
  { unfold sweep_first_loop.
    apply (fold_left_inv (sweep_classify _)
             (fun _ s => same_shell c s.1.1) (PkgList (cache env))) with (l0 := @nil PkgID).
    - intros l1 a [[c1 R] B] Hs _. eapply same_shell_trans; [exact Hs|].
      apply sweep_classify_shell.
    - shell. }
  destruct (sweep_first_loop c) as [[c1 R0] bad]. simpl in Hfl.
  destruct (sweep_block R0 bad) as [Rf|]; [|discriminate].
  destruct (sweep_not_orphaned Rf (depcache c1)) as [NO|]; [|discriminate].
  intros [= <-].
  destruct (reinstate_loop (elements NO) c1) as (_ & Hev & _).
  eapply same_shell_trans; [exact Hfl|].
  assert (Hloop : same_shell c1
            (fold_left (fun c0 pkg => on_depcache (MarkKeep E pkg false false) c0)
               (elements NO) c1)).
  { apply (fold_left_inv _ (fun _ s => same_shell c1 s) (elements NO)) with (l0 := @nil PkgID).
    - intros l1 a s Hs _. eapply same_shell_trans; [exact Hs|]. shell.
    - apply same_shell_refl. }
  eapply same_shell_trans; [exact Hloop|]. shell.
Qed.

Lemma alter_sticky_shell (pkg : PkgID) (c : aptitudeDepCache D) :
  same_shell c (alter_sticky pkg c).
Proof.
  unfold alter_sticky.
  destruct (Mode (state_of c pkg)).
  - destruct (negb (bool_decide (selection_state (package_states c pkg) = State.DeInstall)));
      [|shell].
    destruct (negb (bool_decide (CurrentVer pkg = None))); shell.
  - destruct (negb (bool_decide (CurrentVer pkg = None))); [shell|].
    destruct (bool_decide (CurrentState pkg = State.NotInstalled)); shell.
  - destruct (negb (bool_decide (selection_state (package_states c pkg) = State.Install)));
      shell.
Qed.

Lemma cleanup_after_change_shell (undo : option undo_group) (alter_stickies : bool)
    (c : aptitudeDepCache D) :
  same_shell c (cleanup_after_change undo alter_stickies c).1.1.
Proof.
  unfold cleanup_after_change.
  destruct (backup_state c) as [bak|]; [|apply same_shell_refl].
  apply (fold_left_inv (cleanup_step bak alter_stickies)
           (fun _ s => same_shell c s.1.1) (PkgList (cache env))) with (l0 := @nil PkgID).
  - intros l1 a [[c1 u] ch] Hs _. eapply same_shell_trans; [exact Hs|].
    unfold cleanup_step.
    destruct (primary_change _ _ _ _).
    + destruct (alter_stickies && _ && _); simpl.
      * eapply same_shell_trans; [|apply alter_sticky_shell]. shell.
      * shell.
    + destruct (cosmetic_change _ _ _ _); shell.
  - apply same_shell_refl.
Qed.


(** What the blocking pass leaves in the set is not blocked. *)
Lemma survivor_not_blocked (R0 bad Rf : gset PkgID) (q : PkgID) :
  sweep_block R0 bad = Some Rf -> R0 ## bad -> q ∈ Rf -> ~ blocked R0 bad q.
Proof.
  intros Hb Hdisj Hq Hbl.
  destruct (sweep_block_spec R0 bad) as (Rf' & Hb' & _ & _ & Hout).
  assert (Rf' = Rf) by congruence. subst Rf'.
  apply (Hout Hdisj q Hbl Hq).
Qed.

(** *** The cascading removal *)

Lemma foldM_some_prefix {A S : Type} (f : A -> S -> option S) (I : list A -> S -> Prop)
    (l : list A) :
  (forall l1 a s s1, a ∈ l -> I l1 s -> f a s = Some s1 -> I (l1 ++ [a]) s1) ->
  forall l0 s s', I l0 s -> foldM f l s = Some s' -> I (l0 ++ l) s'.
Proof.
  induction l as [|a l IH]; intros Hstep l0 s s' Hs Hf; simpl in Hf.
  - injection Hf as <-. rewrite app_nil_r. exact Hs.
  - destruct (f a s) as [s1|] eqn:Hfa; [|discriminate].
    replace (l0 ++ a :: l) with ((l0 ++ [a]) ++ l) by (rewrite <- app_assoc; reflexivity).
    apply (IH (fun l1 b s2 s3 Hin => Hstep l1 b s2 s3 (list_elem_of_further _ _ _ Hin))
              (l0 ++ [a]) s1 s'); [|exact Hf].
    apply (Hstep l0 a s s1); auto. left.
Qed.

Lemma foldM_some_inv {A S : Type} (f : A -> S -> option S) (I : S -> Prop)
    (l : list A) (s s' : S) :
  (forall a s s1, a ∈ l -> I s -> f a s = Some s1 -> I s1) ->
  I s -> foldM f l s = Some s' -> I s'.
Proof.
  intros Hstep Hs Hf.
  apply (foldM_some_prefix f (fun _ => I) l
           (fun _ a s0 s1 Hin => Hstep a s0 s1 Hin) [] s s' Hs Hf).
Qed.

(** What [mark_delete_head] does to the package and to the others. *)
Lemma mark_delete_head_spec (P : PkgID) (purge unused_delete : bool)
    (c : aptitudeDepCache D) :
  let c' := mark_delete_head P purge unused_delete c in
  (MarkDelete_honoured -> SetReInstall_keeps_Mode -> Mode (state_of c' P) = ModeDelete)
  /\ selection_state (package_states c' P) =
       (if (if unused_delete && FindB (aptcfg env) (PACKAGE +:+ "::Purge-Unused") false
            then true else purge)
        then State.Purge else State.DeInstall)
  /\ remove_reason (package_states c' P) =
       (if Delete (state_of c P) then remove_reason (package_states c P)
        else if unused_delete then unused else manual)
  /\ (forall q, q <> P -> package_states c' q = package_states c q)
  /\ (MarkDelete_frame -> SetReInstall_keeps_Mode ->
      forall q, q <> P -> Mode (state_of c' q) = Mode (state_of c q))
  /\ (MarkDelete_keeps_marks -> SetReInstall_keeps_marks ->
      forall q, q <> P ->
        Flags (state_of c' q) = Flags (state_of c q)
        /\ is_auto_installed env (state_of c' q) = is_auto_installed env (state_of c q)).
Proof.
  unfold mark_delete_head. cbv zeta.
  set (pg := if unused_delete && _ then true else purge).
  change (state_of (set_dirty true c) P) with (state_of c P).
  set (c4 := upd_ext_state P (with_reinstall false) _).
  assert (Hst : forall q, state_of c4 q
                 = PkgState E (SetReInstall E P false (MarkDelete E P pg (depcache c))) q)
    by reflexivity.
  assert (Hsel : selection_state (package_states c4 P)
                 = if pg then State.Purge else State.DeInstall).
  { unfold c4. rewrite !package_states_upd_same. reflexivity. }
  assert (Hrr : remove_reason (package_states c4 P) = remove_reason (package_states c P)).
  { unfold c4. rewrite !package_states_upd_same. reflexivity. }
  assert (Hoth : forall q, q <> P -> package_states c4 q = package_states c q).
  { intros q Hq. unfold c4. rewrite !package_states_upd_other by exact Hq. reflexivity. }
  assert (Hfin : forall c5,
            (c5 = c4 \/ exists r, c5 = upd_ext_state P (with_remove_reason r) c4) ->
            (forall q, state_of c5 q = state_of c4 q)
            /\ selection_state (package_states c5 P) = selection_state (package_states c4 P)
            /\ (forall q, q <> P -> package_states c5 q = package_states c4 q)).
  { intros c5 [-> | (r & ->)]; [auto|].
    split; [reflexivity|]. split.
    - rewrite package_states_upd_same. reflexivity.
    - intros q Hq. rewrite package_states_upd_other by exact Hq. reflexivity. }
  match goal with |- context [Mode (state_of ?x P)] => set (c5 := x) end.
  assert (Hc5 : c5 = c4 \/ exists r, c5 = upd_ext_state P (with_remove_reason r) c4).
  { unfold c5. destruct (negb (Delete (state_of c P))); [|auto].
    destruct unused_delete; right; eauto. }
  destruct (Hfin c5 Hc5) as (Hst5 & Hsel5 & Hoth5).
  split; [|split; [|split; [|split; [|split]]]].
  - intros HD HR. rewrite Hst5, Hst, HR. apply HD.
  - rewrite Hsel5. exact Hsel.
  - unfold c5. destruct (Delete (state_of c P)); simpl; [exact Hrr|].
    destruct unused_delete; rewrite package_states_upd_same; reflexivity.
  - intros q Hq. rewrite Hoth5, Hoth by exact Hq. reflexivity.
  - intros HF HR q Hq. rewrite Hst5, Hst, HR. apply HF. exact Hq.
  - intros HM HS q Hq. rewrite Hst5, Hst.
    destruct (HS P false (MarkDelete E P pg (depcache c)) q Hq) as (-> & ->).
    apply HM. exact Hq.
Qed.

Lemma cascade_dep_preserves (Inv : aptitudeDepCache D -> Prop)
    (rec : PkgID -> list PkgID -> aptitudeDepCache D
           -> option (aptitudeDepCache D * list PkgID))
    (dep : Dependency) (c : aptitudeDepCache D) (v : list PkgID)
    (c' : aptitudeDepCache D) (v' : list PkgID) :
  (forall p v0 c0 c1 v1, rec p v0 c0 = Some (c1, v1) -> Inv c0 -> Inv c1) ->
  cascade_dep rec dep (c, v) = Some (c', v') -> Inv c -> Inv c'.
Proof.
  intros Hrec Hstep Hc. unfold cascade_dep in Hstep.
  destruct (negb (considered keep_recommends_installed keep_suggests_installed dep)).
  { injection Hstep as <- <-. exact Hc. }
  destruct (is_virtual env (dep_TargetPkg dep)).
  - refine (foldM_some_inv _ (fun s => Inv s.1) _ (c, v) (c', v') _ Hc Hstep).
    intros prv [c0 v0] [c1 v1] _ H0 Hf. simpl in *.
    destruct (negb (can_remove (dep_TargetPkg dep) c0)).
    { injection Hf as <- <-. exact H0. }
    destruct (negb (is_auto_installed env (state_of c0 (prv_OwnerPkg prv)))
              || negb (can_remove (prv_OwnerPkg prv) c0)).
    { injection Hf as <- <-. exact H0. }
    eapply Hrec; eauto.
  - destruct (CurrentVer (dep_TargetPkg dep)) as [dv|].
    2: { injection Hstep as <- <-. exact Hc. }
    destruct (is_installed env (dep_TargetPkg dep)
              && is_auto_installed env (state_of c (dep_TargetPkg dep))
              && is_not_required (state_of c (dep_TargetPkg dep)) dv).
    2: { injection Hstep as <- <-. exact Hc. }
    destruct (negb (can_remove (dep_TargetPkg dep) c)).
    { injection Hstep as <- <-. exact Hc. }
    eapply Hrec; eauto.
Qed.

(** A property of the cache that the refusal and the marking of any
    package as unused preserve is preserved by the whole recursion. *)
Lemma internal_mark_delete_rec_preserves (Inv : aptitudeDepCache D -> Prop) :
  (forall c msg, Inv c -> Inv (Error msg c)) ->
  (forall X c, Inv c ->
     Inv (mark_delete_head X
            (FindB (aptcfg env) (PACKAGE +:+ "::Purge-Unused") false) true c)) ->
  forall fuel X v c c' v',
    internal_mark_delete_rec fuel X
      (FindB (aptcfg env) (PACKAGE +:+ "::Purge-Unused") false) true v c = Some (c', v') ->
    Inv c -> Inv c'.
Proof.
  intros Herr Hhead. induction fuel as [|fuel IH]; intros X v c c' v' Hrun Hc;
    [discriminate|].
  simpl in Hrun.
  destruct (is_self X).
  { injection Hrun as <- <-. apply Herr. exact Hc. }
  specialize (Hhead X c Hc).
  destruct (negb (FindB (aptcfg env) (PACKAGE +:+ "::Delete-Unused") true)).
  { injection Hrun as <- <-. exact Hhead. }
  destruct (CurrentVer X) as [cur|].
  2: { injection Hrun as <- <-. exact Hhead. }
  destruct (decide (X ∈ v)).
  { injection Hrun as <- <-. exact Hhead. }
  refine (foldM_some_inv _ (fun s => Inv s.1) _ (_, _) (c', v') _ Hhead Hrun).
  intros dep [c0 v0] [c1 v1] _ H0 Hf. simpl in H0 |- *.
  eapply cascade_dep_preserves; [|exact Hf|exact H0].
  intros p v2 c2 c3 v3 Hr H2. simpl in Hr. exact (IH p v2 c2 c3 v3 Hr H2).
Qed.

Section Cascade.

Hypothesis HD : MarkDelete_honoured.
Hypothesis HF : MarkDelete_frame.
Hypothesis HR : SetReInstall_keeps_Mode.
Hypothesis HM : MarkDelete_keeps_marks.
Hypothesis HS : SetReInstall_keeps_marks.

Variable B : PkgID.
Variable bv : VerID.

Let pu : bool := FindB (aptcfg env) (PACKAGE +:+ "::Purge-Unused") false.

Lemma head_keeps_removed (X : PkgID) (c : aptitudeDepCache D) :
  removed_as_unused B c -> removed_as_unused B (mark_delete_head X pu true c).
Proof.
  intros (Hm & Hr & Hsel).
  destruct (mark_delete_head_spec X pu true c) as (Hmode & Hs & Hrr & Hoth & Hfr & _).
  destruct (decide (X = B)) as [->|Hne].
  - split; [apply Hmode; auto|]. split.
    + rewrite Hrr. unfold Delete. rewrite bool_decide_eq_true_2 by exact Hm. exact Hr.
    + rewrite Hs. unfold unused_selection, pu. simpl.
      destruct (FindB (aptcfg env) (PACKAGE +:+ "::Purge-Unused") false); reflexivity.
  - assert (Hne' : B <> X) by congruence.
    split; [rewrite Hfr; auto|]. rewrite Hoth by exact Hne'. auto.
Qed.

Lemma head_keeps_pending (X : PkgID) (c : aptitudeDepCache D) :
  removable B bv c \/ removed_as_unused B c ->
  removable B bv (mark_delete_head X pu true c)
  \/ removed_as_unused B (mark_delete_head X pu true c).
Proof.
  intros [Hp | Hq]; [|right; apply head_keeps_removed; exact Hq].
  destruct Hp as (Hauto & Hreq & Hwhy & Hrd).
  destruct (mark_delete_head_spec X pu true c) as (Hmode & Hs & Hrr & Hoth & Hfr & Hmk).
  destruct (decide (X = B)) as [->|Hne].
  - right. split; [apply Hmode; auto|]. split.
    + rewrite Hrr. destruct (Delete (state_of c B)); [|reflexivity].
      destruct Hwhy; [discriminate | assumption].
    + rewrite Hs. unfold unused_selection, pu. simpl.
      destruct (FindB (aptcfg env) (PACKAGE +:+ "::Purge-Unused") false); reflexivity.
  - left. assert (Hne' : B <> X) by congruence.
    destruct (Hmk HM HS B Hne') as (Hfl & Hau).
    split; [rewrite Hau; exact Hauto|].
    split; [unfold is_not_required in *; rewrite Hfl; exact Hreq|].
    split.
    + unfold Delete in *. rewrite Hfr by auto. rewrite Hoth by exact Hne'. exact Hwhy.
    + intros rd Hin Hcons. specialize (Hrd rd Hin Hcons).
      unfold installed_or_to_be in *.
      change (PkgState E (depcache (mark_delete_head X pu true c)) (dep_ParentPkg rd))
        with (state_of (mark_delete_head X pu true c) (dep_ParentPkg rd)).
      destruct (decide (dep_ParentPkg rd = X)) as [->|Hr].
      * unfold Install, Delete. rewrite Hmode by auto.
        rewrite bool_decide_eq_false_2 by discriminate.
        rewrite bool_decide_eq_true_2 by reflexivity.
        simpl. apply andb_false_r.
      * unfold Install, Delete. rewrite Hfr by auto. exact Hrd.
Qed.

Lemma head_on_target (c : aptitudeDepCache D) :
  removable B bv c \/ removed_as_unused B c ->
  removed_as_unused B (mark_delete_head B pu true c).
Proof.
  intros [Hp | Hq]; [|apply head_keeps_removed; exact Hq].
  destruct Hp as (_ & _ & Hwhy & _).
  destruct (mark_delete_head_spec B pu true c) as (Hmode & Hs & Hrr & _).
  split; [apply Hmode; auto|]. split.
  - rewrite Hrr. destruct (Delete (state_of c B)); [|reflexivity].
    destruct Hwhy; [discriminate | assumption].
  - rewrite Hs. unfold unused_selection, pu. simpl.
    destruct (FindB (aptcfg env) (PACKAGE +:+ "::Purge-Unused") false); reflexivity.
Qed.

Lemma rec_keeps_removed fuel X v c c' v' :
  internal_mark_delete_rec fuel X pu true v c = Some (c', v') ->
  removed_as_unused B c -> removed_as_unused B c'.
Proof.
  apply (internal_mark_delete_rec_preserves (removed_as_unused B)).
  - intros c0 msg H. exact H.
  - intros X0 c0 H. apply head_keeps_removed. exact H.
Qed.

Lemma rec_keeps_pending fuel X v c c' v' :
  internal_mark_delete_rec fuel X pu true v c = Some (c', v') ->
  removable B bv c \/ removed_as_unused B c ->
  removable B bv c' \/ removed_as_unused B c'.
Proof.
  apply (internal_mark_delete_rec_preserves
           (fun c0 => removable B bv c0 \/ removed_as_unused B c0)).
  - intros c0 msg H. exact H.
  - intros X0 c0 H. apply head_keeps_pending. exact H.
Qed.

(** Offered for removal, [B] is removed as unused. *)
Lemma rec_on_target fuel v c c' v' :
  is_self B = false ->
  internal_mark_delete_rec fuel B pu true v c = Some (c', v') ->
  removable B bv c \/ removed_as_unused B c ->
  removed_as_unused B c'.
Proof.
  intros Hself Hrun Hc. destruct fuel as [|fuel]; [discriminate|].
  simpl in Hrun. rewrite Hself in Hrun.
  pose proof (head_on_target c Hc) as Hhead. fold pu in Hrun.
  destruct (negb (FindB (aptcfg env) (PACKAGE +:+ "::Delete-Unused") true)).
  { injection Hrun as <- <-. exact Hhead. }
  destruct (CurrentVer B) as [cur|].
  2: { injection Hrun as <- <-. exact Hhead. }
  destruct (decide (B ∈ v)).
  { injection Hrun as <- <-. exact Hhead. }
  refine (foldM_some_inv _ (fun s => removed_as_unused B s.1) _ (_, _) (c', v') _ Hhead Hrun).
  intros dep [c0 v0] [c1 v1] _ H0 Hf. simpl in H0 |- *.
  eapply (cascade_dep_preserves (removed_as_unused B)); [|exact Hf|exact H0].
  intros p v2 c2 c3 v3 Hr H2. simpl in Hr. exact (rec_keeps_removed _ _ _ _ _ _ Hr H2).
Qed.

Lemma removable_can_remove (c : aptitudeDepCache D) :
  is_virtual env B = false -> CurrentVer B = Some bv ->
  ver_Automatic (Ver (cache env) bv) = true ->
  removable B bv c -> can_remove B c = true.
Proof.
  intros Hvirt Hcur Hauto (_ & _ & _ & Hrd).
  unfold can_remove, can_remove_autoinstalled.
  rewrite Hvirt, Hcur, Hauto. simpl.
  rewrite andb_false_r. simpl.
  apply negb_true_iff. apply not_true_is_false. intros Hex.
  apply existsb_exists in Hex as (rd & Hin & Hrdt).
  apply andb_true_iff in Hrdt as (Hcons & Hstay).
  apply list_elem_of_In in Hin.
  specialize (Hrd rd Hin Hcons). unfold installed_or_to_be in Hrd.
  rewrite orb_comm in Hrd. rewrite Hrd in Hstay. discriminate.
Qed.

(** The step of the cascade for a dependency on [B]. *)
Lemma cascade_dep_on_target fuel (dep : Dependency) c v c' v' :
  considered keep_recommends_installed keep_suggests_installed dep = true ->
  dep_TargetPkg dep = B ->
  is_self B = false -> is_virtual env B = false -> is_installed env B = true ->
  CurrentVer B = Some bv -> ver_Automatic (Ver (cache env) bv) = true ->
  cascade_dep (fun p visited c0 => internal_mark_delete_rec fuel p pu true visited c0)
    dep (c, v) = Some (c', v') ->
  removable B bv c \/ removed_as_unused B c ->
  removed_as_unused B c'.
Proof.
  intros Hcons Htgt Hself Hvirt Hinst Hcur Hauto Hstep Hc.
  unfold cascade_dep in Hstep. rewrite Hcons, Htgt, Hvirt, Hcur, Hinst in Hstep.
  simpl in Hstep.
  destruct Hc as [Hp | Hq].
  - pose proof (removable_can_remove c Hvirt Hcur Hauto Hp) as Hcan.
    destruct Hp as (Ha & Hn & Hrest).
    rewrite Ha, Hn, Hcan in Hstep. simpl in Hstep.
    apply (rec_on_target _ _ _ _ _ Hself Hstep). left. repeat split; auto; apply Hrest.
  - destruct (is_auto_installed env (state_of c B) && is_not_required (state_of c B) bv).
    2: { injection Hstep as <- <-. exact Hq. }
    destruct (negb (can_remove B c)).
    { injection Hstep as <- <-. exact Hq. }
    exact (rec_keeps_removed _ _ _ _ _ _ Hstep Hq).
Qed.

Lemma head_makes_removable (A : PkgID) (purge unused_delete : bool)
    (c : aptitudeDepCache D) :
  A <> B ->
  is_auto_installed env (state_of c B) = true ->
  is_not_required (state_of c B) bv = true ->
  (Delete (state_of c B) = false \/ remove_reason (package_states c B) = unused) ->
  (forall rd, rd ∈ RevDependsList B ->
     considered keep_recommends_installed keep_suggests_installed rd = true ->
     dep_ParentPkg rd = A \/ installed_or_to_be (depcache c) (dep_ParentPkg rd) = false) ->
  removable B bv (mark_delete_head A purge unused_delete c).
Proof.
  intros Hne Hauto Hreq Hwhy Hrd.
  destruct (mark_delete_head_spec A purge unused_delete c)
    as (Hmode & _ & _ & Hoth & Hfr & Hmk).
  assert (Hne' : B <> A) by congruence.
  destruct (Hmk HM HS B Hne') as (Hfl & Hau).
  split; [rewrite Hau; exact Hauto|].
  split; [unfold is_not_required in *; rewrite Hfl; exact Hreq|].
  split.
  - unfold Delete in *. rewrite Hfr by auto. rewrite Hoth by exact Hne'. exact Hwhy.
  - intros rd Hin Hcons. unfold installed_or_to_be.
    change (PkgState E (depcache (mark_delete_head A purge unused_delete c))
              (dep_ParentPkg rd))
      with (state_of (mark_delete_head A purge unused_delete c) (dep_ParentPkg rd)).
    destruct (decide (dep_ParentPkg rd = A)) as [->|Hr].
    + unfold Install, Delete. rewrite Hmode by auto.
      rewrite bool_decide_eq_false_2 by discriminate.
      rewrite bool_decide_eq_true_2 by reflexivity.
      simpl. apply andb_false_r.
    + unfold Install, Delete. rewrite Hfr by auto.
      destruct (Hrd rd Hin Hcons) as [Heq | Hgone]; [contradiction | exact Hgone].
Qed.

(** When the removal of [A] returns, [B] is removed as unused. *)
Lemma cascade_removes_target fuel (A : PkgID) (av : VerID) (depAB : Dependency)
    (purge unused_delete : bool) (c c' : aptitudeDepCache D) (v' : list PkgID) :
  FindB (aptcfg env) (PACKAGE +:+ "::Delete-Unused") true = true ->
  is_self A = false -> CurrentVer A = Some av ->
  depAB ∈ DependsList av -> is_strong depAB = true -> dep_TargetPkg depAB = B ->
  A <> B ->
  is_self B = false -> is_virtual env B = false -> is_installed env B = true ->
  CurrentVer B = Some bv -> ver_Automatic (Ver (cache env) bv) = true ->
  is_auto_installed env (state_of c B) = true ->
  is_not_required (state_of c B) bv = true ->
  (Delete (state_of c B) = false \/ remove_reason (package_states c B) = unused) ->
  (forall rd, rd ∈ RevDependsList B ->
     considered keep_recommends_installed keep_suggests_installed rd = true ->
     dep_ParentPkg rd = A \/ installed_or_to_be (depcache c) (dep_ParentPkg rd) = false) ->
  internal_mark_delete_rec fuel A purge unused_delete [] c = Some (c', v') ->
  removed_as_unused B c'.
Proof.
  intros Hon HselfA HcurA Hin Hstrong Htgt Hne HselfB Hvirt Hinst HcurB Hautom
    Hauto Hreq Hwhy Hrd Hrun.
  destruct fuel as [|fuel]; [discriminate|].
  simpl in Hrun. rewrite HselfA, Hon, HcurA in Hrun. simpl in Hrun.
  destruct (decide (A ∈ [])) as [Hnil|_]; [inversion Hnil|].
  pose proof (head_makes_removable A purge unused_delete c Hne Hauto Hreq Hwhy Hrd)
    as Hhead.
  assert (Hcons : considered keep_recommends_installed keep_suggests_installed depAB = true).
  { unfold considered. unfold is_strong in Hstrong.
    apply orb_true_iff in Hstrong as [-> | ->]; simpl; rewrite ?orb_true_r; reflexivity. }
  fold pu in Hrun.
  pose proof (foldM_some_prefix
                (cascade_dep (fun p visited c0 =>
                                internal_mark_delete_rec fuel p pu true visited c0))
                (fun l1 s => (removable B bv s.1 \/ removed_as_unused B s.1)
                             /\ (depAB ∈ l1 -> removed_as_unused B s.1))
                (DependsList av)) as Hloop.
  destruct (Hloop) with (l0 := @nil Dependency) (s := (mark_delete_head A purge unused_delete c, [A]))
                        (s' := (c', v')) as (_ & Hfinal).
  - intros l1 dep [c0 v0] [c1 v1] _ (Hpend & Hdone) Hf. simpl in Hpend, Hdone |- *.
    split.
    + eapply (cascade_dep_preserves
                (fun c2 => removable B bv c2 \/ removed_as_unused B c2));
        [|exact Hf|exact Hpend].
      intros p v2 c2 c3 v3 Hr H2. simpl in Hr.
      exact (rec_keeps_pending _ _ _ _ _ _ Hr H2).
    + intros Hmem. apply elem_of_app in Hmem as [Hmem|Hmem].
      * eapply (cascade_dep_preserves (removed_as_unused B)); [|exact Hf|auto].
        intros p v2 c2 c3 v3 Hr H2. simpl in Hr.
        exact (rec_keeps_removed _ _ _ _ _ _ Hr H2).
      * apply list_elem_of_singleton in Hmem. subst dep.
        eapply cascade_dep_on_target; eauto.
  - simpl. split; [left; exact Hhead|]. intros Hmem. inversion Hmem.
  - exact Hrun.
  - apply Hfinal. exact Hin.
Qed.

Lemma visited_ok_length (n : nat) (v : list PkgID) :
  visited_ok n v -> length v <= length (PkgList (cache env)).
Proof.
  intros (Hnd & Hin & _). apply submseteq_length. apply NoDup_submseteq; auto.
Qed.

Lemma cascade_dep_total (n : nat)
    (rec : PkgID -> list PkgID -> aptitudeDepCache D
           -> option (aptitudeDepCache D * list PkgID))
    (dep : Dependency) (c : aptitudeDepCache D) (v : list PkgID) :
  (forall p vv cc, p ∈ PkgList (cache env) -> visited_ok n vv ->
     exists c' v', rec p vv cc = Some (c', v') /\ visited_ok n v') ->
  dep_TargetPkg dep ∈ PkgList (cache env) ->
  (forall prv, prv ∈ ProvidesList (dep_TargetPkg dep) ->
               prv_OwnerPkg prv ∈ PkgList (cache env)) ->
  visited_ok n v ->
  exists c' v', cascade_dep rec dep (c, v) = Some (c', v') /\ visited_ok n v'.
Proof.
  intros Hrec Htgt Hprv Hv. unfold cascade_dep.
  destruct (negb (considered keep_recommends_installed keep_suggests_installed dep));
    [eauto|].
  destruct (is_virtual env (dep_TargetPkg dep)).
  - destruct (foldM_inv
                (fun dep_prv '(c0, visited) =>
                   if negb (can_remove (dep_TargetPkg dep) c0) then Some (c0, visited)
                   else if negb (is_auto_installed env (state_of c0 (prv_OwnerPkg dep_prv)))
                           || negb (can_remove (prv_OwnerPkg dep_prv) c0)
                   then Some (c0, visited)
                   else rec (prv_OwnerPkg dep_prv) visited c0)
                (fun s => visited_ok n s.2) (ProvidesList (dep_TargetPkg dep)) (c, v))
      as ([c' v'] & Hf & Hok).
    + intros prv [c0 v0] H0 Hin. simpl in H0.
      destruct (negb (can_remove (dep_TargetPkg dep) c0)); [eauto|].
      destruct (negb (is_auto_installed env (state_of c0 (prv_OwnerPkg prv)))
                || negb (can_remove (prv_OwnerPkg prv) c0)); [eauto|].
      destruct (Hrec (prv_OwnerPkg prv) v0 c0 (Hprv prv Hin) H0) as (c1 & v1 & Hr & H1).
      exists (c1, v1). auto.
    + exact Hv.
    + exists c', v'. auto.
  - destruct (CurrentVer (dep_TargetPkg dep)) as [dv|]; [|eauto].
    destruct (is_installed env (dep_TargetPkg dep)
              && is_auto_installed env (state_of c (dep_TargetPkg dep))
              && is_not_required (state_of c (dep_TargetPkg dep)) dv); [|eauto].
    destruct (negb (can_remove (dep_TargetPkg dep) c)); [eauto|].
    apply Hrec; auto.
Qed.

(** The recursion returns: with more fuel than there are listed packages
    outside the visited list, whatever cycles the dependencies make. *)
Lemma internal_mark_delete_rec_total :
  cache_closed ->
  forall fuel X purge unused_delete v c,
    X ∈ PkgList (cache env) -> visited_ok 0 v ->
    length (PkgList (cache env)) < fuel + length v ->
    exists c' v',
      internal_mark_delete_rec fuel X purge unused_delete v c = Some (c', v')
      /\ visited_ok (length v) v'.
Proof.
  intros Hclosed. induction fuel as [|fuel IH]; intros X purge unused_delete v c HX Hv Hfuel.
  { pose proof (visited_ok_length 0 v Hv). lia. }
  assert (Hvv : visited_ok (length v) v).
  { destruct Hv as (Hnd & Hin & _). repeat split; auto. }
  simpl.
  destruct (is_self X); [eauto|].
  destruct (negb (FindB (aptcfg env) (PACKAGE +:+ "::Delete-Unused") true)); [eauto|].
  destruct (CurrentVer X) as [cur|] eqn:Hcur; [|eauto].
  destruct (decide (X ∈ v)) as [Hin|Hout]; [eauto|].
  assert (Hv1 : visited_ok (S (length v)) (v ++ [X])).
  { destruct Hv as (Hnd & Hsub & _). split; [|split].
    - apply NoDup_app. split; [exact Hnd|]. split.
      + intros x Hx Hx'. apply list_elem_of_singleton in Hx'. subst x. contradiction.
      + apply NoDup_singleton.
    - intros x Hx. apply elem_of_app in Hx as [Hx|Hx]; [auto|].
      apply list_elem_of_singleton in Hx. subst x. exact HX.
    - rewrite length_app. simpl. lia. }
  destruct (foldM_inv
              (cascade_dep
                 (fun p visited c0 =>
                    internal_mark_delete_rec fuel p
                      (FindB (aptcfg env) (PACKAGE +:+ "::Purge-Unused") false) true
                      visited c0))
              (fun s => visited_ok (S (length v)) s.2) (DependsList cur)
              (mark_delete_head X purge unused_delete c, v ++ [X]))
    as ([c' v'] & Hf & Hok).
  - intros dep [c0 v0] H0 Hin. simpl in H0.
    destruct (Hclosed X cur dep HX Hcur Hin) as (Htgt & Hprv).
    destruct (cascade_dep_total (S (length v))
                (fun p visited c1 =>
                   internal_mark_delete_rec fuel p
                     (FindB (aptcfg env) (PACKAGE +:+ "::Purge-Unused") false) true
                     visited c1) dep c0 v0) as (c1 & v1 & Hstep & H1); auto.
    + intros p vv cc Hp Hvv'.
      destruct (IH p (FindB (aptcfg env) (PACKAGE +:+ "::Purge-Unused") false) true vv cc Hp)
        as (c2 & v2 & Hr & H2).
      * destruct Hvv' as (Hnd & Hsub & _). repeat split; auto. lia.
      * destruct Hvv' as (_ & _ & Hlen). lia.
      * exists c2, v2. split; [exact Hr|].
        destruct H2 as (Hnd & Hsub & Hlen2). destruct Hvv' as (_ & _ & Hlen).
        repeat split; auto. lia.
    + exists (c1, v1). auto.
  - exact Hv1.
  - exists c', v'. split; [exact Hf|].
    destruct Hok as (Hnd & Hsub & Hlen). simpl in *. repeat split; auto. lia.
Qed.

(** C3, as the code has it.  Let A have a current version with a Depends
    or PreDepends on B, and let B be another package that is not
    virtual, is installed with a current version whose [Automatic()]
    holds, is marked Auto, carries neither the Essential nor the
    Important flag nor priority Important or Required, and has no
    considered reverse dependency from a package other than A that is
    installed and not being deleted, or to be installed.  Let neither A
    nor B be the installed aptitude package, and let B not be scheduled
    for removal already for another reason than unused.  Then, with
    Delete-Unused on and an engine that honours [MarkDelete], the removal
    of A returns, whatever cycles the dependencies make, and leaves B in
    mode Delete with remove_reason unused and with selection state Purge
    under Purge-Unused and DeInstall otherwise. *)
Theorem cascading_delete_removes_unused_dependency
    (A : PkgID) (av : VerID) (depAB : Dependency) (purge unused_delete : bool)
    (c : aptitudeDepCache D) :
  FindB (aptcfg env) (PACKAGE +:+ "::Delete-Unused") true = true ->
  cache_closed -> A ∈ PkgList (cache env) ->
  is_self A = false -> CurrentVer A = Some av ->
  depAB ∈ DependsList av -> is_strong depAB = true -> dep_TargetPkg depAB = B ->
  A <> B ->
  is_self B = false -> is_virtual env B = false -> is_installed env B = true ->
  CurrentVer B = Some bv -> ver_Automatic (Ver (cache env) bv) = true ->
  is_auto_installed env (state_of c B) = true ->
  is_not_required (state_of c B) bv = true ->
  (Delete (state_of c B) = false \/ remove_reason (package_states c B) = unused) ->
  (forall rd, rd ∈ RevDependsList B ->
     considered keep_recommends_installed keep_suggests_installed rd = true ->
     dep_ParentPkg rd = A \/ installed_or_to_be (depcache c) (dep_ParentPkg rd) = false) ->
  exists c',
    internal_mark_delete A purge unused_delete c = Some c'
    /\ Mode (state_of c' B) = ModeDelete
    /\ remove_reason (package_states c' B) = unused
    /\ selection_state (package_states c' B) =
         (if FindB (aptcfg env) (PACKAGE +:+ "::Purge-Unused") false
          then State.Purge else State.DeInstall).
Proof.
  intros Hon Hclosed HA HselfA HcurA Hin Hstrong Htgt Hne HselfB Hvirt Hinst HcurB
    Hautom Hauto Hreq Hwhy Hrd.
  unfold internal_mark_delete.
  destruct (internal_mark_delete_rec_total Hclosed
              (S (length (PkgList (cache env)))) A purge unused_delete [] c HA)
    as (c' & v' & Hrun & _).
  { repeat split; [apply NoDup_nil_2 | intros x Hx; inversion Hx | simpl; lia]. }
  { simpl. lia. }
  rewrite Hrun. exists c'. split; [reflexivity|].
  exact (cascade_removes_target _ A av depAB purge unused_delete c c' v'
           Hon HselfA HcurA Hin Hstrong Htgt Hne HselfB Hvirt Hinst HcurB Hautom
           Hauto Hreq Hwhy Hrd Hrun).
Qed.

End Cascade.

(** *** The marking of the removed package itself *)




(** *** Undo records *)









(** ** Further properties of the engine *)

(** *** The commit-time diff *)

Lemma primary_change_same (st : StateCache) (e : aptitude_state) :
  primary_change st st e e = false.
Proof.
  unfold primary_change. rewrite Z.eqb_refl.
  rewrite !bool_decide_eq_true_2 by reflexivity. reflexivity.
Qed.

Lemma cosmetic_change_same (st : StateCache) (e : aptitude_state) :
  cosmetic_change st st e e = false.
Proof.
  unfold cosmetic_change. rewrite !Z.eqb_refl.
  rewrite !bool_decide_eq_true_2 by reflexivity. reflexivity.
Qed.

(** X1. The diff of a cache against the snapshot just taken of it finds
    nothing: [cleanup_after_change] after [duplicate_cache] adds no undo
    item, reports no changed package and leaves the cache as it is,
    whatever [alter_stickies] says. *)
Theorem cleanup_after_fresh_snapshot (undo : option undo_group) (alter_stickies : bool)
    (c : aptitudeDepCache D) :
  cleanup_after_change undo alter_stickies (duplicate_cache c)
  = (duplicate_cache c, undo, ∅).
Proof.
  unfold cleanup_after_change. simpl.
  set (bak := {| snap_PkgState := PkgState E (depcache c);
                 snap_AptitudeState := package_states c |}).
  induction (PkgList (cache env)) as [|p l IH]; [reflexivity|].
  assert (Hstep : cleanup_step bak alter_stickies (duplicate_cache c, undo, ∅) p
                  = (duplicate_cache c, undo, ∅)).
  { unfold cleanup_step. cbv zeta.
    change (state_of (duplicate_cache c) p) with (PkgState E (depcache c) p).
    change (package_states (duplicate_cache c) p) with (package_states c p).
    change (snap_PkgState bak p) with (PkgState E (depcache c) p).
    change (snap_AptitudeState bak p) with (package_states c p).
    rewrite primary_change_same, cosmetic_change_same. reflexivity. }
  cbn [fold_left]. rewrite Hstep. exact IH.
Qed.

Lemma same_marks_refl (e : aptitude_state) : same_marks e e.
Proof. repeat split. Qed.

Lemma same_marks_trans (e1 e2 e3 : aptitude_state) :
  same_marks e1 e2 -> same_marks e2 e3 -> same_marks e1 e3.
Proof.
  intros (a1 & a2 & a3 & a4 & a5 & a6 & a7 & a8) (b1 & b2 & b3 & b4 & b5 & b6 & b7 & b8).
  repeat split; congruence.
Qed.

(** [alter_sticky] writes the selection state and the remove_reason of
    its package and nothing else. *)
Lemma alter_sticky_frame (pkg : PkgID) (c : aptitudeDepCache D) :
  depcache (alter_sticky pkg c) = depcache c
  /\ dirty (alter_sticky pkg c) = dirty c
  /\ (forall q, q <> pkg -> package_states (alter_sticky pkg c) q = package_states c q)
  /\ same_marks (package_states c pkg) (package_states (alter_sticky pkg c) pkg).
Proof.
  unfold alter_sticky.
  destruct (Mode (state_of c pkg));
    repeat match goal with
           | |- context [if ?b then _ else _] => destruct b
           end;
    (split; [reflexivity|]); (split; [reflexivity|]);
    (split; [intros q Hq; rewrite ?package_states_upd_other by exact Hq; reflexivity|]);
    rewrite ?package_states_upd_same; repeat split.
Qed.

(** X2. [cleanup_after_change] against a snapshot leaves the engine state
    alone and, for a cache that lists every package once, adds to the undo
    group exactly one item per package that differs from the snapshot in
    mode, Auto flag, selection state, reinstall flag, remove_reason or
    forbidden version, in the order of the cache, each holding the
    snapshot's values for its package.  The changed set holds these
    packages and those with a cosmetic difference.  The extended state is
    modified only where [alter_stickies] is set, for a package whose mode
    differs from the snapshot while its selection state does not, and
    only in selection state and remove_reason. *)
Theorem cleanup_after_change_records (undo : option undo_group) (alter_stickies : bool)
    (bak : apt_state_snapshot) (c : aptitudeDepCache D) :
  backup_state c = Some bak ->
  NoDup (PkgList (cache env)) ->
  let '(c', undo', changed) := cleanup_after_change undo alter_stickies c in
  depcache c' = depcache c
  /\ undo' = match undo with
             | Some items =>
                 Some (items
                       ++ map (fun p => state_restorer p (snap_PkgState bak p)
                                          (snap_AptitudeState bak p))
                              (filter (fun p => changed_since bak c p = true)
                                      (PkgList (cache env))))
             | None => None
             end
  /\ (forall p, p ∈ changed <-> p ∈ PkgList (cache env) /\ touched_since bak c p = true)
  /\ (forall p, same_marks (package_states c p) (package_states c' p))
  /\ (forall p, package_states c' p <> package_states c p ->
        alter_stickies = true /\ p ∈ PkgList (cache env)
        /\ Mode (state_of c p) <> Mode (snap_PkgState bak p)
        /\ selection_state (package_states c p)
           = selection_state (snap_AptitudeState bak p)).
Proof.
  intros Hbak Hnd. unfold cleanup_after_change. rewrite Hbak.
  set (restorer := fun p => state_restorer p (snap_PkgState bak p)
                              (snap_AptitudeState bak p)).
  pose (Inv := fun (l1 : list PkgID)
                   (s : aptitudeDepCache D * option undo_group * gset PkgID) =>
                 depcache s.1.1 = depcache c
                 /\ s.1.2 = match undo with
                            | Some items =>
                                Some (items
                                      ++ map restorer
                                           (filter (fun p => changed_since bak c p = true) l1))
                            | None => None
                            end
                 /\ (forall p, p ∈ s.2 <-> p ∈ l1 /\ touched_since bak c p = true)
                 /\ (forall p, same_marks (package_states c p) (package_states s.1.1 p))
                 /\ (forall p, p ∉ l1 -> package_states s.1.1 p = package_states c p)
                 /\ (forall p, package_states s.1.1 p <> package_states c p ->
                       alter_stickies = true /\ p ∈ l1
                       /\ Mode (state_of c p) <> Mode (snap_PkgState bak p)
                       /\ selection_state (package_states c p)
                          = selection_state (snap_AptitudeState bak p))).
  assert (Hfold : Inv (PkgList (cache env))
                    (fold_left (cleanup_step bak alter_stickies) (PkgList (cache env))
                               (c, undo, ∅))).
  { apply (fold_left_split_inv (cleanup_step bak alter_stickies) Inv).
    - intros l1 a l2 [[c1 u1] ch1] Heq (Hd & Hu & Hch & Hsm & Hout & Hdiff).
      simpl in Hd, Hu, Hch, Hsm, Hout, Hdiff.
      assert (Ha : a ∉ l1).
      { rewrite Heq in Hnd. apply NoDup_app in Hnd as (_ & Hdisj & _).
        intros Hin. apply (Hdisj a Hin). left. }
      assert (Hsta : state_of c1 a = state_of c a) by (unfold state_of; rewrite Hd; reflexivity).
      assert (Hexa : package_states c1 a = package_states c a) by (apply Hout; exact Ha).
      assert (Hfilter : filter (fun p => changed_since bak c p = true) (l1 ++ [a])
                        = filter (fun p => changed_since bak c p = true) l1
                          ++ (if changed_since bak c a then [a] else [])).
      { rewrite filter_app. f_equal. rewrite filter_cons, filter_nil.
        destruct (changed_since bak c a); reflexivity. }
      unfold cleanup_step. cbv zeta. rewrite Hsta, Hexa.
      fold (changed_since bak c a).
      assert (Htouch : touched_since bak c a
                       = changed_since bak c a
                         || cosmetic_change (state_of c a) (snap_PkgState bak a)
                              (package_states c a) (snap_AptitudeState bak a))
        by reflexivity.
      destruct (changed_since bak c a) eqn:Hchg.
      + set (c2 := if alter_stickies
                      && negb (bool_decide (Mode (state_of c a) = Mode (snap_PkgState bak a)))
                      && bool_decide (selection_state (package_states c a)
                                      = selection_state (snap_AptitudeState bak a))
                   then alter_sticky a (emit pre_package_state_changed c1)
                   else emit pre_package_state_changed c1).
        assert (Hc2 : depcache c2 = depcache c1
                      /\ (forall q, q <> a -> package_states c2 q = package_states c1 q)
                      /\ same_marks (package_states c1 a) (package_states c2 a)
                      /\ (package_states c2 a <> package_states c1 a ->
                          alter_stickies = true
                          /\ Mode (state_of c a) <> Mode (snap_PkgState bak a)
                          /\ selection_state (package_states c a)
                             = selection_state (snap_AptitudeState bak a))).
        { assert (Hnoop : depcache (emit pre_package_state_changed c1) = depcache c1
                      /\ (forall q, q <> a -> package_states (emit pre_package_state_changed c1) q
                                              = package_states c1 q)
                      /\ same_marks (package_states c1 a)
                           (package_states (emit pre_package_state_changed c1) a)
                      /\ (package_states (emit pre_package_state_changed c1) a
                          <> package_states c1 a ->
                          alter_stickies = true
                          /\ Mode (state_of c a) <> Mode (snap_PkgState bak a)
                          /\ selection_state (package_states c a)
                             = selection_state (snap_AptitudeState bak a))).
          { split; [reflexivity|]. split; [intros q _; reflexivity|].
            split; [apply same_marks_refl|]. intros Hx. contradiction Hx. reflexivity. }
          unfold c2.
          destruct alter_stickies; simpl; [|exact Hnoop].
          destruct (decide (Mode (state_of c a) = Mode (snap_PkgState bak a))) as [Hm|Hm].
          { rewrite (bool_decide_eq_true_2 _ Hm). simpl. exact Hnoop. }
          rewrite (bool_decide_eq_false_2 _ Hm). simpl.
          destruct (decide (selection_state (package_states c a)
                            = selection_state (snap_AptitudeState bak a))) as [Hs|Hs].
          2: { rewrite (bool_decide_eq_false_2 _ Hs). exact Hnoop. }
          rewrite (bool_decide_eq_true_2 _ Hs).
          destruct (alter_sticky_frame a (emit pre_package_state_changed c1))
            as (Hd2 & _ & Hoth2 & Hsm2).
          split; [exact Hd2|]. split; [exact Hoth2|]. split; [exact Hsm2|]. auto. }
        destruct Hc2 as (Hd2 & Hoth2 & Hsm2 & Hwhy2).
        unfold Inv. simpl. split; [congruence|]. split.
        { rewrite Hu, Hfilter. destruct undo as [items|]; simpl; [|reflexivity].
          rewrite map_app, app_assoc. reflexivity. }
        split.
        { intros p. rewrite elem_of_union, elem_of_singleton, Hch, elem_of_app,
            list_elem_of_singleton.
          split.
          - intros [-> | (Hin & Ht)]; [|auto].
            split; [right; reflexivity|]. rewrite Htouch. reflexivity.
          - intros ([Hin | ->] & Ht); auto. }
        split.
        { intros p. destruct (decide (p = a)) as [->|Hne].
          - apply (same_marks_trans _ (package_states c1 a)); [apply Hsm | exact Hsm2].
          - rewrite Hoth2 by exact Hne. apply Hsm. }
        split.
        { intros p Hp. rewrite elem_of_app, list_elem_of_singleton in Hp.
          assert (p <> a) by (intros ->; apply Hp; right; reflexivity).
          rewrite Hoth2 by assumption. apply Hout. intros Hin. apply Hp. left. exact Hin. }
        intros p Hp. destruct (decide (p = a)) as [->|Hne].
        * rewrite <- Hexa in Hp. destruct (Hwhy2 Hp) as (H1 & H2 & H3).
          split; [exact H1|]. split; [apply elem_of_app; right; left|]. auto.
        * rewrite Hoth2 in Hp by exact Hne.
          destruct (Hdiff p Hp) as (H1 & H2 & H3).
          split; [exact H1|]. split; [apply elem_of_app; left; exact H2|]. exact H3.
      + assert (Hrest : forall s' : aptitudeDepCache D * option undo_group * gset PkgID,
                   s'.1.1 = c1 -> s'.1.2 = u1 ->
                   (forall p, p ∈ s'.2 <-> p ∈ l1 ++ [a] /\ touched_since bak c p = true) ->
                   Inv (l1 ++ [a]) s').
        { intros [[c3 u3] ch3] Hc3 Hu3 Hch3. simpl in Hc3, Hu3, Hch3. subst c3 u3.
          unfold Inv. simpl. split; [exact Hd|]. split.
          { rewrite Hu, Hfilter, app_nil_r. reflexivity. }
          split; [exact Hch3|]. split; [exact Hsm|]. split.
          { intros p Hp. apply Hout. intros Hin. apply Hp. apply elem_of_app. left. exact Hin. }
          intros p Hp. destruct (Hdiff p Hp) as (H1 & H2 & H3).
          split; [exact H1|]. split; [apply elem_of_app; left; exact H2|]. exact H3. }
        destruct (cosmetic_change (state_of c a) (snap_PkgState bak a)
                    (package_states c a) (snap_AptitudeState bak a)) eqn:Hcos.
        * apply Hrest; [reflexivity | reflexivity |]. simpl. intros p.
          rewrite elem_of_union, elem_of_singleton, Hch, elem_of_app,
            list_elem_of_singleton.
          split.
          -- intros [-> | (Hin & Ht)]; [|auto].
             split; [right; reflexivity|]. rewrite Htouch. reflexivity.
          -- intros ([Hin | ->] & Ht); auto.
        * apply Hrest; [reflexivity | reflexivity |]. simpl. intros p.
          rewrite Hch, elem_of_app, list_elem_of_singleton.
          split.
          -- intros (Hin & Ht). auto.
          -- intros ([Hin | ->] & Ht); [auto|].
             rewrite Htouch in Ht. discriminate.
    - unfold Inv. simpl. split; [reflexivity|]. split.
      { destruct undo; [rewrite app_nil_r|]; reflexivity. }
      split.
      { intros p. split; [intros H; clear -H; set_solver|].
        intros (H & _). inversion H. }
      split; [intros p; apply same_marks_refl|]. split; [reflexivity|].
      intros p Hp. contradiction Hp. reflexivity. }
  destruct (fold_left (cleanup_step bak alter_stickies) (PkgList (cache env)) (c, undo, ∅))
    as [[c' undo'] changed].
  destruct Hfold as (Hd & Hu & Hch & Hsm & _ & Hdiff). simpl in Hd, Hu, Hch, Hsm, Hdiff.
  auto 10.
Qed.

(** *** sweep, package by package *)

Lemma same_for_refl (q : PkgID) (c : aptitudeDepCache D) : same_for q c c.
Proof. repeat split. Qed.

Lemma same_for_trans (q : PkgID) (c1 c2 c3 : aptitudeDepCache D) :
  same_for q c1 c2 -> same_for q c2 c3 -> same_for q c1 c3.
Proof.
  intros (a1 & a2 & a3 & a4) (b1 & b2 & b3 & b4). repeat split; congruence.
Qed.

(** The turn of [a] in the first loop leaves what [sweep] reads of
    another package. *)
Lemma sweep_classify_other (pu : bool) (c : aptitudeDepCache D) (R B : gset PkgID)
    (a q : PkgID) :
  MarkKeep_frame -> MarkDelete_frame -> Marks_frame_flags -> q <> a ->
  same_for q c (sweep_classify pu (c, R, B) a).1.1.
Proof.
  intros HK HD (_ & HFD & HFK) Hq. unfold sweep_classify.
  destruct (Garbage (state_of c a)).
  - destruct (negb (bool_decide (CurrentVer a = None))
              && negb (bool_decide (CurrentState a = State.ConfigFiles))).
    + destruct (negb (Delete (state_of c a))); [|apply same_for_refl].
      unfold same_for, state_of; simpl.
      rewrite (HD a pu _ q Hq).
      destruct (HFD a pu (depcache c) q Hq) as (-> & ->).
      rewrite !decide_False by exact Hq. auto.
    + unfold same_for, state_of.
      destruct (bool_decide (CurrentVer a = None));
        [destruct (tst (iFlags (PkgState E (depcache c) a)) Purge)|]; simpl;
        rewrite (HK a false false _ q Hq);
        destruct (HFK a false false (depcache c) q Hq) as (-> & ->);
        rewrite !decide_False by exact Hq; auto.
  - destruct (Delete (state_of c a)
              && bool_decide (remove_reason (package_states c a) = unused)).
    + destruct (is_conflicted (CurrentVer a) (depcache c)); apply same_for_refl.
    + apply same_for_refl.
Qed.

(** The turn of a package that is not garbage leaves the cache. *)
Lemma sweep_classify_idle (pu : bool) (c : aptitudeDepCache D) (R B : gset PkgID)
    (a : PkgID) :
  Garbage (state_of c a) = false -> (sweep_classify pu (c, R, B) a).1.1 = c.
Proof.
  intros Hg. unfold sweep_classify. rewrite Hg.
  destruct (Delete (state_of c a)
            && bool_decide (remove_reason (package_states c a) = unused)).
  - destruct (is_conflicted (CurrentVer a) (depcache c)); reflexivity.
  - reflexivity.
Qed.

Lemma sweep_fold_other (pu : bool) (q : PkgID) (l : list PkgID) :
  MarkKeep_frame -> MarkDelete_frame -> Marks_frame_flags -> q ∉ l ->
  forall acc, same_for q acc.1.1 (fold_left (sweep_classify pu) l acc).1.1.
Proof.
  intros HK HD HF. induction l as [|a l IH]; intros Hq acc; simpl.
  - apply same_for_refl.
  - apply not_elem_of_cons in Hq as (Hne & Hq).
    eapply same_for_trans; [|apply IH; exact Hq].
    destruct acc as [[c R] B]. apply sweep_classify_other; auto.
Qed.

(** The extended states after [sweep] are those after its first loop,
    and so are the modes outside the reinstatement set. *)
Lemma sweep_after_first_loop (c : aptitudeDepCache D) :
  FindB (aptcfg env) (PACKAGE +:+ "::Delete-Unused") true = true ->
  exists c',
    sweep c = Some c'
    /\ package_states c' = package_states (sweep_first_loop c).1.1
    /\ dirty c' = dirty (sweep_first_loop c).1.1
    /\ (MarkKeep_frame -> ActionGroup_keeps_Mode ->
        forall q, q ∉ (sweep_first_loop c).1.2 ->
                  Mode (state_of c' q) = Mode (state_of (sweep_first_loop c).1.1 q)).
Proof.
  intros Hon. unfold sweep. rewrite Hon. simpl.
  destruct (sweep_first_loop c) as [[c1 R0] bad]. simpl.
  destruct (sweep_block_spec R0 bad) as (Rf & -> & HsubR & _).
  destruct (sweep_not_orphaned_spec Rf (depcache c1)) as (NO & -> & HsubNO & _).
  eexists. split; [reflexivity|].
  destruct (reinstate_loop (elements NO) c1) as (Hps & _ & Hkeep & _).
  split; [exact Hps|]. split.
  { simpl. clear. generalize (elements NO). intros l. revert c1.
    induction l as [|a l IH]; intros c1; simpl; [reflexivity|]. rewrite IH. reflexivity. }
  intros HKF HAG q Hq. unfold state_of at 1; simpl. rewrite (proj2 (HAG _ q)).
  apply Hkeep; auto. intros Hin. apply elem_of_elements in Hin. apply Hq.
  clear -Hin HsubNO HsubR. set_solver.
Qed.

Lemma sweep_first_loop_dirty (c : aptitudeDepCache D) :
  dirty (sweep_first_loop c).1.1 = dirty c
  /\ forall p, same_marks (package_states c p) (package_states (sweep_first_loop c).1.1 p).
Proof.
  unfold sweep_first_loop.
  apply (fold_left_inv (sweep_classify _)
           (fun _ s => dirty s.1.1 = dirty c
                       /\ forall p, same_marks (package_states c p) (package_states s.1.1 p))
           (PkgList (cache env))) with (l0 := @nil PkgID).
  - intros l1 a [[c1 R] B] (Hd & Hsm) _. simpl in Hd, Hsm.
    assert (Hstep : dirty (sweep_classify
                             (FindB (aptcfg env) (PACKAGE +:+ "::Purge-Unused") false)
                             (c1, R, B) a).1.1 = dirty c1
                    /\ forall p, same_marks (package_states c1 p)
                                   (package_states
                                      (sweep_classify
                                         (FindB (aptcfg env) (PACKAGE +:+ "::Purge-Unused") false)
                                         (c1, R, B) a).1.1 p)).
    { unfold sweep_classify.
      repeat match goal with
             | |- context [if ?b then _ else _] => destruct b
             | |- context [match ?b with Some _ => _ | None => _ end] => destruct b
             end;
        (split; [reflexivity|]); intros p; simpl;
        repeat match goal with
               | |- context [decide ?P] => destruct (decide P)
               end; repeat split. }
    destruct Hstep as (Hd1 & Hsm1). split; [congruence|].
    intros p. eapply same_marks_trans; [apply Hsm | apply Hsm1].
  - simpl. split; [reflexivity|]. intros p. apply same_marks_refl.
Qed.

Lemma unused_removal_same_for (q : PkgID) (c c' : aptitudeDepCache D) :
  same_for q c c' -> unused_removal c' q = unused_removal c q.
Proof.
  intros (Hm & Hg & _ & He). unfold unused_removal, Delete. rewrite Hm, Hg, He. reflexivity.
Qed.

Lemma same_for_ctor (q : PkgID) (c : aptitudeDepCache D) :
  ActionGroup_keeps_Mode -> Marks_frame_flags ->
  same_for q c (on_depcache (ActionGroup_ctor E) c).
Proof.
  intros HAG (HF & _). unfold same_for, state_of; simpl.
  rewrite (proj1 (HAG _ q)). destruct (HF (depcache c) q) as (-> & ->). auto.
Qed.

(** The first loop adds to [reinstated] packages of its list only. *)
Lemma sweep_fold_members (pu : bool) (q : PkgID) (l : list PkgID) :
  forall acc, q ∈ (fold_left (sweep_classify pu) l acc).1.2 -> q ∈ acc.1.2 \/ q ∈ l.
Proof.
  induction l as [|a l IH]; intros acc Hq; simpl in *; [auto|].
  destruct (IH _ Hq) as [Hin | Hin]; [|right; right; exact Hin].
  destruct acc as [[c R] B].
  pose proof (sweep_classify_sets pu c R B a) as Hsets. cbv zeta in Hsets.
  destruct (unused_removal c a);
    [destruct (is_conflicted (CurrentVer a) (depcache c))|];
    destruct Hsets as (Hr & _); rewrite Hr in Hin; simpl; auto.
  apply elem_of_union in Hin as [Hin | Hin]; [|auto].
  apply elem_of_singleton in Hin as ->. right. left.
Qed.

(** A package that is not garbage is left by the first loop, and stays
    out of [reinstated] unless it is a pending unused removal. *)
Lemma sweep_fold_idle (pu : bool) (p : PkgID) (l : list PkgID) :
  MarkKeep_frame -> MarkDelete_frame -> Marks_frame_flags ->
  forall acc, Garbage (state_of acc.1.1 p) = false ->
    same_for p acc.1.1 (fold_left (sweep_classify pu) l acc).1.1
    /\ (unused_removal acc.1.1 p = false -> p ∉ acc.1.2 ->
        p ∉ (fold_left (sweep_classify pu) l acc).1.2).
Proof.
  intros HK HD HF. induction l as [|a l IH]; intros acc Hg; simpl.
  - split; [apply same_for_refl | auto].
  - destruct acc as [[c R] B]. simpl in Hg.
    assert (Hsame : same_for p c (sweep_classify pu (c, R, B) a).1.1).
    { destruct (decide (p = a)) as [<-|Hne].
      - rewrite sweep_classify_idle by exact Hg. apply same_for_refl.
      - apply sweep_classify_other; auto. }
    assert (Hg' : Garbage (state_of (sweep_classify pu (c, R, B) a).1.1 p) = false).
    { destruct Hsame as (_ & -> & _). exact Hg. }
    destruct (IH _ Hg') as (Hrest & Hout).
    split; [eapply same_for_trans; eauto|].
    simpl. intros Hun HpR. apply Hout.
    + rewrite (unused_removal_same_for p c _ Hsame). exact Hun.
    + pose proof (sweep_classify_sets pu c R B a) as Hsets. cbv zeta in Hsets.
      destruct (decide (p = a)) as [<-|Hne].
      * rewrite Hun in Hsets. destruct Hsets as (-> & _). exact HpR.
      * destruct (unused_removal c a);
          [destruct (is_conflicted (CurrentVer a) (depcache c))|];
          destruct Hsets as (-> & _); auto.
        intros Hin. apply elem_of_union in Hin as [Hin | Hin]; [|auto].
        apply elem_of_singleton in Hin. auto.
Qed.

(** X3. [sweep] leaves the packages that the engine does not flag as
    garbage: their extended state is not written, and the mode changes
    for none of them but a pending unused removal (a reinstatement
    candidate).  The engine is assumed to mark one package at a time and
    to leave the Garbage flags inside its action group. *)
Theorem sweep_leaves_what_is_not_garbage (c c' : aptitudeDepCache D) (p : PkgID) :
  MarkKeep_frame -> MarkDelete_frame -> ActionGroup_keeps_Mode -> Marks_frame_flags ->
  sweep c = Some c' ->
  Garbage (state_of c p) = false ->
  package_states c' p = package_states c p
  /\ (unused_removal c p = false -> Mode (state_of c' p) = Mode (state_of c p)).
Proof.
  intros HK HD HAG HF Hs Hg.
  destruct (FindB (aptcfg env) (PACKAGE +:+ "::Delete-Unused") true) eqn:Hon.
  2: { unfold sweep in Hs. rewrite Hon in Hs. simpl in Hs. injection Hs as <-. auto. }
  destruct (sweep_after_first_loop c Hon) as (c2 & Hs2 & Hps & _ & Hmode).
  rewrite Hs in Hs2. injection Hs2 as <-.
  pose proof (same_for_ctor p c HAG HF) as Hctor.
  assert (Hg0 : Garbage (state_of (on_depcache (ActionGroup_ctor E) c, ∅ : gset PkgID,
                                   ∅ : gset PkgID).1.1 p) = false).
  { simpl. destruct Hctor as (_ & -> & _). exact Hg. }
  destruct (sweep_fold_idle (FindB (aptcfg env) (PACKAGE +:+ "::Purge-Unused") false)
              p (PkgList (cache env)) HK HD HF _ Hg0) as (Hloop & Hout).
  fold (sweep_first_loop c) in Hloop, Hout. simpl in Hloop, Hout.
  pose proof (same_for_trans p _ _ _ Hctor Hloop) as (Hm & _ & _ & He).
  split; [rewrite Hps; exact He|].
  intros Hun. rewrite (Hmode HK HAG); [exact Hm|].
  apply Hout; [|clear; set_solver].
  rewrite (unused_removal_same_for p c _ Hctor). exact Hun.
Qed.

(** What the turn of a garbage package does to it. *)
Lemma sweep_classify_garbage (pu : bool) (c : aptitudeDepCache D) (R B : gset PkgID)
    (p : PkgID) :
  MarkDelete_honoured -> MarkKeep_honoured ->
  Garbage (state_of c p) = true ->
  let r := sweep_classify pu (c, R, B) p in
  r.1.2 = R
  /\ if has_installed_version p then
       Mode (state_of r.1.1 p) = ModeDelete
       /\ package_states r.1.1 p
          = (if Delete (state_of c p) then package_states c p
             else with_remove_reason unused
                    (with_selection_state (if pu then State.Purge else State.DeInstall)
                       (package_states c p)))
     else
       Mode (state_of r.1.1 p) = ModeKeep
       /\ package_states r.1.1 p
          = with_selection_state (idle_selection c p) (package_states c p).
Proof.
  intros HDh HKh Hg. unfold sweep_classify, has_installed_version, idle_selection.
  rewrite Hg.
  destruct (negb (bool_decide (CurrentVer p = None))
            && negb (bool_decide (CurrentState p = State.ConfigFiles))).
  - destruct (Delete (state_of c p)) eqn:Hdel; simpl.
    + split; [reflexivity|]. split; [|reflexivity].
      unfold Delete in Hdel. apply bool_decide_eq_true in Hdel. exact Hdel.
    + split; [reflexivity|]. split; [unfold state_of; simpl; apply HDh|].
      rewrite !decide_True by reflexivity. reflexivity.
  - split.
    { destruct (bool_decide (CurrentVer p = None));
        [destruct (tst (iFlags (state_of c p)) Purge)|]; reflexivity. }
    split.
    { unfold state_of. simpl. apply HKh. }
    destruct (bool_decide (CurrentVer p = None));
      [destruct (tst (iFlags (state_of c p)) Purge)|]; simpl;
      rewrite decide_True by reflexivity; reflexivity.
Qed.

(** X4. With Delete-Unused on, [sweep] collects what the engine flags as
    garbage.  A garbage package with an installed version ends in mode
    Delete; unless it was being deleted already, it is recorded as an
    unused removal, with selection state Purge under Purge-Unused and
    DeInstall otherwise.  A garbage package without an installed version
    ends in mode Keep, its selection state set to Install when only its
    configuration is left, and otherwise to Purge or DeInstall as the
    engine's Purge flag says.  Nothing else of the extended state is
    written.  The engine is assumed to honour the two requests, to mark
    one package at a time and to leave the Garbage flags inside its
    action group. *)
Theorem sweep_collects_garbage (c : aptitudeDepCache D) (p : PkgID) :
  FindB (aptcfg env) (PACKAGE +:+ "::Delete-Unused") true = true ->
  NoDup (PkgList (cache env)) -> p ∈ PkgList (cache env) ->
  MarkKeep_frame -> MarkDelete_frame -> ActionGroup_keeps_Mode -> Marks_frame_flags ->
  MarkDelete_honoured -> MarkKeep_honoured ->
  Garbage (state_of c p) = true ->
  exists c',
    sweep c = Some c'
    /\ if has_installed_version p then
         Mode (state_of c' p) = ModeDelete
         /\ package_states c' p
            = (if Delete (state_of c p) then package_states c p
               else with_remove_reason unused
                      (with_selection_state unused_selection (package_states c p)))
       else
         Mode (state_of c' p) = ModeKeep
         /\ package_states c' p
            = with_selection_state (idle_selection c p) (package_states c p).
Proof.
  intros Hon Hnd Hp HK HD HAG HF HDh HKh Hg.
  destruct (sweep_after_first_loop c Hon) as (c' & Hs & Hps & _ & Hmode).
  exists c'. split; [exact Hs|].
  apply list_elem_of_split in Hp as (l1 & l2 & Heq).
  assert (Hl1 : p ∉ l1).
  { rewrite Heq in Hnd. apply NoDup_app in Hnd as (_ & Hdisj & _).
    intros Hin. apply (Hdisj p Hin). left. }
  assert (Hl2 : p ∉ l2).
  { rewrite Heq in Hnd. apply NoDup_app in Hnd as (_ & _ & Hnd).
    apply NoDup_cons in Hnd as (Hnd & _). exact Hnd. }
  set (pu := FindB (aptcfg env) (PACKAGE +:+ "::Purge-Unused") false) in *.
  assert (Hfl : sweep_first_loop c
                = fold_left (sweep_classify pu) l2
                    (sweep_classify pu (sweep_loop_upto l1 c) p)).
  { unfold sweep_first_loop, sweep_loop_upto. rewrite Heq, fold_left_app. reflexivity. }
  assert (Hbefore : same_for p c (sweep_loop_upto l1 c).1.1).
  { eapply same_for_trans; [apply (same_for_ctor p c HAG HF)|].
    apply (sweep_fold_other pu p l1 HK HD HF Hl1
             (on_depcache (ActionGroup_ctor E) c, ∅, ∅)). }
  assert (HR1 : p ∉ (sweep_loop_upto l1 c).1.2).
  { intros Hin. apply sweep_fold_members in Hin as [Hin | Hin]; [|auto].
    simpl in Hin. clear -Hin. set_solver. }
  destruct (sweep_loop_upto l1 c) as [[c1 R1] B1]. simpl in Hbefore, HR1.
  destruct Hbefore as (Hm1 & Hg1 & Hi1 & He1).
  rewrite <- Hg1 in Hg.
  pose proof (sweep_classify_garbage pu c1 R1 B1 p HDh HKh Hg) as Hturn.
  cbv zeta in Hturn. destruct Hturn as (Hr & Hturn).
  pose proof (sweep_fold_other pu p l2 HK HD HF Hl2 (sweep_classify pu (c1, R1, B1) p))
    as Hafter.
  rewrite <- Hfl in Hafter.
  assert (HR0 : p ∉ (sweep_first_loop c).1.2).
  { rewrite Hfl. intros Hin. apply sweep_fold_members in Hin as [Hin | Hin]; [|auto].
    rewrite Hr in Hin. auto. }
  destruct Hafter as (Hm2 & _ & _ & He2).
  rewrite (Hmode HK HAG p HR0), Hps, Hm2, He2.
  set (s2 := sweep_classify pu (c1, R1, B1) p) in *.
  assert (Hdel : Delete (state_of c1 p) = Delete (state_of c p))
    by (unfold Delete; rewrite Hm1; reflexivity).
  assert (Hidle : idle_selection c1 p = idle_selection c p)
    by (unfold idle_selection; rewrite Hi1; reflexivity).
  rewrite Hdel, Hidle, He1 in Hturn. exact Hturn.
Qed.

(** *** What a commit leaves *)

Lemma sweep_marks (c c' : aptitudeDepCache D) :
  sweep c = Some c' ->
  dirty c' = dirty c
  /\ forall p, same_marks (package_states c p) (package_states c' p).
Proof.
  intros Hs.
  destruct (FindB (aptcfg env) (PACKAGE +:+ "::Delete-Unused") true) eqn:Hon.
  2: { unfold sweep in Hs. rewrite Hon in Hs. simpl in Hs. injection Hs as <-.
       split; [reflexivity|]. intros p. apply same_marks_refl. }
  destruct (sweep_after_first_loop c Hon) as (c2 & Hs2 & Hps & Hd & _).
  rewrite Hs in Hs2. injection Hs2 as <-.
  destruct (sweep_first_loop_dirty c) as (Hd1 & Hsm).
  split; [congruence|]. intros p. rewrite Hps. apply Hsm.
Qed.

Lemma cleanup_after_change_marks (undo : option undo_group) (alter_stickies : bool)
    (c : aptitudeDepCache D) :
  let r := cleanup_after_change undo alter_stickies c in
  dirty r.1.1 = dirty c
  /\ (forall p, same_marks (package_states c p) (package_states r.1.1 p))
  /\ match undo with
     | Some items => exists more, r.1.2 = Some (items ++ more)
     | None => r.1.2 = None
     end.
Proof.
  unfold cleanup_after_change.
  destruct (backup_state c) as [bak|].
  2: { simpl. split; [reflexivity|]. split; [intros p; apply same_marks_refl|].
       destruct undo as [items|]; [exists []; rewrite app_nil_r|]; reflexivity. }
  apply (fold_left_inv (cleanup_step bak alter_stickies)
           (fun _ s =>
              dirty s.1.1 = dirty c
              /\ (forall p, same_marks (package_states c p) (package_states s.1.1 p))
              /\ match undo with
                 | Some items => exists more, s.1.2 = Some (items ++ more)
                 | None => s.1.2 = None
                 end)
           (PkgList (cache env))) with (l0 := @nil PkgID).
  - intros l1 a [[c1 u1] ch1] (Hd & Hsm & Hu) _. simpl in Hd, Hsm, Hu.
    unfold cleanup_step. cbv zeta.
    destruct (primary_change _ _ _ _).
    + assert (Hadd : match undo with
                     | Some items =>
                         exists more,
                           add_item (state_restorer a (snap_PkgState bak a)
                                       (snap_AptitudeState bak a)) u1
                           = Some (items ++ more)
                     | None => add_item (state_restorer a (snap_PkgState bak a)
                                           (snap_AptitudeState bak a)) u1 = None
                     end).
      { destruct undo as [items|].
        - destruct Hu as (more & ->). simpl. eexists. rewrite <- app_assoc. reflexivity.
        - rewrite Hu. reflexivity. }
      destruct (alter_stickies && _ && _); simpl.
      * destruct (alter_sticky_frame a (emit pre_package_state_changed c1))
          as (_ & Hd2 & Hoth & Hown).
        split; [rewrite Hd2; exact Hd|]. split; [|exact Hadd].
        intros p. eapply same_marks_trans; [apply Hsm|].
        destruct (decide (p = a)) as [->|Hne]; [exact Hown|].
        rewrite Hoth by exact Hne. apply same_marks_refl.
      * split; [exact Hd|]. split; [exact Hsm | exact Hadd].
    + destruct (cosmetic_change _ _ _ _); simpl; auto.
  - simpl. split; [reflexivity|]. split; [intros p; apply same_marks_refl|].
    destruct undo as [items|]; [exists []; rewrite app_nil_r|]; reflexivity.
Qed.

(** The end of an action group writes the selection state and the
    remove_reason of the extended states at most. *)
Lemma end_action_group_marks (undo undo' : option undo_group)
    (c c' : aptitudeDepCache D) :
  end_action_group undo c = Some (c', undo') ->
  forall p, same_marks (package_states c p) (package_states c' p).
Proof.
  unfold end_action_group.
  destruct (negb (0 <? group_level c)%Z); [discriminate|].
  destruct (group_level c =? 1)%Z.
  2: { intros [= <- <-] p. apply same_marks_refl. }
  destruct (read_only_denied c).
  { intros [= <- <-] p. unfold refuse.
    destruct (group_level c =? 0)%Z; apply same_marks_refl. }
  destruct (sweep (emit enter_sweep c)) as [c1|] eqn:Hsweep; [|discriminate].
  destruct (sweep_marks _ _ Hsweep) as (_ & Hsm1).
  pose proof (cleanup_after_change_marks undo true (emit enter_cleanup_after_change c1))
    as Hcl.
  destruct (cleanup_after_change undo true (emit enter_cleanup_after_change c1))
    as [[c2 undo2] changed].
  cbv zeta in Hcl. simpl in Hcl. destruct Hcl as (_ & Hsm2 & _).
  intros [= <- <-] p. simpl.
  eapply same_marks_trans; [apply Hsm1 | apply Hsm2].
Qed.

(** X5. The end of an action group, at any level and whether or not it
    commits, writes no field of the extended state of a package other
    than its selection state and its remove_reason; it leaves the dirty
    flag, the read-only flag and the errors, and it only appends to the
    undo group it is given. *)
Theorem end_action_group_frame (undo undo' : option undo_group)
    (c c' : aptitudeDepCache D) :
  end_action_group undo c = Some (c', undo') ->
  dirty c' = dirty c /\ read_only c' = read_only c /\ errors c' = errors c
  /\ (forall p, same_marks (package_states c p) (package_states c' p))
  /\ match undo with
     | Some items => exists more, undo' = Some (items ++ more)
     | None => undo' = None
     end.
Proof.
  intros Hend.
  pose proof (end_action_group_marks undo undo' c c' Hend) as Hmarks.
  assert (Hid : match undo with
                | Some items => exists more, undo = Some (items ++ more)
                | None => undo = None
                end).
  { destruct undo as [items|]; [exists []; rewrite app_nil_r|]; reflexivity. }
  unfold end_action_group in Hend.
  destruct (negb (0 <? group_level c)%Z); [discriminate|].
  destruct (group_level c =? 1)%Z.
  2: { injection Hend as <- <-. simpl. repeat split; auto. }
  destruct (read_only_denied c).
  { injection Hend as <- <-. unfold refuse.
    destruct (group_level c =? 0)%Z; simpl; repeat split; auto. }
  destruct (sweep (emit enter_sweep c)) as [c1|] eqn:Hsweep; [|discriminate].
  destruct (sweep_marks _ _ Hsweep) as (Hd1 & _).
  destruct (sweep_shell _ _ Hsweep) as (_ & Hr1 & _ & He1 & _).
  pose proof (cleanup_after_change_marks undo true (emit enter_cleanup_after_change c1))
    as Hcl.
  pose proof (cleanup_after_change_shell undo true (emit enter_cleanup_after_change c1))
    as Hsh.
  destruct (cleanup_after_change undo true (emit enter_cleanup_after_change c1))
    as [[c2 undo2] changed].
  cbv zeta in Hcl. simpl in Hcl, Hsh.
  destruct Hcl as (Hd2 & _ & Hu2). destruct Hsh as (_ & Hr2 & _ & He2 & _).
  injection Hend as <- <-. simpl in *.
  split; [congruence|]. split; [congruence|]. split; [congruence|].
  split; [exact Hmarks | exact Hu2].
Qed.

(** *** mark_install *)

(** X6. [internal_mark_install], the body of [mark_install(pkg, autoinst,
    reinstall)]: whatever the engine's MarkInstall or MarkKeep does to
    the Auto flag, the package leaves with the Auto flag it came with,
    unless it was being garbage-collected (not installed and not to be
    installed, or installed and a pending unused removal), in which case
    it is made manual.  The value is also stored in
    previously_auto_package; selection_state is Install, the reinstall
    flag (extended state and engine flag) is the [reinstall] argument,
    forbidden_version is cleared, the cache is dirty, and the extended
    state of the other packages is left. *)
Theorem internal_mark_install_spec (P : PkgID) (AutoInst reinst : bool)
    (c : aptitudeDepCache D) :
  MarkAuto_sets_Auto -> MarkAuto_keeps_iFlags -> SetReInstall_sets_ReInstall ->
  let c' := internal_mark_install P AutoInst reinst c in
  let final_auto :=
    if set_to_manual_p c P then false else tst (Flags (state_of c P)) Flag.Auto in
  dirty c' = true
  /\ tst (Flags (state_of c' P)) Flag.Auto = final_auto
  /\ tst (iFlags (state_of c' P)) ReInstall = reinst
  /\ package_states c' P
     = with_previously_auto_package final_auto
         (with_forbidver ""%string
            (with_reinstall reinst
               (with_selection_state State.Install (package_states c P))))
  /\ forall q, q <> P -> package_states c' q = package_states c q.
Proof.
  intros HAa HAi HRr c' final_auto. subst c' final_auto.
  unfold internal_mark_install. cbv zeta.
  change (set_to_manual_p (set_dirty true c) P) with (set_to_manual_p c P).
  change (state_of (set_dirty true c) P) with (state_of c P).
  set (fa := if set_to_manual_p c P then false else tst (Flags (state_of c P)) Flag.Auto).
  set (c1 := if negb reinst then on_depcache (MarkInstall E P AutoInst) (set_dirty true c)
             else on_depcache (MarkKeep E P AutoInst true) (set_dirty true c)).
  assert (Hc1 : dirty c1 = true /\ package_states c1 = package_states c)
    by (unfold c1; destruct reinst; simpl; auto).
  destruct Hc1 as (Hd1 & Hp1).
  split; [exact Hd1|]. split; [unfold state_of; simpl; apply HAa|]. split.
  { unfold state_of; simpl. rewrite HAi. apply HRr. }
  split.
  - simpl. rewrite !decide_True by reflexivity. rewrite Hp1. reflexivity.
  - intros q Hq. simpl. rewrite !decide_False by exact Hq. rewrite Hp1. reflexivity.
Qed.

(** *** Held packages and upgrades *)

(** [do_upgrade] reads the engine state, the forbidden version of the
    package and whether its selection state is Hold. *)
Lemma do_upgrade_ext (c0 c1 : aptitudeDepCache D) (p : PkgID) :
  depcache c1 = depcache c0 ->
  forbidver (package_states c1 p) = forbidver (package_states c0 p) ->
  bool_decide (selection_state (package_states c1 p) = State.Hold)
  = bool_decide (selection_state (package_states c0 p) = State.Hold) ->
  do_upgrade c1 p = do_upgrade c0 p.
Proof.
  intros Hd Hf Hh. unfold do_upgrade, is_held, get_ext_state, state_of.
  rewrite Hd, Hf, Hh. reflexivity.
Qed.

Lemma get_upgradable_step_spec (ir : bool) (c0 c1 : aptitudeDepCache D)
    (up : gset PkgID) (a : PkgID) :
  depcache c1 = depcache c0 ->
  (package_states c1 a = package_states c0 a
   \/ (ir = true /\ CurrentVer a <> None
       /\ selection_state (package_states c0 a) = State.Unknown
       /\ package_states c1 a = with_selection_state State.Install (package_states c0 a))) ->
  let r := get_upgradable_step ir (c1, up) a in
  depcache r.1 = depcache c1 /\ dirty r.1 = dirty c1
  /\ (forall q, q <> a -> package_states r.1 q = package_states c1 q)
  /\ package_states r.1 a
     = (if ir && negb (bool_decide (CurrentVer a = None))
           && bool_decide (selection_state (package_states c0 a) = State.Unknown)
        then with_selection_state State.Install (package_states c0 a)
        else package_states c0 a)
  /\ forall q, q ∈ r.2 <->
       q ∈ up
       \/ (q = a /\ CurrentVer a <> None /\ do_upgrade c0 a = true
           /\ (ir = true ->
               selection_state (package_states c0 a) = State.Unknown
               \/ selection_state (package_states c0 a) = State.Install)).
Proof.
  intros Hd Hext r. subst r. unfold get_upgradable_step.
  destruct (decide (CurrentVer a = None)) as [Hcur|Hcur].
  { rewrite (bool_decide_eq_true_2 _ Hcur). simpl.
    split; [reflexivity|]. split; [reflexivity|]. split; [auto|]. split.
    - rewrite andb_false_r. simpl. destruct Hext as [He | (_ & Hn & _)]; [exact He|].
      contradiction.
    - intros q. split; [auto|]. intros [Hq | (_ & Hn & _)]; [exact Hq | contradiction]. }
  rewrite (bool_decide_eq_false_2 _ Hcur). simpl. rewrite andb_true_r.
  assert (Hmem : forall (b : bool) (q : PkgID),
            q ∈ (if b then {[a]} ∪ up else up) <-> q ∈ up \/ (q = a /\ b = true)).
  { intros b q. destruct b.
    - rewrite elem_of_union, elem_of_singleton. split; intros [H | H]; auto.
      destruct H as (H & _). auto.
    - split; [auto|]. intros [H | (_ & H)]; [exact H | discriminate]. }
  destruct ir; simpl.
  - unfold get_ext_state.
    destruct Hext as [He | (_ & _ & Hunk & He)].
    + rewrite He.
      destruct (selection_state (package_states c0 a)) eqn:Hsel; simpl.
      * (* Unknown *)
        split; [reflexivity|]. split; [reflexivity|]. split.
        { intros q Hq. rewrite decide_False by exact Hq. reflexivity. }
        split.
        { rewrite decide_True by reflexivity. rewrite He. reflexivity. }
        intros q. rewrite Hmem.
        rewrite (do_upgrade_ext c0 (upd_ext_state a (with_selection_state State.Install) c1) a);
          [| exact Hd
           | rewrite package_states_upd_same, He; reflexivity
           | rewrite package_states_upd_same, Hsel; reflexivity].
        split; intros [H | H]; auto.
        -- destruct H as (-> & Hu). right. auto.
        -- destruct H as (-> & _ & Hu & _). auto.
      * (* Install *)
        split; [reflexivity|]. split; [reflexivity|]. split; [auto|].
        split; [exact He|].
        intros q. rewrite Hmem.
        rewrite (do_upgrade_ext c0 c1 a Hd); [| rewrite He; reflexivity
                                               | rewrite He; reflexivity].
        split; intros [H | H]; auto.
        -- destruct H as (-> & Hu). right. auto.
        -- destruct H as (-> & _ & Hu & _). auto.
      * split; [reflexivity|]. split; [reflexivity|]. split; [auto|].
        split; [exact He|].
        intros q. split; [auto|]. intros [H | (_ & _ & _ & H)]; [exact H|].
        destruct (H eq_refl); discriminate.
      * split; [reflexivity|]. split; [reflexivity|]. split; [auto|].
        split; [exact He|].
        intros q. split; [auto|]. intros [H | (_ & _ & _ & H)]; [exact H|].
        destruct (H eq_refl); discriminate.
      * split; [reflexivity|]. split; [reflexivity|]. split; [auto|].
        split; [exact He|].
        intros q. split; [auto|]. intros [H | (_ & _ & _ & H)]; [exact H|].
        destruct (H eq_refl); discriminate.
    + rewrite He, Hunk. simpl.
      split; [reflexivity|]. split; [reflexivity|]. split; [auto|].
      split; [exact He|].
      intros q. rewrite Hmem.
      rewrite (do_upgrade_ext c0 c1 a Hd); [| rewrite He; reflexivity
                                             | rewrite He, Hunk; reflexivity].
      split; intros [H | H]; auto.
      * destruct H as (-> & Hu). right. auto.
      * destruct H as (-> & _ & Hu & _). auto.
  - destruct Hext as [He | (Habs & _)]; [|discriminate].
    split; [reflexivity|]. split; [reflexivity|]. split; [auto|].
    split; [exact He|].
    intros q. rewrite Hmem.
    rewrite (do_upgrade_ext c0 c1 a Hd); [| rewrite He; reflexivity
                                           | rewrite He; reflexivity].
    split; intros [H | H]; auto.
    + destruct H as (-> & Hu). right. repeat split; auto. discriminate.
    + destruct H as (-> & _ & Hu & _). auto.
Qed.

(** X7. [get_upgradable] returns exactly the listed packages that have a
    current version, are not held (selection state Hold, or the
    engine's candidate is the forbidden version) and whose policy
    candidate exists and differs from the current version; with
    [ignore_removed], only those whose selection state is Install or
    Unknown.  It never writes the engine state or the dirty flag, and the
    one thing it writes, with [ignore_removed] only, is the selection
    state Install of listed packages that have a current version and
    whose selection state was Unknown. *)
Theorem get_upgradable_spec (ignore_removed : bool) (c : aptitudeDepCache D) :
  let '(c', upgradable) := get_upgradable ignore_removed c in
  (forall p, p ∈ upgradable <->
     p ∈ PkgList (cache env) /\ CurrentVer p <> None /\ do_upgrade c p = true
     /\ (ignore_removed = true ->
         selection_state (package_states c p) = State.Unknown
         \/ selection_state (package_states c p) = State.Install))
  /\ depcache c' = depcache c /\ dirty c' = dirty c
  /\ forall p, package_states c' p
       = if ignore_removed && bool_decide (p ∈ PkgList (cache env))
            && negb (bool_decide (CurrentVer p = None))
            && bool_decide (selection_state (package_states c p) = State.Unknown)
         then with_selection_state State.Install (package_states c p)
         else package_states c p.
Proof.
  unfold get_upgradable.
  pose (I := fun (l1 : list PkgID) (s : aptitudeDepCache D * gset PkgID) =>
               (forall p, p ∈ s.2 <->
                  p ∈ l1 /\ CurrentVer p <> None /\ do_upgrade c p = true
                  /\ (ignore_removed = true ->
                      selection_state (package_states c p) = State.Unknown
                      \/ selection_state (package_states c p) = State.Install))
               /\ depcache s.1 = depcache c /\ dirty s.1 = dirty c
               /\ forall p, package_states s.1 p
                    = if ignore_removed && bool_decide (p ∈ l1)
                         && negb (bool_decide (CurrentVer p = None))
                         && bool_decide (selection_state (package_states c p)
                                         = State.Unknown)
                      then with_selection_state State.Install (package_states c p)
                      else package_states c p).
  assert (HI : I ([] ++ PkgList (cache env))
                 (fold_left (get_upgradable_step ignore_removed) (PkgList (cache env))
                            (c, ∅))).
  { apply fold_left_inv.
    - intros l1 a [c1 up] (Hup & Hd & Hdi & Hps) _. simpl in Hup, Hd, Hdi, Hps.
      assert (Hext : package_states c1 a = package_states c a
                     \/ (ignore_removed = true /\ CurrentVer a <> None
                         /\ selection_state (package_states c a) = State.Unknown
                         /\ package_states c1 a
                            = with_selection_state State.Install (package_states c a))).
      { rewrite (Hps a).
        destruct (ignore_removed && bool_decide (a ∈ l1)
                  && negb (bool_decide (CurrentVer a = None))
                  && bool_decide (selection_state (package_states c a) = State.Unknown))
          eqn:Hcond; [|left; reflexivity].
        right. apply andb_true_iff in Hcond as (Hcond & Hunk).
        apply andb_true_iff in Hcond as (Hcond & Hcur).
        apply andb_true_iff in Hcond as (Hir & _).
        apply bool_decide_eq_true in Hunk. apply negb_true_iff in Hcur.
        apply bool_decide_eq_false in Hcur. auto. }
      destruct (get_upgradable_step_spec ignore_removed c c1 up a Hd Hext)
        as (Hd' & Hdi' & Hoth & Hown & Hmem).
      unfold I. split; [|split; [congruence|split; [congruence|]]].
      + intros p. rewrite Hmem, Hup, elem_of_app, list_elem_of_singleton. split.
        * intros [(H1 & H2) | (-> & H2)]; auto.
        * intros ([H1 | ->] & H2); auto.
      + intros p. destruct (decide (p = a)) as [->|Hne].
        * rewrite Hown.
          rewrite (bool_decide_eq_true_2 (a ∈ l1 ++ [a]))
            by (apply elem_of_app; right; left).
          rewrite andb_true_r. reflexivity.
        * rewrite (Hoth p Hne), (Hps p).
          replace (bool_decide (p ∈ l1 ++ [a])) with (bool_decide (p ∈ l1)); [reflexivity|].
          apply bool_decide_ext. rewrite elem_of_app, list_elem_of_singleton.
          split; [auto|]. intros [H | H]; [exact H | contradiction].
    - unfold I. cbn [fst snd]. split; [|split; [reflexivity|split; [reflexivity|]]].
      + intros p. split; [intros H; clear -H; set_solver|].
        intros (H & _). inversion H.
      + intros p. rewrite (bool_decide_eq_false_2 (p ∈ [])) by (intros H; inversion H).
        rewrite andb_false_r. reflexivity. }
  simpl in HI.
  destruct (fold_left (get_upgradable_step ignore_removed) (PkgList (cache env)) (c, ∅))
    as [c' upgradable].
  exact HI.
Qed.

(** X8. The hooks the engine calls before it acts for a dependency agree
    with [is_held]: for an installed package whose candidate is another
    version than the current one, [IsInstallOk] at depth above 0 answers
    exactly when the package is not held, and [IsDeleteOk] at depth
    above 0 never lets a package with selection state Hold be removed.
    At depth 0, a direct request, both allow the change. *)
Theorem hooks_respect_holds (pkg : PkgID) (AutoInst Purge FromUser : bool) (Depth : N)
    (cv : VerID) (c : aptitudeDepCache D) :
  (IsInstallOk pkg AutoInst 0 FromUser c = true
   /\ IsDeleteOk pkg Purge 0 FromUser c = true)
  /\ (Depth <> 0%N ->
      (CurrentVer pkg <> None -> CandidateVer (state_of c pkg) = Some cv ->
       Some cv <> CurrentVer pkg ->
       IsInstallOk pkg AutoInst Depth FromUser c = negb (is_held c pkg))
      /\ (selection_state (package_states c pkg) = State.Hold ->
          IsDeleteOk pkg Purge Depth FromUser c = false)).
Proof.
  split; [split; reflexivity|].
  intros HD. apply N.eqb_neq in HD. unfold IsInstallOk, IsDeleteOk, is_held.
  rewrite HD. split.
  - intros Hcur Hcand Hne. rewrite Hcand. unfold get_ext_state.
    rewrite (bool_decide_eq_false_2 _ Hcur), (bool_decide_eq_false_2 _ Hne). simpl.
    rewrite andb_true_r.
    destruct (decide (selection_state (package_states c pkg) = State.Hold)) as [Hh|Hh].
    + rewrite (bool_decide_eq_true_2 _ Hh). reflexivity.
    + rewrite (bool_decide_eq_false_2 _ Hh). simpl.
      destruct (decide (VerStr cv = forbidver (package_states c pkg))) as [Hf|Hf].
      * rewrite (bool_decide_eq_true_2 _ Hf).
        rewrite bool_decide_eq_true_2 by (symmetry; exact Hf). reflexivity.
      * rewrite (bool_decide_eq_false_2 _ Hf).
        rewrite bool_decide_eq_false_2 by (intros H; apply Hf; symmetry; exact H).
        reflexivity.
  - intros Hh. unfold get_ext_state. rewrite (bool_decide_eq_true_2 _ Hh).
    destruct (negb (FindB (aptcfg env) (PACKAGE +:+ "::Auto-Install-Remove-Ok") false));
      reflexivity.
Qed.

(** *** New packages *)

Lemma filter_flag_ext (f f' : PkgID -> bool) (l : list PkgID) :
  (forall q, q ∈ l -> f' q = f q) ->
  filter (fun p => f' p = true) l = filter (fun p => f p = true) l.
Proof.
  induction l as [|a l IH]; intros H; [reflexivity|].
  rewrite !filter_cons. rewrite (H a) by left.
  rewrite IH by (intros q Hq; apply H; right; exact Hq). reflexivity.
Qed.

Lemma filter_flag_set (f f' : PkgID -> bool) (l : list PkgID) (pkg : PkgID) :
  NoDup l -> pkg ∈ l -> (forall q, q <> pkg -> f' q = f q) ->
  f pkg = false -> f' pkg = true ->
  length (filter (fun p => f' p = true) l) = S (length (filter (fun p => f p = true) l)).
Proof.
  intros Hnd Hin Hoth Hf Hf'. induction l as [|a l IH]; [inversion Hin|].
  apply NoDup_cons in Hnd as (Ha & Hnd). rewrite !filter_cons.
  destruct (decide (a = pkg)) as [->|Hne].
  - rewrite Hf, Hf'. rewrite decide_True by reflexivity.
    rewrite decide_False by discriminate. simpl. f_equal. f_equal.
    apply filter_flag_ext. intros q Hq. apply Hoth. intros ->. contradiction.
  - apply elem_of_cons in Hin as [Hin | Hin]; [congruence|].
    rewrite (Hoth a Hne). destruct (decide (f a = true)); simpl; rewrite IH; auto.
Qed.

Lemma new_package_with (v : bool) (e : aptitude_state) :
  new_package e = v -> with_new_package v e = e.
Proof. intros <-. destruct e; reflexivity. Qed.

Lemma with_new_package_twice (v w : bool) (e : aptitude_state) :
  with_new_package v (with_new_package w e) = with_new_package v e.
Proof. reflexivity. Qed.

(** X9. [set_new_flag] keeps the counter of new packages equal to the
    number of listed packages flagged as new: in a cache that lists
    every package once, if the counter is that number before the call
    for a listed package, it is that number after it.  Unless the store
    is read-only without permission, the flag of the package then is
    the one asked for and the extended state of the other packages is
    left; the dirty flag is never set by this call. *)
Theorem set_new_flag_keeps_count (pkg : PkgID) (is_new : bool) (s : counted_cache D) :
  NoDup (PkgList (cache env)) -> pkg ∈ PkgList (cache env) ->
  new_package_count s = Z.of_nat (count_new (obj s)) ->
  let s' := set_new_flag pkg is_new s in
  new_package_count s' = Z.of_nat (count_new (obj s'))
  /\ dirty (obj s') = dirty (obj s)
  /\ (read_only_denied (obj s) = false ->
      package_states (obj s') pkg = with_new_package is_new (package_states (obj s) pkg)
      /\ forall q, q <> pkg -> package_states (obj s') q = package_states (obj s) q).
Proof.
  intros Hnd Hin Hcount s'. subst s'. unfold set_new_flag.
  destruct (read_only_denied (obj s)) eqn:Hden.
  { unfold refuse. destruct (group_level (obj s) =? 0)%Z; simpl;
      (split; [exact Hcount|]); (split; [reflexivity | discriminate]). }
  unfold get_ext_state.
  destruct (new_package (package_states (obj s) pkg)) eqn:Hnew; destruct is_new; simpl.
  - split; [exact Hcount|]. split; [reflexivity|]. intros _.
    split; [symmetry; apply new_package_with; exact Hnew | auto].
  - split.
    + unfold count_new in *.
      rewrite (filter_flag_set
                 (fun p => new_package
                             (package_states
                                (upd_ext_state pkg (with_new_package false) (obj s)) p))
                 (fun p => new_package (package_states (obj s) p))
                 (PkgList (cache env)) pkg Hnd Hin) in Hcount.
      * lia.
      * intros q Hq. rewrite package_states_upd_other by exact Hq. reflexivity.
      * rewrite package_states_upd_same. reflexivity.
      * exact Hnew.
    + split; [reflexivity|]. intros _. split.
      * rewrite decide_True by reflexivity. reflexivity.
      * intros q Hq. rewrite decide_False by exact Hq. reflexivity.
  - split.
    + unfold count_new in *.
      rewrite (filter_flag_set
                 (fun p => new_package (package_states (obj s) p))
                 (fun p => new_package
                             (package_states
                                (upd_ext_state pkg (with_new_package true) (obj s)) p))
                 (PkgList (cache env)) pkg Hnd Hin).
      * lia.
      * intros q Hq. rewrite package_states_upd_other by exact Hq. reflexivity.
      * exact Hnew.
      * rewrite package_states_upd_same. reflexivity.
    + split; [reflexivity|]. intros _. split.
      * rewrite decide_True by reflexivity. reflexivity.
      * intros q Hq. rewrite decide_False by exact Hq. reflexivity.
  - split; [exact Hcount|]. split; [reflexivity|]. intros _.
    split; [symmetry; apply new_package_with; exact Hnew | auto].
Qed.

Lemma forget_loop (s : counted_cache D) (l : list PkgID) :
  NoDup l ->
  (Z.of_nat (length (filter (fun p => new_package (package_states (obj s) p) = true) l))
   <= new_package_count s)%Z ->
  let r := fold_left forget_step l (s, Some []) in
  read_only (obj r.1) = read_only (obj s)
  /\ depcache (obj r.1) = depcache (obj s)
  /\ reloads r.1 = reloads s
  /\ (forall p, package_states (obj r.1) p
                = if bool_decide (p ∈ l)
                  then with_new_package false (package_states (obj s) p)
                  else package_states (obj s) p)
  /\ new_package_count r.1
     = (new_package_count s
        - Z.of_nat (length (filter (fun p => new_package (package_states (obj s) p) = true)
                                   l)))%Z
  /\ r.2 = Some (filter (fun p => new_package (package_states (obj s) p) = true) l).
Proof.
  intros Hnd Hle.
  set (isnew := fun p => new_package (package_states (obj s) p) = true) in *.
  pose (I := fun (l1 : list PkgID) (r : counted_cache D * option (list PkgID)) =>
              read_only (obj r.1) = read_only (obj s)
              /\ depcache (obj r.1) = depcache (obj s)
              /\ reloads r.1 = reloads s
              /\ (forall p, package_states (obj r.1) p
                            = if bool_decide (p ∈ l1)
                              then with_new_package false (package_states (obj s) p)
                              else package_states (obj s) p)
              /\ new_package_count r.1
                 = (new_package_count s - Z.of_nat (length (filter isnew l1)))%Z
              /\ r.2 = Some (filter isnew l1)).
  assert (H : I l (fold_left forget_step l (s, Some []))); [|exact H].
  apply (fold_left_split_inv forget_step I).
  - intros l1 a l2 [s1 u1] Heq (Hro & Hd & Hrl & Hps & Hc & Hu). unfold I. simpl in *.
    assert (Ha : a ∉ l1).
    { rewrite Heq in Hnd. apply NoDup_app in Hnd as (_ & Hdisj & _).
      intros Hin. apply (Hdisj a Hin). left. }
    assert (Hown : package_states (obj s1) a = package_states (obj s) a).
    { rewrite (Hps a). rewrite bool_decide_eq_false_2 by exact Ha. reflexivity. }
    assert (Hfa : filter isnew (l1 ++ [a])
                  = filter isnew l1
                    ++ (if new_package (package_states (obj s) a) then [a] else [])).
    { rewrite filter_app. f_equal. rewrite filter_cons, filter_nil. unfold isnew.
      destruct (new_package (package_states (obj s) a)); reflexivity. }
    assert (Hmem : forall p, bool_decide (p ∈ l1 ++ [a])
                             = bool_decide (p ∈ l1) || bool_decide (p = a)).
    { intros p. apply eq_true_iff_eq.
      rewrite orb_true_iff, !bool_decide_eq_true, elem_of_app, list_elem_of_singleton.
      reflexivity. }
    rewrite Hown.
    destruct (new_package (package_states (obj s) a)) eqn:Hnew.
    + assert (Hpos : (0 < new_package_count s1)%Z).
      { rewrite Hc. rewrite Heq in Hle.
        rewrite filter_app, (filter_cons_True isnew a l2 Hnew), length_app in Hle.
        simpl in Hle. lia. }
      apply Z.ltb_lt in Hpos. rewrite Hpos. simpl.
      split; [exact Hro|]. split; [exact Hd|]. split; [exact Hrl|]. split; [|split].
      * intros p. rewrite Hmem.
        destruct (decide (p = a)) as [->|Hne].
        -- rewrite (bool_decide_eq_true_2 (a = a)) by reflexivity. rewrite orb_true_r. rewrite Hown. reflexivity.
        -- rewrite (bool_decide_eq_false_2 _ Hne), orb_false_r. apply Hps.
      * rewrite Hfa, length_app. simpl. lia.
      * rewrite Hu, Hfa. reflexivity.
    + simpl. split; [exact Hro|]. split; [exact Hd|]. split; [exact Hrl|]. split; [|split].
      * intros p. rewrite Hmem.
        destruct (decide (p = a)) as [->|Hne].
        -- rewrite (bool_decide_eq_true_2 (a = a)) by reflexivity. rewrite orb_true_r.
           rewrite (new_package_with false) by exact Hnew. exact Hown.
        -- rewrite (bool_decide_eq_false_2 _ Hne), orb_false_r. apply Hps.
      * rewrite Hfa, app_nil_r. exact Hc.
      * rewrite Hu, Hfa, app_nil_r. reflexivity.
  - unfold I. simpl. repeat split; auto. lia.
Qed.

Lemma forget_undo_loop (s : counted_cache D) (u : list PkgID) :
  NoDup u -> read_only_denied (obj s) = false ->
  (forall i, i ∈ u -> new_package (package_states (obj s) i) = false) ->
  let r := fold_left (fun s i => set_new_flag i true s) u s in
  (forall p, package_states (obj r) p
             = if bool_decide (p ∈ u)
               then with_new_package true (package_states (obj s) p)
               else package_states (obj s) p)
  /\ new_package_count r = (new_package_count s + Z.of_nat (length u))%Z
  /\ dirty (obj r) = dirty (obj s) /\ depcache (obj r) = depcache (obj s)
  /\ reloads r = reloads s.
Proof.
  intros Hnd Hden Hold.
  assert (H : (fun l1 r =>
                 read_only (obj r) = read_only (obj s)
                 /\ (forall p, package_states (obj r) p
                               = if bool_decide (p ∈ l1)
                                 then with_new_package true (package_states (obj s) p)
                                 else package_states (obj s) p)
                 /\ new_package_count r = (new_package_count s + Z.of_nat (length l1))%Z
                 /\ dirty (obj r) = dirty (obj s) /\ depcache (obj r) = depcache (obj s)
                 /\ reloads r = reloads s)
              u (fold_left (fun s i => set_new_flag i true s) u s)).
  { apply (fold_left_split_inv (fun s i => set_new_flag i true s)).
    - intros l1 a l2 s1 Heq (Hro & Hps & Hc & Hdi & Hd & Hrl).
      assert (Ha : a ∉ l1).
      { rewrite Heq in Hnd. apply NoDup_app in Hnd as (_ & Hdisj & _).
        intros Hin. apply (Hdisj a Hin). left. }
      assert (Hown : new_package (package_states (obj s1) a) = false).
      { rewrite (Hps a). rewrite bool_decide_eq_false_2 by exact Ha.
        apply Hold. rewrite Heq. apply elem_of_app. right. left. }
      assert (Hden1 : read_only_denied (obj s1) = false).
      { unfold read_only_denied in *. rewrite Hro. exact Hden. }
      unfold set_new_flag. rewrite Hden1. unfold get_ext_state. rewrite Hown. simpl.
      split; [exact Hro|]. split; [|split; [|auto]].
      + intros p. destruct (decide (p = a)) as [->|Hne].
        * rewrite bool_decide_eq_true_2 by (apply elem_of_app; right; left).
          rewrite (Hps a). rewrite bool_decide_eq_false_2 by exact Ha. reflexivity.
        * rewrite (Hps p).
          replace (bool_decide (p ∈ l1 ++ [a])) with (bool_decide (p ∈ l1)); [reflexivity|].
          apply bool_decide_ext. rewrite elem_of_app, list_elem_of_singleton.
          split; [auto|]. intros [Hin | Hin]; [exact Hin | contradiction].
      + rewrite Hc, length_app. simpl. lia.
    - simpl. repeat split; auto. lia. }
  destruct H as (_ & H). exact H.
Qed.

(** X10. Forgetting the new packages can be undone.  In a cache that
    lists every package once, whose counter of new packages is at least
    the number of listed packages flagged as new and which may be
    written, [forget_new] clears the flag of every listed package,
    lowers the counter by their number (to 0 when the counter was that
    number), refreshes the snapshot, sends [cache_reloaded] once, and
    stores in the undoer the packages that were flagged, in the order of
    the cache, or stores nothing when none was.  Applying the undoer
    afterwards gives every package the extended state it had before and
    the counter its old value. *)
Theorem forget_new_undo_round_trip (s : counted_cache D) :
  NoDup (PkgList (cache env)) ->
  read_only_denied (obj s) = false ->
  (Z.of_nat (count_new (obj s)) <= new_package_count s)%Z ->
  let news := filter (fun p => new_package (package_states (obj s) p) = true)
                     (PkgList (cache env)) in
  let '(s1, stored) := forget_new_all true s in
  (forall p, p ∈ PkgList (cache env) -> new_package (package_states (obj s1) p) = false)
  /\ new_package_count s1 = (new_package_count s - Z.of_nat (count_new (obj s)))%Z
  /\ reloads s1 = S (reloads s)
  /\ backup_state (obj s1)
     = Some {| snap_PkgState := PkgState E (depcache (obj s1));
               snap_AptitudeState := package_states (obj s1) |}
  /\ stored = match news with [] => None | _ :: _ => Some news end
  /\ (forall p, package_states (obj (forget_undo news s1)) p = package_states (obj s) p)
  /\ new_package_count (forget_undo news s1) = new_package_count s.
Proof.
  intros Hnd Hden Hcount news.
  unfold forget_new_all, forget_new. rewrite Hden.
  assert (Hle : (Z.of_nat (length news) <= new_package_count s)%Z) by exact Hcount.
  pose proof (forget_loop s (PkgList (cache env)) Hnd Hle) as Hloop.
  cbv zeta in Hloop. fold news in Hloop.
  destruct (fold_left forget_step (PkgList (cache env)) (s, Some [])) as [s1 u1].
  simpl in Hloop. destruct Hloop as (Hro & Hd & Hrl & Hps & Hc & ->).
  assert (Hflag : forall p, p ∈ PkgList (cache env) ->
                            new_package (package_states (obj s1) p) = false).
  { intros p Hp. rewrite (Hps p), (bool_decide_eq_true_2 _ Hp). reflexivity. }
  assert (Hnews : forall i, i ∈ news <->
                    i ∈ PkgList (cache env)
                    /\ new_package (package_states (obj s) i) = true).
  { intros i. unfold news. rewrite list_elem_of_filter. tauto. }
  set (s1' := {| obj := duplicate_cache (obj s1);
                 new_package_count := new_package_count s1;
                 reloads := S (reloads s1) |}).
  assert (Hundo : (forall p, package_states (obj (forget_undo news s1')) p
                             = package_states (obj s) p)
                  /\ new_package_count (forget_undo news s1') = new_package_count s).
  { destruct (forget_undo_loop s1' news) as (Hps2 & Hc2 & _).
    - unfold news. apply NoDup_filter. exact Hnd.
    - unfold read_only_denied in *. simpl. rewrite Hro. exact Hden.
    - intros i Hi. simpl. apply Hflag. apply Hnews in Hi. tauto.
    - unfold forget_undo. simpl. split.
      + intros p. rewrite (Hps2 p). simpl. rewrite (Hps p).
        destruct (decide (p ∈ news)) as [Hin | Hout].
        * rewrite (bool_decide_eq_true_2 _ Hin).
          apply Hnews in Hin as (Hl & Hn). rewrite (bool_decide_eq_true_2 _ Hl).
          rewrite with_new_package_twice. apply new_package_with. exact Hn.
        * rewrite (bool_decide_eq_false_2 _ Hout).
          destruct (decide (p ∈ PkgList (cache env))) as [Hl | Hl].
          -- rewrite (bool_decide_eq_true_2 _ Hl). apply new_package_with.
             destruct (new_package (package_states (obj s) p)) eqn:Hn; [|reflexivity].
             exfalso. apply Hout. apply Hnews. auto.
          -- rewrite (bool_decide_eq_false_2 _ Hl). reflexivity.
      + rewrite Hc2. simpl. rewrite Hc. lia. }
  split; [exact Hflag|]. split.
  { simpl. rewrite Hc. reflexivity. }
  split; [simpl; rewrite Hrl; reflexivity|]. split; [reflexivity|]. split.
  { destruct news; reflexivity. }
  exact Hundo.
Qed.

(** *** The OR group around a dependency *)

Lemma or_group_end_spec (l : list Dependency) (dep : nat) :
  or_flag l (length l - 1) = false ->
  forall fuel e found, e < length l -> length l - e <= fuel ->
    exists e',
      or_group_end fuel l dep e found
      = Some (e', if (e <=? dep) && (dep <? e') then true else found)
      /\ e <= e' < length l
      /\ (forall k, e <= k -> k < e' -> or_flag l k = true)
      /\ or_flag l e' = false.
Proof.
  intros Hwf. induction fuel as [|fuel IH]; intros e found He Hfuel; [lia|].
  simpl. destruct (lookup_lt_is_Some_2 l e He) as (d & Hd). rewrite Hd.
  destruct (tst (dep_CompareOp d) Dep_Or) eqn:Hor.
  - assert (Hflag : or_flag l e = true) by (unfold or_flag; rewrite Hd; exact Hor).
    assert (He1 : S e < length l).
    { destruct (decide (e = length l - 1)) as [->|Hne]; [congruence | lia]. }
    destruct (IH (S e) (if (e =? dep)%nat then true else found) He1 ltac:(lia))
      as (e' & -> & Hrange & Hall & Hlast).
    exists e'. split.
    + f_equal. f_equal.
      destruct (Nat.eqb_spec e dep) as [Heq|Hne];
        destruct (Nat.leb_spec (S e) dep); destruct (Nat.leb_spec e dep);
        destruct (Nat.ltb_spec dep e'); simpl; try reflexivity; lia.
    + split; [lia|]. split; [|exact Hlast].
      intros k Hk1 Hk2. destruct (decide (k = e)) as [->|Hne]; [exact Hflag|].
      apply Hall; lia.
  - exists e. split.
    + f_equal. f_equal.
      destruct (Nat.leb_spec e dep); destruct (Nat.ltb_spec dep e); simpl;
        try reflexivity; lia.
    + split; [lia|]. split; [intros k; lia|].
      unfold or_flag. rewrite Hd. exact Hor.
Qed.

Lemma or_group_search_spec (l : list Dependency) (dep : nat) :
  or_flag l (length l - 1) = false ->
  forall fuel start e found,
    e <= length l -> length l - e < fuel ->
    (e = 0 \/ or_flag l (e - 1) = false) ->
    (found = false -> e <= dep) ->
    (found = true -> or_group l dep start e) ->
    if (dep <? length l)%nat
    then exists s e', or_group_search fuel l dep start e found = Some (s, e')
                      /\ or_group l dep s e'
    else or_group_search fuel l dep start e found = None.
Proof.
  intros Hwf. induction fuel as [|fuel IH]; intros start e found He Hfuel Hb Hnf Hf; [lia|].
  cbn [or_group_search].
  destruct found.
  { rewrite andb_false_r. destruct (Hf eq_refl) as (Hr & Hle & Hrest).
    destruct (Nat.ltb_spec dep (length l)); [|lia].
    exists start, e. split; [reflexivity|]. split; auto. }
  rewrite andb_true_r. specialize (Hnf eq_refl).
  destruct (Nat.ltb_spec e (length l)) as [Hlt | Hge].
  2: { destruct (Nat.ltb_spec dep (length l)); [lia | reflexivity]. }
  destruct (or_group_end_spec l dep Hwf (S (length l)) e false Hlt ltac:(lia))
    as (e' & -> & Hrange & Hall & Hlast).
  apply IH.
  - lia.
  - lia.
  - right. replace (S e' - 1) with e' by lia. exact Hlast.
  - destruct (Nat.eqb_spec e' dep); [discriminate|].
    destruct (Nat.leb_spec e dep); [|lia].
    destruct (Nat.ltb_spec dep e'); simpl; [discriminate|]. intros _. lia.
  - intros Hfound. assert (Hin : e <= dep <= e').
    { destruct (Nat.eqb_spec e' dep); [lia|].
      destruct (Nat.leb_spec e dep); [|lia].
      destruct (Nat.ltb_spec dep e'); simpl in Hfound; [lia | discriminate]. }
    split; [lia|]. split; [lia|]. replace (S e' - 1) with e' by lia.
    split; [|split; [exact Hlast | exact Hb]].
    intros k Hk1 Hk2. apply Hall; lia.
Qed.

(** X11. [surrounding_or_internal] finds the OR group of a dependency.
    When the last dependency of the list carries no Or flag, as in every
    well-formed cache, then for a dependency at a position of the list
    the loops end, the assertion holds, and [start] and [end] delimit
    the group that holds the dependency: every member but the last
    carries the Or flag, and the group begins the list or follows a
    dependency without the flag.  For a position that is not in the list
    the assertion fails. *)
Theorem surrounding_or_internal_spec (l : list Dependency) (dep : nat) :
  or_flag l (length l - 1) = false ->
  (dep < length l ->
   exists s e, surrounding_or_internal l dep = Some (s, e) /\ or_group l dep s e)
  /\ (length l <= dep -> surrounding_or_internal l dep = None).
Proof.
  intros Hwf.
  pose proof (or_group_search_spec l dep Hwf (S (length l)) 0 0 false
                ltac:(lia) ltac:(lia) (or_introl eq_refl) ltac:(lia)
                ltac:(discriminate)) as H.
  fold (surrounding_or_internal l dep) in H.
  split; intros Hd.
  - destruct (Nat.ltb_spec dep (length l)); [exact H | lia].
  - destruct (Nat.ltb_spec dep (length l)); [lia | exact H].
Qed.

(** *** Subsumption of dependencies *)

Lemma version_order_flip (cmp : string -> string -> Z) :
  version_order cmp ->
  forall a b, ((cmp a b < 0)%Z <-> (0 < cmp b a)%Z) /\ (cmp a b = 0%Z <-> cmp b a = 0%Z).
Proof.
  intros (Hanti & _) a b. pose proof (Hanti a b) as H.
  destruct (Z.sgn_spec (cmp a b)) as [(H1 & H2) | [(H1 & H2) | (H1 & H2)]];
    destruct (Z.sgn_spec (cmp b a)) as [(H3 & H4) | [(H3 & H4) | (H3 & H4)]];
    rewrite H2, H4 in H; lia.
Qed.

(** How a version [V] compares with [v1], from how it and [v1] compare
    with [v2]. *)
Lemma version_order_between (cmp : string -> string -> Z) (V v1 v2 : string) :
  version_order cmp ->
  let a := cmp V v2 in
  let b := cmp v1 v2 in
  let g := cmp V v1 in
  ((a <= 0 -> 0 <= b -> g <= 0) /\ (a < 0 -> 0 <= b -> g < 0)
   /\ (a <= 0 -> 0 < b -> g < 0) /\ (0 <= a -> b <= 0 -> 0 <= g)
   /\ (0 < a -> b <= 0 -> 0 < g) /\ (0 <= a -> b < 0 -> 0 < g)
   /\ (b = 0 -> (g = 0 <-> a = 0)))%Z.
Proof.
  intros Hord a b g. subst a b g.
  pose proof (version_order_flip cmp Hord) as Hflip.
  destruct Hord as (_ & Htrans).
  pose proof (Hflip V v1). pose proof (Hflip V v2). pose proof (Hflip v1 v2).
  pose proof (Htrans V v1 v2). pose proof (Htrans V v2 v1).
  pose proof (Htrans v1 V v2). pose proof (Htrans v1 v2 V).
  pose proof (Htrans v2 V v1). pose proof (Htrans v2 v1 V).
  lia.
Qed.

Ltac bools :=
  repeat match goal with
         | H : _ && _ = true |- _ => apply andb_true_iff in H; destruct H
         | H : _ || _ = true |- _ => apply orb_true_iff in H; destruct H
         | H : (_ =? _)%Z = true |- _ => apply Z.eqb_eq in H
         | H : (_ <=? _)%Z = true |- _ => apply Z.leb_le in H
         | H : (_ <? _)%Z = true |- _ => apply Z.ltb_lt in H
         | H : negb _ = true |- _ => apply negb_true_iff in H
         | H : (_ =? _)%Z = false |- _ => apply Z.eqb_neq in H
         end.

(** X12. [subsumes] is sound.  When it answers that [d1] subsumes [d2],
    the two dependencies are on the same package, or neither names a
    version and the target of [d2] owns a provision of the target of
    [d1]; and when they are on the same package, every version that
    satisfies [d2] satisfies [d1].  The version system is assumed to
    compare by a total preorder and to decide [CheckDep] by it. *)
Theorem subsumes_sound (cmp : string -> string -> Z) (d1 d2 : Dependency) :
  version_order cmp -> CheckDep_compares cmp ->
  subsumes cmp d1 d2 = Some true ->
  (dep_TargetPkg d1 = dep_TargetPkg d2
   \/ (unversioned d1 = true /\ unversioned d2 = true
       /\ exists p, p ∈ ProvidesList (dep_TargetPkg d1)
                    /\ prv_OwnerPkg p = dep_TargetPkg d2))
  /\ (dep_TargetPkg d1 = dep_TargetPkg d2 ->
      forall V, V <> ""%string -> check V d2 = true -> check V d1 = true).
Proof.
  intros Hord Hchk Hsub. unfold subsumes in Hsub. cbv zeta in Hsub.
  destruct (unversioned d1) eqn:Hu1.
  - split.
    + destruct (decide (dep_TargetPkg d1 = dep_TargetPkg d2)) as [Heq|Hne]; [left; exact Heq|].
      rewrite (bool_decide_eq_false_2 _ Hne) in Hsub.
      destruct (unversioned d2) eqn:Hu2; simpl in Hsub; [|discriminate].
      injection Hsub as Hex. apply existsb_exists in Hex as (p & Hp & Hown).
      apply bool_decide_eq_true in Hown. right. split; [reflexivity|]. split; [reflexivity|].
      exists p. split; [apply list_elem_of_In; exact Hp | exact Hown].
    + intros _ V HV _. unfold check. rewrite (Hchk V _ _ HV).
      unfold unversioned in Hu1. rewrite Hu1. reflexivity.
  - destruct (decide (dep_TargetPkg d1 = dep_TargetPkg d2)) as [Heq|Hne].
    2: { rewrite (bool_decide_eq_false_2 _ Hne) in Hsub. discriminate. }
    split; [left; exact Heq|]. intros _ V HV Hsat.
    rewrite (bool_decide_eq_true_2 _ Heq) in Hsub. simpl in Hsub.
    destruct (unversioned d2) eqn:Hu2; [discriminate|].
    unfold check in *. rewrite (Hchk V _ _ HV) in Hsat. rewrite (Hchk V _ _ HV).
    unfold unversioned in Hu1, Hu2. rewrite Hu1. rewrite Hu2 in Hsat.
    cbv zeta in *.
    pose proof (version_order_between cmp V (dep_TargetVer d1) (dep_TargetVer d2) Hord)
      as Hbet. cbv zeta in Hbet.
    set (t1 := Z.land (dep_CompareOp d1) 15) in *.
    set (t2 := Z.land (dep_CompareOp d2) 15) in *.
    set (a := cmp V (dep_TargetVer d2)) in *.
    set (b := cmp (dep_TargetVer d1) (dep_TargetVer d2)) in *.
    set (g := cmp V (dep_TargetVer d1)) in *.
    destruct (t1 =? Dep_LessEq)%Z;
      [|destruct (t1 =? Dep_GreaterEq)%Z;
        [|destruct (t1 =? Dep_Less)%Z;
          [|destruct (t1 =? Dep_Greater)%Z;
            [|destruct (t1 =? Dep_Equals)%Z;
              [|destruct (t1 =? Dep_NotEquals)%Z; [|discriminate]]]]]];
      injection Hsub as Hsub; bools;
      match goal with
      | Ht : t2 = _ |- _ => rewrite Ht in Hsat; cbn in Hsat
      end;
      bools;
      first [ apply Z.leb_le | apply Z.ltb_lt | apply Z.eqb_eq
            | apply negb_true_iff; apply Z.eqb_neq ];
      lia.
Qed.

(** *** Candidate versions *)

Lemma set_candidate_version_outcome (v : VerID) (undo : option undo_group)
    (c : aptitudeDepCache D) :
  SetCandidateVersion_sets -> Candidate_kept ->
  read_only_denied c = false -> group_level c = 0%Z -> installable v = true ->
  let r := set_candidate_version (Some v) undo c in
  r.2 = add_item (candver_undoer (CandidateVer (state_of c (ParentPkg v)))) undo
  /\ CandidateVer (state_of r.1 (ParentPkg v)) = Some v
  /\ selection_state (package_states r.1 (ParentPkg v)) = State.Install
  /\ dirty r.1 = true
  /\ read_only r.1 = read_only c /\ group_level r.1 = 0%Z
  /\ forall q, q <> ParentPkg v -> package_states r.1 q = package_states c q.
Proof.
  intros Hset Hkept Hden Hlvl Hinst r. subst r.
  unfold set_candidate_version. rewrite Hden.
  unfold installable in Hinst. rewrite Hinst. cbv zeta.
  set (P := ParentPkg v).
  set (c1 := emit pre_package_state_changed (set_dirty true c)).
  set (c2 := if set_to_manual_p c1 P then on_depcache (MarkAuto E P false) c1 else c1).
  assert (Hc2 : CandidateVer (state_of c2 P) = CandidateVer (state_of c P)
                /\ package_states c2 = package_states c /\ group_level c2 = 0%Z
                /\ dirty c2 = true /\ read_only c2 = read_only c).
  { unfold c2. destruct (set_to_manual_p c1 P); simpl; repeat split; auto.
    unfold state_of; simpl. apply (proj2 (Hkept (depcache c) P)). }
  destruct Hc2 as (Hcand & Hps & Hlvl2 & Hdirty & Hro).
  set (c3 := if negb (bool_decide (Some v = GetCandidateVersion E (depcache c2) P))
             then upd_ext_state P (with_candver (VerStr v)) c2
             else upd_ext_state P (with_candver ""%string) c2).
  assert (Hc3 : depcache c3 = depcache c2 /\ group_level c3 = 0%Z
                /\ dirty c3 = true /\ read_only c3 = read_only c
                /\ forall q, q <> P -> package_states c3 q = package_states c q).
  { unfold c3.
    destruct (negb (bool_decide (Some v = GetCandidateVersion E (depcache c2) P))); simpl;
      repeat split; auto; intros q Hq; rewrite decide_False by exact Hq; rewrite Hps;
      reflexivity. }
  destruct Hc3 as (Hd3 & Hlvl3 & Hdirty3 & Hro3 & Hoth3).
  replace (group_level
             (on_depcache (SetCandidateVersion E v)
                (upd_ext_state P (with_selection_state State.Install) c3)))
    with 0%Z by (simpl; symmetry; exact Hlvl3).
  simpl. rewrite Hcand.
  split; [reflexivity|]. split.
  { unfold state_of; simpl. rewrite (proj1 (Hkept _ P)). apply Hset. }
  split; [rewrite decide_True by reflexivity; reflexivity|].
  split; [exact Hdirty3|]. split; [exact Hro3|]. split; [exact Hlvl3|].
  intros q Hq. rewrite decide_False by exact Hq. apply Hoth3. exact Hq.
Qed.

(** X13. Choosing a candidate version can be undone in the engine, not in
    the selection state.  Outside any action group, on a store that may
    be written, [set_candidate_version] for an installable version adds
    to the undo group one [candver_undoer] that holds the candidate the
    package had, and makes the version the candidate.  When the old
    candidate is itself an installable version of the package, applying
    the undoer makes it the candidate again; the selection state of the
    package is Install after either step, whatever it was before.  The
    engine is assumed to set the candidate it is given and to leave
    candidates in MarkAuto and in its mark-and-sweep. *)
Theorem candidate_version_undo (v prev : VerID) (items : undo_group)
    (c : aptitudeDepCache D) :
  SetCandidateVersion_sets -> Candidate_kept ->
  read_only_denied c = false -> group_level c = 0%Z ->
  installable v = true ->
  CandidateVer (state_of c (ParentPkg v)) = Some prev ->
  ParentPkg prev = ParentPkg v -> installable prev = true ->
  let '(c1, undo1) := set_candidate_version (Some v) (Some items) c in
  undo1 = Some (items ++ [candver_undoer (Some prev)])
  /\ CandidateVer (state_of c1 (ParentPkg v)) = Some v
  /\ selection_state (package_states c1 (ParentPkg v)) = State.Install
  /\ exists c2,
       undo (candver_undoer (Some prev)) c1 = Some c2
       /\ CandidateVer (state_of c2 (ParentPkg v)) = Some prev
       /\ selection_state (package_states c2 (ParentPkg v)) = State.Install.
Proof.
  intros Hset Hkept Hden Hlvl Hinst Hprev Hpar Hinstp.
  pose proof (set_candidate_version_outcome v (Some items) c Hset Hkept Hden Hlvl Hinst)
    as H1.
  cbv zeta in H1.
  destruct (set_candidate_version (Some v) (Some items) c) as [c1 undo1].
  simpl in H1. destruct H1 as (Hu & Hc & Hs & _ & Hro & Hl & _).
  rewrite Hprev in Hu.
  split; [exact Hu|]. split; [exact Hc|]. split; [exact Hs|].
  eexists. split; [reflexivity|].
  assert (Hden1 : read_only_denied (emit pre_package_state_changed c1) = false).
  { unfold read_only_denied in *. simpl. rewrite Hro. exact Hden. }
  pose proof (set_candidate_version_outcome prev None
                (emit pre_package_state_changed c1) Hset Hkept Hden1 Hl Hinstp) as H2.
  cbv zeta in H2. rewrite Hpar in H2.
  destruct H2 as (_ & Hc2 & Hs2 & _).
  split.
  - unfold state_of in *. simpl. exact Hc2.
  - simpl. exact Hs2.
Qed.

(** *** What the cascading removal spares *)

(** A considered reverse dependency from a package that is installed or
    to be installed prevents the removal. *)
Lemma can_remove_needed (q : PkgID) (rd : Dependency) (c : aptitudeDepCache D) :
  rd ∈ RevDependsList q ->
  considered keep_recommends_installed keep_suggests_installed rd = true ->
  installed_or_to_be (depcache c) (dep_ParentPkg rd) = true ->
  can_remove q c = false.
Proof.
  intros Hin Hcons Hstay. unfold can_remove, can_remove_autoinstalled. cbv zeta.
  match goal with |- (if ?b then _ else _) = _ => destruct b end; [reflexivity|].
  apply negb_false_iff. apply existsb_exists. exists rd.
  split; [apply list_elem_of_In; exact Hin|].
  rewrite Hcons. simpl. unfold installed_or_to_be in Hstay. cbv zeta in Hstay.
  rewrite orb_comm. exact Hstay.
Qed.

(** The cascade offers for removal only packages that are automatically
    installed and that [can_remove_autoinstalled] lets go. *)
Lemma cascade_dep_guarded (Inv : aptitudeDepCache D -> Prop)
    (rec : PkgID -> list PkgID -> aptitudeDepCache D
           -> option (aptitudeDepCache D * list PkgID))
    (dep : Dependency) (c : aptitudeDepCache D) (v : list PkgID)
    (c' : aptitudeDepCache D) (v' : list PkgID) :
  (forall p v0 c0 c1 v1, rec p v0 c0 = Some (c1, v1) -> Inv c0 ->
     is_auto_installed env (state_of c0 p) = true -> can_remove p c0 = true -> Inv c1) ->
  cascade_dep rec dep (c, v) = Some (c', v') -> Inv c -> Inv c'.
Proof.
  intros Hrec Hstep Hc. unfold cascade_dep in Hstep.
  destruct (negb (considered keep_recommends_installed keep_suggests_installed dep)).
  { injection Hstep as <- <-. exact Hc. }
  destruct (is_virtual env (dep_TargetPkg dep)).
  - refine (foldM_some_inv _ (fun s => Inv s.1) _ (c, v) (c', v') _ Hc Hstep).
    intros prv [c0 v0] [c1 v1] _ H0 Hf. simpl in *.
    destruct (negb (can_remove (dep_TargetPkg dep) c0)).
    { injection Hf as <- <-. exact H0. }
    destruct (is_auto_installed env (state_of c0 (prv_OwnerPkg prv))) eqn:Hauto; simpl in Hf.
    2: { injection Hf as <- <-. exact H0. }
    destruct (can_remove (prv_OwnerPkg prv) c0) eqn:Hcan; simpl in Hf.
    2: { injection Hf as <- <-. exact H0. }
    eapply Hrec; eauto.
  - destruct (CurrentVer (dep_TargetPkg dep)) as [dv|].
    2: { injection Hstep as <- <-. exact Hc. }
    destruct (is_installed env (dep_TargetPkg dep)); simpl in Hstep.
    2: { injection Hstep as <- <-. exact Hc. }
    destruct (is_auto_installed env (state_of c (dep_TargetPkg dep))) eqn:Hauto;
      simpl in Hstep.
    2: { injection Hstep as <- <-. exact Hc. }
    destruct (is_not_required (state_of c (dep_TargetPkg dep)) dv).
    2: { injection Hstep as <- <-. exact Hc. }
    destruct (can_remove (dep_TargetPkg dep) c) eqn:Hcan; simpl in Hstep.
    2: { injection Hstep as <- <-. exact Hc. }
    eapply Hrec; eauto.
Qed.

Lemma internal_mark_delete_rec_guarded (Inv : aptitudeDepCache D -> Prop) :
  (forall c msg, Inv c -> Inv (Error msg c)) ->
  (forall X c, Inv c -> is_auto_installed env (state_of c X) = true ->
     can_remove X c = true ->
     Inv (mark_delete_head X
            (FindB (aptcfg env) (PACKAGE +:+ "::Purge-Unused") false) true c)) ->
  forall fuel X v c c' v',
    internal_mark_delete_rec fuel X
      (FindB (aptcfg env) (PACKAGE +:+ "::Purge-Unused") false) true v c = Some (c', v') ->
    Inv c -> is_auto_installed env (state_of c X) = true -> can_remove X c = true ->
    Inv c'.
Proof.
  intros Herr Hhead. induction fuel as [|fuel IH]; intros X v c c' v' Hrun Hc Hauto Hcan;
    [discriminate|].
  simpl in Hrun.
  destruct (is_self X).
  { injection Hrun as <- <-. apply Herr. exact Hc. }
  specialize (Hhead X c Hc Hauto Hcan).
  destruct (negb (FindB (aptcfg env) (PACKAGE +:+ "::Delete-Unused") true)).
  { injection Hrun as <- <-. exact Hhead. }
  destruct (CurrentVer X) as [cur|].
  2: { injection Hrun as <- <-. exact Hhead. }
  destruct (decide (X ∈ v)).
  { injection Hrun as <- <-. exact Hhead. }
  refine (foldM_some_inv _ (fun s => Inv s.1) _ (_, _) (c', v') _ Hhead Hrun).
  intros dep [c0 v0] [c1 v1] _ H0 Hf. simpl in H0 |- *.
  eapply cascade_dep_guarded; [|exact Hf|exact H0].
  intros p v2 c2 c3 v3 Hr H2 Ha2 Hc2. simpl in Hr. exact (IH p v2 c2 c3 v3 Hr H2 Ha2 Hc2).
Qed.

Lemma internal_mark_delete_rec_guarded_first (Inv : aptitudeDepCache D -> Prop) :
  (forall c msg, Inv c -> Inv (Error msg c)) ->
  (forall X c, Inv c -> is_auto_installed env (state_of c X) = true ->
     can_remove X c = true ->
     Inv (mark_delete_head X
            (FindB (aptcfg env) (PACKAGE +:+ "::Purge-Unused") false) true c)) ->
  forall fuel X purge unused_delete v c c' v',
    internal_mark_delete_rec fuel X purge unused_delete v c = Some (c', v') ->
    Inv c -> Inv (mark_delete_head X purge unused_delete c) -> Inv c'.
Proof.
  intros Herr Hhead fuel X purge unused_delete v c c' v' Hrun Hc0 Hc.
  destruct fuel as [|fuel]; [discriminate|].
  simpl in Hrun.
  destruct (is_self X).
  { injection Hrun as <- <-. apply Herr. exact Hc0. }
  destruct (negb (FindB (aptcfg env) (PACKAGE +:+ "::Delete-Unused") true)).
  { injection Hrun as <- <-. exact Hc. }
  destruct (CurrentVer X) as [cur|].
  2: { injection Hrun as <- <-. exact Hc. }
  destruct (decide (X ∈ v)).
  { injection Hrun as <- <-. exact Hc. }
  refine (foldM_some_inv _ (fun s => Inv s.1) _ (_, _) (c', v') _ Hc Hrun).
  intros dep [c0 v0] [c1 v1] _ H0 Hf. simpl in H0 |- *.
  eapply cascade_dep_guarded; [|exact Hf|exact H0].
  intros p v2 c2 c3 v3 Hr H2 Ha2 Hc2. simpl in Hr.
  exact (internal_mark_delete_rec_guarded Inv Herr Hhead fuel p v2 c2 c3 v3 Hr H2 Ha2 Hc2).
Qed.

(** X14. The cascading removal spares what a manually installed package
    needs.  Let [q] be a package other than the one being removed, with
    a considered reverse dependency (Depends or PreDepends, Recommends or
    Suggests under the keep policies) from a package [r], also other
    than the removed one, that is installed and not being deleted or is
    to be installed, and that is not automatically installed.  Then
    [internal_mark_delete], however far its cascade goes, leaves the
    mode and the extended state of [q] (and of [r]) as they were.  The
    engine is assumed to mark one package at a time. *)
Theorem cascade_spares_needed (P : PkgID) (purge unused_delete : bool)
    (c c' : aptitudeDepCache D) (q r : PkgID) (rd : Dependency) :
  MarkDelete_frame -> SetReInstall_keeps_Mode ->
  MarkDelete_keeps_marks -> SetReInstall_keeps_marks ->
  internal_mark_delete P purge unused_delete c = Some c' ->
  q <> P -> r <> P ->
  rd ∈ RevDependsList q ->
  considered keep_recommends_installed keep_suggests_installed rd = true ->
  dep_ParentPkg rd = r ->
  installed_or_to_be (depcache c) r = true ->
  is_auto_installed env (state_of c r) = false ->
  Mode (state_of c' q) = Mode (state_of c q)
  /\ package_states c' q = package_states c q
  /\ Mode (state_of c' r) = Mode (state_of c r).
Proof.
  intros HF HR HM HS Hrun Hq Hr Hin Hcons Hpar Hstay Hman.
  pose (Inv := fun c1 : aptitudeDepCache D =>
                 Mode (state_of c1 q) = Mode (state_of c q)
                 /\ package_states c1 q = package_states c q
                 /\ Mode (state_of c1 r) = Mode (state_of c r)
                 /\ is_auto_installed env (state_of c1 r) = false).
  assert (Hhead : forall X pg ud c1, Inv c1 -> X <> q -> X <> r ->
                    Inv (mark_delete_head X pg ud c1)).
  { intros X pg ud c1 (I1 & I2 & I3 & I4) HXq HXr.
    destruct (mark_delete_head_spec X pg ud c1) as (_ & _ & _ & Hext & Hmode & Hmarks).
    unfold Inv.
    rewrite (Hmode HF HR q) by auto. rewrite (Hmode HF HR r) by auto.
    rewrite (Hext q) by auto.
    destruct (Hmarks HM HS r ltac:(auto)) as (_ & ->). auto. }
  assert (Hinv : Inv c') .
  { unfold internal_mark_delete in Hrun.
    destruct (internal_mark_delete_rec _ P purge unused_delete [] c) as [[c1 v1]|] eqn:Hrec;
      [|discriminate].
    injection Hrun as <-.
    refine (internal_mark_delete_rec_guarded_first Inv _ _ _ P purge unused_delete [] c c1 v1
              Hrec _ _).
    - intros c0 msg H0. exact H0.
    - intros X c0 H0 Hauto Hcan. apply Hhead; [exact H0| |].
      + intros ->. destruct H0 as (_ & _ & I3 & _).
        rewrite (can_remove_needed q rd c0 Hin Hcons) in Hcan; [discriminate|].
        rewrite Hpar. unfold installed_or_to_be, Install, Delete in *. cbv zeta in *.
        unfold state_of in I3. rewrite I3. exact Hstay.
      + intros ->. destruct H0 as (_ & _ & _ & I4). congruence.
    - unfold Inv. auto.
    - apply Hhead; [unfold Inv; auto | auto | auto]. }
  destruct Hinv as (I1 & I2 & I3 & _). auto.
Qed.

(** *** Forbidding a version *)

Lemma sweep_candidates (c c' : aptitudeDepCache D) :
  Candidate_stable -> sweep c = Some c' ->
  forall q, CandidateVer (state_of c' q) = CandidateVer (state_of c q).
Proof.
  intros HC Hs q. unfold sweep in Hs.
  destruct (negb (FindB (aptcfg env) (PACKAGE +:+ "::Delete-Unused") true)).
  { injection Hs as <-. reflexivity. }
  assert (Hfl : CandidateVer (state_of (sweep_first_loop c).1.1 q)
                = CandidateVer (state_of c q)).
  { unfold sweep_first_loop.
    apply (fold_left_inv (sweep_classify _)
             (fun _ s => CandidateVer (state_of s.1.1 q) = CandidateVer (state_of c q))
             (PkgList (cache env))) with (l0 := @nil PkgID).
    - intros l1 a [[c1 R] B] H1 _. simpl in H1. rewrite <- H1.
      unfold sweep_classify.
      repeat match goal with
             | |- context [if ?b then _ else _] => destruct b
             | |- context [match ?b with Some _ => _ | None => _ end] => destruct b
             end; try reflexivity; unfold state_of; simpl;
        first [ apply (proj1 (proj2 (proj2 (HC _ q))))
              | apply (proj2 (proj2 (proj2 (HC _ q)))) ].
    - unfold state_of; simpl. apply (proj1 (HC _ q)). }
  destruct (sweep_first_loop c) as [[c1 R0] bad]. simpl in Hfl.
  destruct (sweep_block R0 bad) as [Rf|]; [|discriminate].
  destruct (sweep_not_orphaned Rf (depcache c1)) as [NO|]; [|discriminate].
  injection Hs as <-. rewrite <- Hfl. unfold state_of at 1. simpl.
  rewrite (proj1 (proj2 (HC _ q))).
  generalize (elements NO). intros l. revert c1 Hfl.
  induction l as [|a l IH]; intros c1 Hfl; simpl; [reflexivity|].
  rewrite IH.
  - unfold state_of; simpl. apply (proj2 (proj2 (proj2 (HC _ q)))).
  - rewrite <- Hfl. unfold state_of; simpl. apply (proj2 (proj2 (proj2 (HC _ q)))).
Qed.

Lemma cleanup_after_change_depcache (undo : option undo_group) (alter_stickies : bool)
    (c : aptitudeDepCache D) :
  depcache (cleanup_after_change undo alter_stickies c).1.1 = depcache c.
Proof.
  unfold cleanup_after_change.
  destruct (backup_state c) as [bak|]; [|reflexivity].
  apply (fold_left_inv (cleanup_step bak alter_stickies)
           (fun _ s => depcache s.1.1 = depcache c) (PkgList (cache env)))
    with (l0 := @nil PkgID); [|reflexivity].
  intros l1 a [[c1 u] ch] H1 _. simpl in H1. rewrite <- H1.
  unfold cleanup_step. cbv zeta.
  destruct (primary_change _ _ _ _).
  - destruct (alter_stickies && _ && _); simpl; [|reflexivity].
    apply (proj1 (alter_sticky_frame a (emit pre_package_state_changed c1))).
  - destruct (cosmetic_change _ _ _ _); reflexivity.
Qed.

Lemma end_action_group_candidates (undo undo' : option undo_group)
    (c c' : aptitudeDepCache D) :
  Candidate_stable -> end_action_group undo c = Some (c', undo') ->
  forall q, CandidateVer (state_of c' q) = CandidateVer (state_of c q).
Proof.
  intros HC Hend q. unfold end_action_group in Hend.
  destruct (negb (0 <? group_level c)%Z); [discriminate|].
  destruct (group_level c =? 1)%Z.
  2: { injection Hend as <- <-. reflexivity. }
  destruct (read_only_denied c).
  { injection Hend as <- <-. unfold refuse.
    destruct (group_level c =? 0)%Z; reflexivity. }
  destruct (sweep (emit enter_sweep c)) as [c1|] eqn:Hsweep; [|discriminate].
  pose proof (sweep_candidates _ _ HC Hsweep q) as H1.
  pose proof (cleanup_after_change_depcache undo true (emit enter_cleanup_after_change c1))
    as H2.
  destruct (cleanup_after_change undo true (emit enter_cleanup_after_change c1))
    as [[c2 undo2] changed].
  simpl in H2. injection Hend as <- <-.
  unfold state_of in *. simpl in *. rewrite H2. exact H1.
Qed.

Lemma end_action_group_total (undo : option undo_group) (c : aptitudeDepCache D) :
  (0 < group_level c)%Z -> exists r, end_action_group undo c = Some r.
Proof.
  intros Hpos. unfold end_action_group.
  apply Z.ltb_lt in Hpos. rewrite Hpos. simpl.
  destruct (group_level c =? 1)%Z; [|eauto].
  destruct (read_only_denied c); [eauto|].
  destruct (sweep_total (emit enter_sweep c)) as (c1 & ->).
  destruct (cleanup_after_change undo true (emit enter_cleanup_after_change c1))
    as [[c2 undo2] changed].
  eauto.
Qed.

(** X15. Forbidding the candidate version holds the package back.  On a
    store that may be written, after [forbid_upgrade] of an installed
    package with the version string of its candidate, through the commit
    of its action group when there is one, the forbidden version of the
    package is that string, [is_held] answers true, the package is not
    upgradable, and [IsInstallOk] refuses to install it for a
    dependency.  The engine is assumed to change candidates in
    SetCandidateVersion only. *)
Theorem forbid_upgrade_holds (P : PkgID) (verstr : string) (undo : option undo_group)
    (c : aptitudeDepCache D) (cv : VerID) :
  Candidate_stable ->
  read_only_denied c = false -> (0 <= group_level c)%Z ->
  CurrentVer P <> None ->
  CandidateVer (state_of c P) = Some cv -> VerStr cv = verstr ->
  exists c' undo',
    forbid_upgrade P verstr undo c = Some (c', undo')
    /\ forbidver (package_states c' P) = verstr
    /\ is_held c' P = true
    /\ do_upgrade c' P = false
    /\ forall AutoInst Depth FromUser, Depth <> 0%N ->
         IsInstallOk P AutoInst Depth FromUser c' = false.
Proof.
  intros HC Hden Hlvl Hcur Hcand Hstr.
  assert (Hfacts : forall c' : aptitudeDepCache D,
            forbidver (package_states c' P) = verstr ->
            CandidateVer (state_of c' P) = Some cv ->
            forbidver (package_states c' P) = verstr
            /\ is_held c' P = true
            /\ do_upgrade c' P = false
            /\ forall AutoInst Depth FromUser, Depth <> 0%N ->
                 IsInstallOk P AutoInst Depth FromUser c' = false).
  { intros c' Hf Hc.
    assert (Hheld : is_held c' P = true).
    { unfold is_held, get_ext_state. rewrite Hc, Hf, Hstr.
      rewrite (bool_decide_eq_false_2 _ Hcur).
      rewrite (bool_decide_eq_true_2 (verstr = verstr)) by reflexivity.
      rewrite orb_true_r. reflexivity. }
    split; [exact Hf|]. split; [exact Hheld|]. split.
    { unfold do_upgrade. rewrite Hheld. reflexivity. }
    intros AutoInst Depth FromUser HD. apply N.eqb_neq in HD.
    unfold IsInstallOk, get_ext_state. rewrite HD, Hc, Hf, Hstr.
    rewrite (bool_decide_eq_true_2 (verstr = verstr)) by reflexivity.
    destruct (_ && _); reflexivity. }
  unfold forbid_upgrade. rewrite Hden. unfold get_ext_state.
  destruct (decide (verstr = forbidver (package_states c P))) as [Heq | Hne].
  { rewrite (bool_decide_eq_true_2 _ Heq). simpl.
    exists c, undo. split; [reflexivity|]. apply Hfacts; [symmetry; exact Heq | exact Hcand]. }
  rewrite (bool_decide_eq_false_2 _ Hne). simpl.
  match goal with
  | |- exists c' undo', action_group_dtor undo ?x = _ /\ _ => set (c1 := x)
  end.
  assert (Hc1 : forbidver (package_states c1 P) = verstr
                /\ CandidateVer (state_of c1 P) = Some cv
                /\ group_level c1 = (group_level c + 1)%Z).
  { unfold c1.
    destruct (CandidateVer
                (state_of (emit pre_package_state_changed (action_group_ctor c)) P))
      as [cv1|]; [destruct (bool_decide (VerStr cv1 = verstr) && _)|];
      (split; [simpl; rewrite decide_True by reflexivity; reflexivity|]);
      (split; [|reflexivity]); unfold state_of; simpl;
      rewrite ?(proj2 (proj2 (proj2 (HC _ P)))), (proj1 (HC _ P)); exact Hcand. }
  destruct Hc1 as (Hf1 & Hcand1 & Hl1).
  unfold action_group_dtor.
  destruct (end_action_group_total undo (on_depcache (ActionGroup_dtor E) c1))
    as ([c' undo'] & Hend).
  { simpl. lia. }
  exists c', undo'. split; [exact Hend|].
  apply Hfacts.
  - destruct (end_action_group_marks _ _ _ _ Hend P) as (_ & _ & _ & _ & _ & -> & _).
    exact Hf1.
  - rewrite (end_action_group_candidates _ _ _ _ HC Hend P).
    unfold state_of; simpl. rewrite (proj1 (proj2 (HC _ P))). exact Hcand1.
Qed.

(** *** Acting on the loaded states *)

Lemma filter_iff_in {A : Type} (P Q : A -> Prop) `{!forall x, Decision (P x)}
    `{!forall x, Decision (Q x)} (l : list A) :
  (forall x, x ∈ l -> (P x <-> Q x)) -> filter P l = filter Q l.
Proof.
  induction l as [|a l IH]; intros Hall; [reflexivity|].
  rewrite !filter_cons.
  rewrite IH by (intros x Hx; apply Hall; right; exact Hx).
  destruct (decide (P a)) as [Hp|Hp]; destruct (decide (Q a)) as [Hq|Hq];
    try reflexivity; exfalso; [apply Hq | apply Hp]; apply (Hall a); try left; assumption.
Qed.

Lemma selection_state_with (e : aptitude_state) :
  with_selection_state (selection_state e) e = e.
Proof. destruct e; reflexivity. Qed.

Lemma act_selection_ext (do_initselections : bool) (Upgradable : StateCache -> bool)
    (c : aptitudeDepCache D) (i : PkgID) :
  package_states (act_selection do_initselections Upgradable c i) i
  = with_selection_state (initial_selection i (selection_state (package_states c i)))
      (package_states c i)
  /\ forall q, q <> i ->
       package_states (act_selection do_initselections Upgradable c i) q
       = package_states c q.
Proof.
  assert (Hfold : forall (l : list VerID) (g : VerID -> bool) (c0 : aptitudeDepCache D),
            package_states
              (fold_left (fun c1 ver => if g ver
                                        then on_depcache (SetCandidateVersion E ver) c1
                                        else c1) l c0)
            = package_states c0).
  { induction l as [|a l IH]; intros g c0; simpl; [reflexivity|].
    rewrite IH. destruct (g a); reflexivity. }
  unfold act_selection, initial_selection, get_ext_state.
  destruct (selection_state (package_states c i)) eqn:Hsel.
  - destruct (bool_decide (CurrentVer i = None)); simpl;
      (split; [rewrite decide_True by reflexivity; reflexivity|]);
      intros q Hq; rewrite decide_False by exact Hq; reflexivity.
  - rewrite <- Hsel, selection_state_with.
    destruct (negb do_initselections); [auto|].
    destruct (negb (bool_decide (candver (package_states c i) = ""%string))).
    { simpl. rewrite Hfold. auto. }
    destruct (bool_decide (CurrentVer i = None)); [auto|].
    destruct (upgrade (package_states c i) && _); auto.
  - rewrite <- Hsel, selection_state_with.
    destruct (negb do_initselections); auto.
  - rewrite <- Hsel, selection_state_with.
    destruct (negb do_initselections); [auto|].
    destruct (negb (bool_decide (CurrentVer i = None))); auto.
  - rewrite <- Hsel, selection_state_with.
    destruct (negb do_initselections); [auto|].
    destruct (negb (bool_decide (CurrentVer i = None))); auto.
Qed.

Lemma act_step_spec (initial_open do_initselections : bool)
    (Upgradable : StateCache -> bool) (s : counted_cache D) (i : PkgID) :
  let s' := act_step initial_open do_initselections Upgradable s i in
  let e := package_states (obj s) i in
  package_states (obj s') i
  = with_selection_state (initial_selection i (selection_state e))
      (if initial_open then with_new_package false e else e)
  /\ (forall q, q <> i -> package_states (obj s') q = package_states (obj s) q)
  /\ new_package_count s'
     = (new_package_count s
        + if negb initial_open && negb (bool_decide (VersionList i = []))
             && new_package e
          then 1 else 0)%Z
  /\ reloads s' = reloads s.
Proof.
  intros s' e. subst s' e. unfold act_step. cbv zeta.
  assert (Hauto : forall c, package_states (act_auto c i) = package_states c).
  { intros c. unfold act_auto. destruct (previously_auto_package _); reflexivity. }
  destruct (act_selection_ext do_initselections Upgradable (obj (act_new initial_open s i)) i)
    as (Hown & Hoth).
  simpl. rewrite Hauto, Hown.
  unfold act_new, get_ext_state in *.
  destruct initial_open; simpl in *.
  - rewrite decide_True by reflexivity. split; [reflexivity|]. split; [|split; [lia|reflexivity]].
    intros q Hq. rewrite ?Hauto, (Hoth q Hq). simpl.
    rewrite decide_False by exact Hq. reflexivity.
  - destruct (negb (bool_decide (VersionList i = [])) && new_package (package_states (obj s) i));
      simpl in *; (split; [reflexivity|]); (split; [|split; [lia|reflexivity]]);
      intros q Hq; rewrite ?Hauto, (Hoth q Hq); reflexivity.
Qed.

(** X16. After the states are read, [build_selection_list] acts on them:
    in a cache that lists every package once, no listed package is left
    with an unknown selection state (it becomes DeInstall for a package
    without a current version and Install otherwise; a known selection
    state is kept), the new flags are cleared on the first opening and
    kept otherwise, nothing else of the extended state is written, the
    counter of new packages is the number of listed packages that have a
    version and are flagged as new, and the snapshot is the state
    reached. *)
Theorem act_on_states_spec (initial_open do_initselections : bool)
    (Upgradable : StateCache -> bool) (s : counted_cache D) :
  NoDup (PkgList (cache env)) ->
  let s' := act_on_states initial_open do_initselections Upgradable s in
  (forall p, p ∈ PkgList (cache env) ->
     selection_state (package_states (obj s') p) <> State.Unknown
     /\ package_states (obj s') p
        = with_selection_state
            (initial_selection p (selection_state (package_states (obj s) p)))
            (if initial_open then with_new_package false (package_states (obj s) p)
             else package_states (obj s) p))
  /\ (forall p, p ∉ PkgList (cache env) ->
        package_states (obj s') p = package_states (obj s) p)
  /\ new_package_count s'
     = Z.of_nat (length (filter (counted_new (obj s')) (PkgList (cache env))))
  /\ backup_state (obj s')
     = Some {| snap_PkgState := PkgState E (depcache (obj s'));
               snap_AptitudeState := package_states (obj s') |}.
Proof.
  intros Hnd s'. subst s'. unfold act_on_states. cbv zeta.
  set (F := fun (p : PkgID) (e : aptitude_state) =>
              with_selection_state (initial_selection p (selection_state e))
                (if initial_open then with_new_package false e else e)).
  set (G := fun p : PkgID =>
              VersionList p <> []
              /\ new_package (F p (package_states (obj s) p)) = true).
  set (s0 := {| obj := emit pre_package_state_changed (obj s);
                new_package_count := 0; reloads := reloads s |}).
  pose (I := fun (l1 : list PkgID) (s1 : counted_cache D) =>
               (forall p, package_states (obj s1) p
                          = if bool_decide (p ∈ l1) then F p (package_states (obj s) p)
                            else package_states (obj s) p)
               /\ new_package_count s1 = Z.of_nat (length (filter G l1))).
  assert (HI : I (PkgList (cache env))
                 (fold_left (act_step initial_open do_initselections Upgradable)
                            (PkgList (cache env)) s0)).
  { apply fold_left_split_inv.
    - intros l1 a l2 s1 Heq (Hps & Hc).
      assert (Ha : a ∉ l1).
      { rewrite Heq in Hnd. apply NoDup_app in Hnd as (_ & Hdisj & _).
        intros Hin. apply (Hdisj a Hin). left. }
      assert (Hown : package_states (obj s1) a = package_states (obj s) a).
      { rewrite (Hps a). rewrite bool_decide_eq_false_2 by exact Ha. reflexivity. }
      destruct (act_step_spec initial_open do_initselections Upgradable s1 a)
        as (H1 & H2 & H3 & _).
      rewrite Hown in H1, H3. split.
      + intros p. destruct (decide (p = a)) as [->|Hne].
        * rewrite bool_decide_eq_true_2 by (apply elem_of_app; right; left). exact H1.
        * rewrite (H2 p Hne), (Hps p).
          replace (bool_decide (p ∈ l1 ++ [a])) with (bool_decide (p ∈ l1)); [reflexivity|].
          apply bool_decide_ext. rewrite elem_of_app, list_elem_of_singleton.
          split; [auto|]. intros [Hin | Hin]; [exact Hin | contradiction].
      + rewrite H3, Hc, filter_app, length_app, filter_cons, filter_nil.
        assert (HG : G a <-> negb initial_open
                             && negb (bool_decide (VersionList a = []))
                             && new_package (package_states (obj s) a) = true).
        { unfold G, F. destruct initial_open; simpl.
          - split; [intros (_ & H); discriminate | discriminate].
          - rewrite andb_true_iff, negb_true_iff, bool_decide_eq_false. tauto. }
        destruct (decide (G a)) as [Hg | Hg].
        * rewrite (proj1 HG Hg). simpl. lia.
        * destruct (negb initial_open && negb (bool_decide (VersionList a = []))
                    && new_package (package_states (obj s) a)) eqn:Hb.
          -- exfalso. apply Hg. apply HG. reflexivity.
          -- simpl. lia.
    - split; [intros p; reflexivity | reflexivity]. }
  destruct HI as (Hps & Hc).
  set (s1 := fold_left (act_step initial_open do_initselections Upgradable)
                       (PkgList (cache env)) s0) in *.
  assert (Hin : forall p, p ∈ PkgList (cache env) ->
                          package_states (obj s1) p = F p (package_states (obj s) p)).
  { intros p Hp. rewrite (Hps p), (bool_decide_eq_true_2 _ Hp). reflexivity. }
  simpl. split; [|split; [|split; [|reflexivity]]].
  - intros p Hp. rewrite (Hin p Hp). split; [|reflexivity].
    unfold F, initial_selection. simpl.
    destruct initial_open; simpl;
      destruct (selection_state (package_states (obj s) p));
      try discriminate; destruct (bool_decide (CurrentVer p = None)); discriminate.
  - intros p Hp. rewrite (Hps p), (bool_decide_eq_false_2 _ Hp). reflexivity.
  - rewrite Hc. f_equal. f_equal. apply filter_iff_in.
    intros p Hp. unfold G, counted_new. simpl. rewrite (Hin p Hp). reflexivity.
Qed.

(** *** An action group in which nothing is done *)

(** The diff finds nothing when the snapshot is the state. *)
Lemma cleanup_after_change_fresh (undo : option undo_group) (alter_stickies : bool)
    (c : aptitudeDepCache D) :
  backup_state c = Some {| snap_PkgState := PkgState E (depcache c);
                           snap_AptitudeState := package_states c |} ->
  cleanup_after_change undo alter_stickies c = (c, undo, ∅).
Proof.
  intros Hbak. unfold cleanup_after_change. rewrite Hbak.
  induction (PkgList (cache env)) as [|p l IH]; [reflexivity|].
  cbn [fold_left].
  replace (cleanup_step _ alter_stickies (c, undo, ∅) p) with (c, undo, ∅ : gset PkgID);
    [exact IH|].
  unfold cleanup_step. cbv zeta. cbn [snap_PkgState snap_AptitudeState].
  unfold state_of. rewrite primary_change_same, cosmetic_change_same. reflexivity.
Qed.

(** Two cache objects with the same members are the same. *)
Lemma cache_eq (a b : aptitudeDepCache D) :
  depcache a = depcache b -> package_states a = package_states b ->
  backup_state a = backup_state b -> dirty a = dirty b -> read_only a = read_only b ->
  group_level a = group_level b -> errors a = errors b -> events a = events b ->
  a = b.
Proof. destruct a, b; simpl; intros; subst; reflexivity. Qed.

Lemma sweep_policy_off (c : aptitudeDepCache D) :
  FindB (aptcfg env) (PACKAGE +:+ "::Delete-Unused") true = false -> sweep c = Some c.
Proof. intros Hoff. unfold sweep. rewrite Hoff. reflexivity. Qed.

(** X17. An action group in which nothing is done is invisible.  Inside
    another group, [begin_action_group] followed by [end_action_group]
    gives back the very same cache and undo group.  At the outermost
    level, on a store that may be written, with Delete-Unused off and a
    snapshot that is the current state, the pair changes nothing but the
    list of emitted signals: no undo item is added, the set reported
    with [package_states_changed] is empty, and states, snapshot, flags
    and level are as before. *)
Theorem empty_action_group (undo : option undo_group) (c : aptitudeDepCache D) :
  ((1 <= group_level c)%Z ->
   end_action_group undo (begin_action_group c) = Some (c, undo))
  /\ (group_level c = 0%Z -> read_only_denied c = false ->
      FindB (aptcfg env) (PACKAGE +:+ "::Delete-Unused") true = false ->
      backup_state c = Some {| snap_PkgState := PkgState E (depcache c);
                               snap_AptitudeState := package_states c |} ->
      end_action_group undo (begin_action_group c)
      = Some ({| depcache := depcache c; package_states := package_states c;
                 backup_state := backup_state c; dirty := dirty c;
                 read_only := read_only c; group_level := 0;
                 errors := errors c;
                 events := events c
                           ++ [enter_sweep; enter_cleanup_after_change;
                               enter_duplicate_cache; package_state_changed;
                               package_states_changed ∅] |},
              undo)).
Proof.
  split.
  - intros Hlvl. unfold end_action_group.
    assert (Hl : group_level (begin_action_group c) = (group_level c + 1)%Z)
      by reflexivity.
    rewrite Hl.
    replace (0 <? group_level c + 1)%Z with true by (symmetry; apply Z.ltb_lt; lia).
    replace (group_level c + 1 =? 1)%Z with false by (symmetry; apply Z.eqb_neq; lia).
    change (negb true) with false. cbv iota.
    f_equal. f_equal. apply cache_eq; try reflexivity.
    change (group_level c + 1 - 1 = group_level c)%Z. lia.
  - intros Hlvl Hden Hoff Hbak.
    assert (Hl : group_level (begin_action_group c) = 1%Z)
      by (unfold begin_action_group; simpl; lia).
    assert (Hd : read_only_denied (begin_action_group c) = false) by exact Hden.
    unfold end_action_group. rewrite Hl, Hd.
    change (negb (0 <? 1)%Z) with false. change (1 =? 1)%Z with true. cbv iota.
    rewrite (sweep_policy_off _ Hoff).
    rewrite cleanup_after_change_fresh by exact Hbak.
    f_equal. f_equal. apply cache_eq.
    + reflexivity.
    + reflexivity.
    + rewrite Hbak. reflexivity.
    + reflexivity.
    + reflexivity.
    + change (group_level c + 1 - 1 = 0)%Z. lia.
    + reflexivity.
    + change (((((events c ++ [enter_sweep]) ++ [enter_cleanup_after_change])
                 ++ [enter_duplicate_cache]) ++ [package_state_changed])
              ++ [package_states_changed ∅]
              = events c ++ [enter_sweep; enter_cleanup_after_change;
                             enter_duplicate_cache; package_state_changed;
                             package_states_changed ∅]).
      rewrite <- !app_assoc. reflexivity.
Qed.

(** *** Upgrading everything *)

Lemma held_view_refl (p : PkgID) (c : aptitudeDepCache D) : held_view p c c.
Proof. split; [reflexivity|]. split; [tauto | apply same_marks_refl]. Qed.

Lemma held_view_trans (p : PkgID) (c1 c2 c3 : aptitudeDepCache D) :
  held_view p c1 c2 -> held_view p c2 c3 -> held_view p c1 c3.
Proof.
  intros (a1 & a2 & a3) (b1 & b2 & b3). split; [congruence|]. split; [tauto|].
  eapply same_marks_trans; eauto.
Qed.

Lemma is_held_view (p : PkgID) (c c' : aptitudeDepCache D) :
  held_view p c c' -> is_held c' p = is_held c p.
Proof.
  intros (Hc & Hh & Hsm). destruct Hsm as (_ & _ & _ & _ & _ & Hf & _).
  unfold is_held, get_ext_state. rewrite Hc, Hf.
  replace (bool_decide (selection_state (package_states c' p) = State.Hold))
    with (bool_decide (selection_state (package_states c p) = State.Hold))
    by (apply bool_decide_ext; tauto).
  reflexivity.
Qed.

(** [get_upgradable] leaves what [is_held] reads, and collects no held
    package. *)
Lemma get_upgradable_held (ignore_removed : bool) (c : aptitudeDepCache D) (p : PkgID) :
  held_view p c (get_upgradable ignore_removed c).1
  /\ (is_held c p = true -> p ∉ (get_upgradable ignore_removed c).2).
Proof.
  unfold get_upgradable.
  pose (I := fun (_ : list PkgID) (s : aptitudeDepCache D * gset PkgID) =>
               depcache s.1 = depcache c
               /\ (forall a, package_states s.1 a = package_states c a
                             \/ (ignore_removed = true /\ CurrentVer a <> None
                                 /\ selection_state (package_states c a) = State.Unknown
                                 /\ package_states s.1 a
                                    = with_selection_state State.Install
                                        (package_states c a)))
               /\ (forall q, q ∈ s.2 -> do_upgrade c q = true)).
  assert (HI : I ([] ++ PkgList (cache env))
                 (fold_left (get_upgradable_step ignore_removed) (PkgList (cache env))
                            (c, ∅))).
  { apply fold_left_inv.
    - intros l1 a [c1 up] (Hd & Hps & Hup) _. simpl in Hd, Hps, Hup.
      destruct (get_upgradable_step_spec ignore_removed c c1 up a Hd (Hps a))
        as (Hd' & _ & Hoth & Hown & Hmem).
      unfold I. split; [congruence|]. split.
      + intros q. destruct (decide (q = a)) as [->|Hne].
        * rewrite Hown.
          destruct (ignore_removed && negb (bool_decide (CurrentVer a = None))
                    && bool_decide (selection_state (package_states c a) = State.Unknown))
            eqn:Hcond; [|left; reflexivity].
          right. apply andb_true_iff in Hcond as (Hcond & Hunk).
          apply andb_true_iff in Hcond as (Hir & Hcur).
          apply bool_decide_eq_true in Hunk. apply negb_true_iff in Hcur.
          apply bool_decide_eq_false in Hcur. auto.
        * rewrite (Hoth q Hne). apply Hps.
      + intros q Hq. apply Hmem in Hq as [Hq | (-> & _ & Hu & _)]; auto.
    - unfold I. cbn [fst snd]. split; [reflexivity|]. split; [left; reflexivity|].
      intros q Hq. clear -Hq. set_solver. }
  simpl in HI.
  destruct (fold_left (get_upgradable_step ignore_removed) (PkgList (cache env)) (c, ∅))
    as [c1 up].
  destruct HI as (Hd & Hps & Hup). simpl in *. split.
  - split; [unfold state_of; rewrite Hd; reflexivity|].
    destruct (Hps p) as [-> | (_ & _ & Hunk & ->)].
    + split; [tauto | apply same_marks_refl].
    + split; [|repeat split].
      simpl. rewrite Hunk. split; discriminate.
  - intros Hheld Hin. specialize (Hup p Hin). unfold do_upgrade in Hup.
    rewrite Hheld in Hup. discriminate.
Qed.

Lemma internal_mark_install_view (P p : PkgID) (AutoInst reinst : bool)
    (c : aptitudeDepCache D) :
  Candidate_stable -> Candidate_kept -> Candidate_unmarked -> p <> P ->
  held_view p c (internal_mark_install P AutoInst reinst c).
Proof.
  intros HS HK HU Hne. unfold internal_mark_install. cbv zeta. split; [|split].
  - unfold state_of. simpl.
    rewrite (proj2 (HK _ p)), (proj2 (HU _ p)).
    destruct reinst; simpl.
    + apply (proj2 (proj2 (proj2 (HS _ p)))).
    + apply (proj1 (HU _ p)).
  - simpl. rewrite !decide_False by exact Hne. destruct reinst; simpl; tauto.
  - simpl. rewrite !decide_False by exact Hne. destruct reinst; apply same_marks_refl.
Qed.

Lemma upgrade_pass_view (ignore_removed do_autoinstall : bool) (c : aptitudeDepCache D)
    (p : PkgID) :
  Candidate_stable -> Candidate_kept -> Candidate_unmarked ->
  is_held c p = true ->
  held_view p c (upgrade_pass ignore_removed do_autoinstall c).
Proof.
  intros HS HK HU Hheld. unfold upgrade_pass.
  destruct (get_upgradable_held ignore_removed c p) as (Hview & Hout).
  specialize (Hout Hheld).
  destruct (get_upgradable ignore_removed c) as [c1 up]. simpl in Hview, Hout.
  eapply held_view_trans; [exact Hview|].
  assert (Hl : p ∉ elements up) by (rewrite elem_of_elements; exact Hout).
  clear Hview Hout Hheld. revert c1 Hl.
  induction (elements up) as [|a l IH]; intros c1 Hl; simpl; [apply held_view_refl|].
  apply not_elem_of_cons in Hl as (Hne & Hl).
  eapply held_view_trans; [|apply IH; exact Hl].
  eapply held_view_trans; [|apply internal_mark_install_view; auto].
  split; [reflexivity|]. split; [simpl; tauto | apply same_marks_refl].
Qed.

Lemma get_upgradable_group_level (ignore_removed : bool) (c : aptitudeDepCache D) :
  group_level (get_upgradable ignore_removed c).1 = group_level c.
Proof.
  unfold get_upgradable.
  generalize (∅ : gset PkgID). revert c.
  induction (PkgList (cache env)) as [|a l IH]; intros c up; [reflexivity|].
  simpl.
  destruct (bool_decide (CurrentVer a = None)); [apply IH|].
  destruct (negb ignore_removed); [apply IH|].
  destruct (selection_state (get_ext_state c a)); rewrite IH; reflexivity.
Qed.

Lemma upgrade_pass_group_level (ignore_removed do_autoinstall : bool)
    (c : aptitudeDepCache D) :
  group_level (upgrade_pass ignore_removed do_autoinstall c) = group_level c.
Proof.
  unfold upgrade_pass.
  pose proof (get_upgradable_group_level ignore_removed c) as Hg.
  destruct (get_upgradable ignore_removed c) as [c1 up]. simpl in Hg.
  rewrite <- Hg. clear Hg. revert c1.
  induction (elements up) as [|a l IH]; intros c1; [reflexivity|].
  simpl. rewrite IH. unfold internal_mark_install. reflexivity.
Qed.

(** X18. Upgrading everything passes over held packages.  For a package
    that [is_held] (selection state Hold, or the candidate is the
    forbidden version), [mark_all_upgradable], with or without
    auto-install and through the commit of its action group, leaves the
    engine's candidate and every field of the extended state other than
    selection state and remove_reason: the forbidden version is not
    cleared and the reinstall flag not reset, as a marking for
    installation would do.  A package held by its forbidden version is
    still held afterwards.  The store may be written and the group
    level is not negative, so that the call returns; the engine is
    assumed to change candidates in SetCandidateVersion only. *)
Theorem mark_all_upgradable_skips_held (with_autoinst ignore_removed : bool)
    (undo : option undo_group) (c : aptitudeDepCache D) (p : PkgID) :
  Candidate_stable -> Candidate_kept -> Candidate_unmarked ->
  read_only_denied c = false ->
  (0 <= group_level c)%Z ->
  is_held c p = true ->
  exists c' undo',
    mark_all_upgradable with_autoinst ignore_removed undo c = Some (c', undo')
    /\ CandidateVer (state_of c' p) = CandidateVer (state_of c p)
    /\ same_marks (package_states c p) (package_states c' p)
    /\ ((exists cv, CandidateVer (state_of c p) = Some cv
                    /\ VerStr cv = forbidver (package_states c p)) ->
        is_held c' p = true).
Proof.
  intros HS HK HU Hden Hlvl Hheld.
  unfold mark_all_upgradable. rewrite Hden. cbv zeta.
  set (c0 := action_group_ctor (emit pre_package_state_changed c)).
  assert (H0 : held_view p c c0).
  { split; [|split; [tauto | apply same_marks_refl]].
    unfold c0, state_of. simpl. apply (proj1 (HS _ p)). }
  set (c1 := upgrade_pass ignore_removed false c0).
  assert (H1 : held_view p c c1).
  { eapply held_view_trans; [exact H0|]. apply upgrade_pass_view; auto.
    rewrite (is_held_view p c c0 H0). exact Hheld. }
  set (c2 := if with_autoinst then upgrade_pass ignore_removed true c1 else c1).
  assert (H2 : held_view p c c2).
  { unfold c2. destruct with_autoinst; [|exact H1].
    eapply held_view_trans; [exact H1|]. apply upgrade_pass_view; auto.
    rewrite (is_held_view p c c1 H1). exact Hheld. }
  assert (Hl2 : group_level c2 = (group_level c + 1)%Z).
  { unfold c2. destruct with_autoinst; unfold c1;
      rewrite ?upgrade_pass_group_level; reflexivity. }
  unfold action_group_dtor.
  destruct (end_action_group_total undo (on_depcache (ActionGroup_dtor E) c2))
    as ([c' undo'] & Hrun).
  { change (0 < group_level c2)%Z. lia. }
  exists c', undo'. split; [exact Hrun|].
  pose proof (end_action_group_marks _ _ _ _ Hrun p) as Hsm.
  pose proof (end_action_group_candidates _ _ _ _ HS Hrun p) as Hcand.
  destruct H2 as (Hc2 & _ & Hsm2).
  assert (Hc : CandidateVer (state_of c' p) = CandidateVer (state_of c p)).
  { rewrite Hcand. unfold state_of in *. simpl.
    rewrite (proj1 (proj2 (HS _ p))). exact Hc2. }
  assert (Hmarks : same_marks (package_states c p) (package_states c' p)).
  { eapply same_marks_trans; [exact Hsm2 | exact Hsm]. }
  split; [exact Hc|]. split; [exact Hmarks|].
  intros (cv & Hcv & Hstr).
  assert (Hcur : CurrentVer p <> None).
  { unfold is_held in Hheld. apply andb_true_iff in Hheld as (Hcur & _).
    apply negb_true_iff in Hcur. apply bool_decide_eq_false in Hcur. exact Hcur. }
  destruct Hmarks as (_ & _ & _ & _ & _ & Hf & _).
  unfold is_held, get_ext_state. rewrite Hc, Hcv, Hf, Hstr.
  rewrite (bool_decide_eq_false_2 _ Hcur).
  rewrite (bool_decide_eq_true_2 (forbidver (package_states c p)
                                  = forbidver (package_states c p))) by reflexivity.
  rewrite orb_true_r. reflexivity.
Qed.

End AptitudeDepCache.

(** ** The reference engine satisfies the laws *)

Lemma tst_set_bit (mask : Z) (b : bool) (x : Z) :
  mask <> 0%Z -> tst (Ref.set_bit mask b x) mask = b.
Proof.
  intros Hm. unfold tst, Ref.set_bit. destruct b.
  - replace (Z.land (Z.lor x mask) mask) with mask.
    + apply negb_true_iff, Z.eqb_neq, Hm.
    + apply Z.bits_inj'. intros n _. rewrite Z.land_spec, Z.lor_spec.
      destruct (Z.testbit x n), (Z.testbit mask n); reflexivity.
  - replace (Z.land (Z.land x (Z.lnot mask)) mask) with 0%Z; [reflexivity|].
    apply Z.bits_inj'. intros n Hn.
    rewrite !Z.land_spec, Z.lnot_spec, Z.bits_0 by exact Hn.
    destruct (Z.testbit x n), (Z.testbit mask n); reflexivity.
Qed.

Lemma ref_upd_same p f (d : Ref.DepCache) : Ref.upd p f d p = f (d p).
Proof. unfold Ref.upd. rewrite decide_True; auto. Qed.

Lemma ref_upd_other p f (d : Ref.DepCache) q : q <> p -> Ref.upd p f d q = d q.
Proof. intros. unfold Ref.upd. rewrite decide_False; auto. Qed.

Lemma ref_MarkKeep_honoured pc : MarkKeep_honoured (Ref.ops pc).
Proof. intros p soft fu d. simpl. unfold Ref.MarkKeep. rewrite ref_upd_same. reflexivity. Qed.

Lemma ref_MarkDelete_honoured pc : MarkDelete_honoured (Ref.ops pc).
Proof. intros p purge d. simpl. unfold Ref.MarkDelete. rewrite ref_upd_same. reflexivity. Qed.

Lemma ref_MarkAuto_sets_Auto pc : MarkAuto_sets_Auto (Ref.ops pc).
Proof.
  intros p b d. simpl. unfold Ref.MarkAuto. rewrite ref_upd_same. simpl.
  apply tst_set_bit. discriminate.
Qed.


Lemma ref_MarkAuto_keeps_iFlags pc : MarkAuto_keeps_iFlags (Ref.ops pc).
Proof.
  intros p b d q. simpl. unfold Ref.MarkAuto, Ref.upd.
  destruct (decide (q = p)); reflexivity.
Qed.

Lemma ref_SetReInstall_sets_ReInstall pc : SetReInstall_sets_ReInstall (Ref.ops pc).
Proof.
  intros p b d. simpl. unfold Ref.SetReInstall. rewrite ref_upd_same. simpl.
  apply tst_set_bit. discriminate.
Qed.

Lemma ref_SetReInstall_keeps_Mode pc : SetReInstall_keeps_Mode (Ref.ops pc).
Proof.
  intros p b d q. simpl. unfold Ref.SetReInstall, Ref.upd.
  destruct (decide (q = p)); reflexivity.
Qed.

Lemma ref_MarkKeep_frame pc : MarkKeep_frame (Ref.ops pc).
Proof. intros p soft fu d q Hq. simpl. unfold Ref.MarkKeep. rewrite ref_upd_other; auto. Qed.

Lemma ref_MarkDelete_frame pc : MarkDelete_frame (Ref.ops pc).
Proof. intros p purge d q Hq. simpl. unfold Ref.MarkDelete. rewrite ref_upd_other; auto. Qed.

Lemma ref_ActionGroup_keeps_Mode pc : ActionGroup_keeps_Mode (Ref.ops pc).
Proof. intros d q. split; reflexivity. Qed.


Lemma ref_MarkDelete_keeps_marks pc cfg perm :
  MarkDelete_keeps_marks (Ref.ops pc) (Ref.env pc cfg perm).
Proof.
  intros p purge d q Hq. simpl. unfold Ref.MarkDelete. rewrite ref_upd_other; auto.
Qed.

Lemma ref_SetReInstall_keeps_marks pc cfg perm :
  SetReInstall_keeps_marks (Ref.ops pc) (Ref.env pc cfg perm).
Proof.
  intros p b d q Hq. simpl. unfold Ref.SetReInstall. rewrite ref_upd_other; auto.
Qed.

Lemma ref_Marks_frame_flags pc : Marks_frame_flags (Ref.ops pc).
Proof.
  split; [|split].
  - intros d q. split; reflexivity.
  - intros p purge d q Hq. simpl. unfold Ref.MarkDelete. rewrite ref_upd_other; auto.
  - intros p soft fu d q Hq. simpl. unfold Ref.MarkKeep. rewrite ref_upd_other; auto.
Qed.

Lemma versions_order : version_order Versions.cmp.
Proof. unfold Versions.cmp. split; intros; lia. Qed.

Lemma versions_CheckDep : CheckDep_compares Versions.env Versions.cmp.
Proof.
  intros A op B _. simpl. unfold Versions.CheckDep.
  destruct (bool_decide (B = ""%string)); [reflexivity|]. cbv zeta.
  destruct (Z.land op 15) as [|p|p]; [reflexivity| |reflexivity].
  do 4 (try (destruct p as [p|p|]; try reflexivity)).
Qed.

Lemma ref_SetCandidateVersion_sets pc cfg perm :
  SetCandidateVersion_sets (Ref.ops pc) (Ref.env pc cfg perm).
Proof.
  intros v d. simpl. unfold Ref.SetCandidateVersion, ParentPkg. simpl.
  rewrite ref_upd_same. destruct (Install _); reflexivity.
Qed.

Lemma ref_Candidate_kept pc : Candidate_kept (Ref.ops pc).
Proof.
  intros d q. split; [reflexivity|]. intros p b. simpl. unfold Ref.MarkAuto, Ref.upd.
  destruct (decide (q = p)); reflexivity.
Qed.

Lemma ref_Candidate_stable pc : Candidate_stable (Ref.ops pc).
Proof.
  intros d q. split; [reflexivity|]. split; [reflexivity|]. split.
  - intros p purge. simpl. unfold Ref.MarkDelete, Ref.upd.
    destruct (decide (q = p)); reflexivity.
  - intros p soft fu. simpl. unfold Ref.MarkKeep, Ref.upd.
    destruct (decide (q = p)); reflexivity.
Qed.

Lemma ref_Candidate_unmarked pc : Candidate_unmarked (Ref.ops pc).
Proof.
  intros d q. split.
  - intros p a. simpl. unfold Ref.MarkInstall, Ref.upd.
    destruct (CandidateVer (d p)) as [cv|]; [|reflexivity].
    destruct (decide (Some cv = pkg_CurrentVer (Pkg pc p)));
      destruct (decide (q = p)); reflexivity.
  - intros p b. simpl. unfold Ref.SetReInstall, Ref.upd.
    destruct (decide (q = p)); reflexivity.
Qed.

(** ** Instances and concrete runs *)


(** The two-package cache with [Aptitude::Delete-Unused] turned off. *)
Lemma sweep_disabled_is_noop_witness :
  sweep (Ref.ops Cycle.pc)
        (Ref.env Cycle.pc {[ "aptitude::Delete-Unused"%string := false ]} false)
        Cycle.start = Some Cycle.start.
Proof.
  apply sweep_disabled_is_noop. reflexivity.
Defined.

(** "aptitude" of the [Self] cache. *)
Lemma mark_delete_refuses_self_witness :
  let c' := Error "Cannot remove aptitude within aptitude"%string Self.start in
  mark_delete (Ref.ops Self.pc) Self.env 0 true false (Some []) Self.start
    = Some (c', Some [])
  /\ internal_mark_delete (Ref.ops Self.pc) Self.env 0 true false Self.start = Some c'
  /\ depcache c' = depcache Self.start
  /\ package_states c' = package_states Self.start
  /\ errors c' = errors Self.start ++ ["Cannot remove aptitude within aptitude"%string].
Proof.
  exact (mark_delete_refuses_self (Ref.ops Self.pc) Self.env 0 true false (Some [])
           Self.start eq_refl eq_refl).
Defined.

(** [mark_keep] in the read-only cache, inside a group. *)
Lemma read_only_refuses_witness :
  exists c',
    run (Ref.ops Cycle.pc) Cycle.env (op_mark_keep 0 false false) None Cycle.read_only_group
      = Some (c', None)
    /\ depcache c' = depcache Cycle.read_only_group
    /\ package_states c' = package_states Cycle.read_only_group
    /\ events c' = events Cycle.read_only_group.
Proof.
  destruct (read_only_refuses (Ref.ops Cycle.pc) Cycle.env (op_mark_keep 0 false false)
              None Cycle.read_only_group eq_refl eq_refl)
    as (c' & Hrun & Hd & Hp & _ & _ & _ & _ & Hev).
  exists c'. simpl in Hev. rewrite ?app_nil_r in Hev. auto.
Defined.

(** C7 as stated fails: in a read-only store without permission, a
    mutation inside an open group ([group_level] 1) is not performed.
    [mark_keep] of "liba", which is scheduled for removal, returns the
    cache as it was, "liba" still in mode Delete. *)
Lemma nested_mutation_is_dropped_when_read_only :
  read_only Cycle.read_only_group = true
  /\ (0 < group_level Cycle.read_only_group)%Z
  /\ mark_keep (Ref.ops Cycle.pc) Cycle.env 0 false false None Cycle.read_only_group
     = Some (Cycle.read_only_group, None)
  /\ Mode (state_of (Ref.ops Cycle.pc) Cycle.read_only_group 0) = ModeDelete.
Proof. repeat split; reflexivity. Qed.


(** The selection state is not written back from the record.  "foo" is
    not installed and kept, with selection state Purge.  [mark_install]
    records the undo item that [cleanup_after_change] builds from the
    snapshot; applying it leaves mode Keep with the selection state that
    [internal_mark_keep] computes, DeInstall, not Purge. *)
Lemma undo_does_not_restore_purge_selection :
  selection_state (package_states Purged.start 0) = State.Purge
  /\ match mark_install (Ref.ops Purged.pc) Purged.env 0 false false (Some [])
             Purged.start with
     | Some (c1, Some [u]) =>
         u = apt_undoer 0 ModeKeep 0 0 manual State.Purge ""%string
         /\ Mode (state_of (Ref.ops Purged.pc) c1 0) = ModeInstall
         /\ match undo (Ref.ops Purged.pc) Purged.env u c1 with
            | Some c2 =>
                Mode (state_of (Ref.ops Purged.pc) c2 0) = ModeKeep
                /\ selection_state (package_states c2 0) = State.DeInstall
            | None => False
            end
     | _ => False
     end.
Proof. vm_compute. repeat split; reflexivity. Qed.

(** On a dependency cycle the cascade comes back to the removed package.
    Purging "liba" by hand ([purge] set, [unused_delete] clear,
    Purge-Unused off) cascades to "libb", whose dependency on "liba"
    re-enters [internal_mark_delete] for "liba" with the purge flag of
    the policy, the marking being done before the visited list is
    looked up: the selection state of "liba" ends as DeInstall although
    a purge was asked for.  Its remove_reason stays manual. *)
Lemma purge_is_downgraded_on_a_cycle :
  match internal_mark_delete (Ref.ops Cycle.pc) Cycle.env 0 true false Cycle.start with
  | Some c' =>
      Mode (state_of (Ref.ops Cycle.pc) c' 0) = ModeDelete
      /\ selection_state (package_states c' 0) = State.DeInstall
      /\ remove_reason (package_states c' 0) = manual
      /\ Mode (state_of (Ref.ops Cycle.pc) c' 1) = ModeDelete
      /\ remove_reason (package_states c' 1) = unused
  | None => False
  end.
Proof. vm_compute. repeat split; reflexivity. Qed.

(** The first loop of [sweep] on the [Orphans] cache: nothing is garbage,
    "libb" is conflicted, the other three libraries are candidates. *)
Lemma orphans_first_loop :
  sweep_first_loop (Ref.ops Orphans.pc) Orphans.env Orphans.start
  = (Orphans.start, {[1; 4; 5]}, {[2]}).
Proof. vm_compute. reflexivity. Qed.

Lemma orphans_block :
  sweep_block Orphans.env {[1; 4; 5]} {[2]} = Some {[4; 5]}.
Proof. vm_compute. reflexivity. Qed.

(** "libb" is conflicted and "libx" depends on it: both stay removed. *)
Lemma sweep_blocked_stay_removed_witness :
  exists Rf c',
    sweep_block Orphans.env {[1; 4; 5]} {[2]} = Some Rf
    /\ sweep (Ref.ops Orphans.pc) Orphans.env Orphans.start = Some c'
    /\ (1 ∉ Rf)
    /\ Mode (state_of (Ref.ops Orphans.pc) c' 1) = ModeDelete
    /\ remove_reason (package_states c' 1) = unused
    /\ Mode (state_of (Ref.ops Orphans.pc) c' 2) = ModeDelete.
Proof.
  pose proof (sweep_blocked_stay_removed (Ref.ops Orphans.pc) Orphans.env Orphans.start
                eq_refl (NoDup_seq 0 6) (ref_MarkKeep_frame _) (ref_MarkDelete_frame _)
                (ref_ActionGroup_keeps_Mode _)) as H.
  rewrite orphans_first_loop in H.
  destruct H as (_ & _ & Rf & c' & Hb & Hs & Hq).
  assert (H2 : blocked Orphans.env {[1; 4; 5]} {[2]} 2).
  { apply blocked_bad. clear. set_solver. }
  assert (H1 : blocked Orphans.env {[1; 4; 5]} {[2]} 1).
  { apply (blocked_dep Orphans.env _ _ 1 2 2).
    - clear. set_solver.
    - exact H2.
    - reflexivity.
    - split; [discriminate|]. left. exists (Orphans.dep Dep.Depends 1 2).
      split; [left|]. repeat split. }
  exists Rf, c'. destruct (Hq 1 H1) as (? & ? & ?). destruct (Hq 2 H2) as (? & ? & ?).
  auto 10.
Defined.

(** "liby" is needed by "app", which stays installed, and "libz" by
    "liby": "libz" is kept. *)
Lemma sweep_reinstates_needed_witness :
  exists c',
    sweep (Ref.ops Orphans.pc) Orphans.env Orphans.start = Some c'
    /\ Mode (state_of (Ref.ops Orphans.pc) c' 5) = ModeKeep.
Proof.
  pose proof (sweep_reinstates_needed (Ref.ops Orphans.pc) Orphans.env Orphans.start
                eq_refl (NoDup_seq 0 6) (ref_MarkKeep_honoured _) (ref_MarkKeep_frame _)
                (ref_ActionGroup_keeps_Mode _)) as H.
  rewrite orphans_first_loop in H.
  destruct H as (_ & _ & c' & Hs & Hq).
  exists c'. split; [exact Hs|]. apply Hq.
  assert (Hdisj : ({[1; 4; 5]} : gset PkgID) ## {[2]}).
  { clear. set_solver. }
  assert (Hok : forall q, q ∈ ({[4; 5]} : gset PkgID) ->
                  not_currently_installed Orphans.env q = false ->
                  candidate_ok Orphans.env {[1; 4; 5]} {[2]} q).
  { intros q Hin Hsane. split; [clear -Hin; set_solver|]. split; [|exact Hsane].
    apply (survivor_not_blocked Orphans.env _ _ _ q orphans_block Hdisj Hin). }
  apply (needed_dep (Ref.ops Orphans.pc) Orphans.env _ _ _ 4 5).
  - apply needed_root.
    + apply Hok; [clear; set_solver | reflexivity].
    + exists 4. split; [reflexivity|]. left. exists (Orphans.dep Dep.Depends 0 4).
      split; [left|]. repeat split. discriminate.
  - exists 4, (Orphans.dep Dep.Depends 4 5). split; [reflexivity|].
    split; [left|]. split; [reflexivity|]. left.
    split; [reflexivity|]. split; [reflexivity|]. exists 5. split; reflexivity.
  - apply Hok; [clear; set_solver | reflexivity].
Defined.

(** C1 as stated fails.  "libx" is a pending unused removal, not flagged
    as garbage; [is_conflicted] finds nothing for its version; "app",
    which stays installed, has a satisfied Depends on it.  [sweep] still
    leaves "libx" in mode Delete, because "libx" depends on the
    conflicted "libb". *)
Lemma sweep_does_not_reinstate_dependent_of_conflicted :
  Mode (state_of (Ref.ops Orphans.pc) Orphans.start 1) = ModeDelete
  /\ remove_reason (package_states Orphans.start 1) = unused
  /\ Garbage (state_of (Ref.ops Orphans.pc) Orphans.start 1) = false
  /\ is_conflicted (Ref.ops Orphans.pc) Orphans.env (CurrentVer Orphans.env 1)
       (depcache Orphans.start) = None
  /\ installed_or_to_be (Ref.ops Orphans.pc) Orphans.env (depcache Orphans.start) 0 = true
  /\ CurrentVer Orphans.env 0 = Some 0
  /\ Orphans.dep Dep.Depends 0 1 ∈ DependsList Orphans.env 0
  /\ check Orphans.env (VerStr Orphans.env 1) (Orphans.dep Dep.Depends 0 1) = true
  /\ match sweep (Ref.ops Orphans.pc) Orphans.env Orphans.start with
     | Some c' => Mode (state_of (Ref.ops Orphans.pc) c' 1) = ModeDelete
     | None => False
     end.
Proof.
  repeat split; try reflexivity; try (vm_compute; reflexivity). left.
Qed.

Lemma cycle_cache_closed : cache_closed Cycle.env.
Proof.
  intros p cur dep Hp Hcur Hdep.
  assert (Hcase : p = 0 \/ p = 1).
  { apply list_elem_of_In in Hp. simpl in Hp. intuition. }
  destruct Hcase as [-> | ->]; injection Hcur as <-;
    apply list_elem_of_singleton in Hdep; subst dep; simpl.
  - split; [right; left|]. intros prv Hprv. inversion Hprv.
  - split; [left|]. intros prv Hprv. inversion Hprv.
Qed.

(** Removing "liba", on which "libb" depends back: the recursion ends
    and "libb" is removed as unused. *)
Lemma cascading_delete_removes_unused_dependency_witness :
  exists c',
    internal_mark_delete (Ref.ops Cycle.pc) Cycle.env 0 false false Cycle.start = Some c'
    /\ Mode (state_of (Ref.ops Cycle.pc) c' 1) = ModeDelete
    /\ remove_reason (package_states c' 1) = unused
    /\ selection_state (package_states c' 1) = State.DeInstall.
Proof.
  apply (cascading_delete_removes_unused_dependency (Ref.ops Cycle.pc) Cycle.env
           (ref_MarkDelete_honoured _) (ref_MarkDelete_frame _)
           (ref_SetReInstall_keeps_Mode _) (ref_MarkDelete_keeps_marks _ _ _)
           (ref_SetReInstall_keeps_marks _ _ _)
           1 1 0 0 Cycle.liba_on_libb false false Cycle.start);
    try reflexivity.
  - exact cycle_cache_closed.
  - left.
  - left.
  - discriminate.
  - left. reflexivity.
  - intros rd Hin _. apply list_elem_of_singleton in Hin. subst rd. left. reflexivity.
Defined.

(** C3 as stated fails when the dependency is aptitude itself.  "tools"
    depends on "aptitude", which is installed, marked Auto, not required
    and has no other reverse dependency; removing "tools" with
    Delete-Unused on leaves "aptitude" in mode Keep, the cascade being
    turned down with an error. *)
Lemma cascade_spares_aptitude :
  FindB (aptcfg Self.env) (PACKAGE +:+ "::Delete-Unused") true = true
  /\ CurrentVer Self.env 1 = Some 1
  /\ DependsList Self.env 1 = [Self.tools_on_aptitude]
  /\ is_strong Self.tools_on_aptitude = true
  /\ dep_TargetPkg Self.tools_on_aptitude = 0
  /\ is_installed Self.env 0 = true
  /\ is_auto_installed Self.env (state_of (Ref.ops Self.pc) Self.start 0) = true
  /\ is_not_required Self.env (state_of (Ref.ops Self.pc) Self.start 0) 0 = true
  /\ RevDependsList Self.env 0 = [Self.tools_on_aptitude]
  /\ match internal_mark_delete (Ref.ops Self.pc) Self.env 1 false false Self.start with
     | Some c' =>
         Mode (state_of (Ref.ops Self.pc) c' 1) = ModeDelete
         /\ Mode (state_of (Ref.ops Self.pc) c' 0) = ModeKeep
         /\ errors c' = ["Cannot remove aptitude within aptitude"%string]
     | None => False
     end.
Proof. repeat split; try reflexivity; vm_compute; reflexivity. Qed.






Lemma cleanup_after_change_records_witness :
  exists c' changed,
    cleanup_after_change (Ref.ops Cycle.pc) Cycle.env (Some []) true Cycle.read_only_group
    = (c', Some [apt_undoer 0 ModeKeep Flag.Auto 0 manual State.Install ""%string;
                 apt_undoer 1 ModeKeep Flag.Auto 0 manual State.Install ""%string],
       changed)
    /\ depcache c' = depcache Cycle.read_only_group
    /\ 1 ∈ changed.
Proof.
  pose proof (cleanup_after_change_records (Ref.ops Cycle.pc) Cycle.env (Some []) true
                {| snap_PkgState := fun p => plain_state ModeKeep Flag.Auto 0 (Some p) (Some p);
                   snap_AptitudeState := fun _ => plain_ext State.Install manual |}
                Cycle.read_only_group eq_refl) as H.
  destruct (cleanup_after_change (Ref.ops Cycle.pc) Cycle.env (Some []) true
              Cycle.read_only_group) as [[c' undo'] changed].
  destruct H as (Hd & Hu & Hch & _).
  - repeat constructor; simpl; clear; set_solver.
  - exists c', changed. split; [rewrite Hu; reflexivity|]. split; [exact Hd|].
    apply Hch. split; [right; left | reflexivity].
Defined.


Lemma sweep_leaves_what_is_not_garbage_witness :
  exists c',
    sweep (Ref.ops Orphans.pc) Orphans.env Orphans.start = Some c'
    /\ package_states c' 0 = package_states Orphans.start 0
    /\ Mode (state_of (Ref.ops Orphans.pc) c' 0) = ModeKeep.
Proof.
  destruct (sweep_total (Ref.ops Orphans.pc) Orphans.env Orphans.start) as (c' & Hs).
  destruct (sweep_leaves_what_is_not_garbage (Ref.ops Orphans.pc) Orphans.env
              Orphans.start c' 0
              (ref_MarkKeep_frame _) (ref_MarkDelete_frame _)
              (ref_ActionGroup_keeps_Mode _) (ref_Marks_frame_flags _) Hs eq_refl)
    as (He & Hm).
  exists c'. split; [exact Hs|]. split; [exact He|]. exact (Hm eq_refl).
Defined.

Lemma sweep_collects_garbage_witness :
  exists c',
    sweep (Ref.ops Leftover.pc) Leftover.env Leftover.start = Some c'
    /\ Mode (state_of (Ref.ops Leftover.pc) c' 1) = ModeDelete
    /\ package_states c' 1
       = with_remove_reason unused
           (with_selection_state State.DeInstall (plain_ext State.Install manual)).
Proof.
  destruct (sweep_collects_garbage (Ref.ops Leftover.pc) Leftover.env Leftover.start 1
              eq_refl (NoDup_seq 0 3)) as (c' & Hs & Hm & He).
  - right. left.
  - apply ref_MarkKeep_frame.
  - apply ref_MarkDelete_frame.
  - apply ref_ActionGroup_keeps_Mode.
  - apply ref_Marks_frame_flags.
  - apply ref_MarkDelete_honoured.
  - apply ref_MarkKeep_honoured.
  - reflexivity.
  - exists c'. split; [exact Hs|]. split; [exact Hm|]. exact He.
Defined.


Lemma end_action_group_frame_witness :
  exists c' more,
    end_action_group (Ref.ops Leftover.pc) Leftover.env (Some []) Leftover.start
    = Some (c', Some more)
    /\ dirty c' = false
    /\ forbidver (package_states c' 1) = ""%string.
Proof.
  destruct (end_action_group (Ref.ops Leftover.pc) Leftover.env (Some []) Leftover.start)
    as [[c' undo']|] eqn:Hend; [|discriminate Hend].
  destruct (end_action_group_frame (Ref.ops Leftover.pc) Leftover.env _ _ _ _ Hend)
    as (Hd & _ & _ & Hsm & more & ->).
  exists c', more. split; [reflexivity|]. split; [exact Hd|].
  destruct (Hsm 1) as (_ & _ & _ & _ & _ & Hf & _). exact Hf.
Defined.


Lemma internal_mark_install_spec_witness :
  let c' := internal_mark_install (Ref.ops Orphans.pc) Orphans.env 1 false false
              Orphans.start in
  tst (Flags (state_of (Ref.ops Orphans.pc) c' 1)) Flag.Auto = false
  /\ previously_auto_package (package_states c' 1) = false
  /\ selection_state (package_states c' 1) = State.Install.
Proof.
  destruct (internal_mark_install_spec (Ref.ops Orphans.pc) Orphans.env 1 false false
              Orphans.start (ref_MarkAuto_sets_Auto _) (ref_MarkAuto_keeps_iFlags _)
              (ref_SetReInstall_sets_ReInstall _)) as (_ & Ha & _ & He & _).
  split; [exact Ha|]. rewrite He. split; reflexivity.
Defined.


Lemma get_upgradable_on_upgrades :
  (get_upgradable (Ref.ops Upgrades.pc) Upgrades.env false Upgrades.start).2 = {[1; 3]}
  /\ (get_upgradable (Ref.ops Upgrades.pc) Upgrades.env true Upgrades.start).2 = {[1; 3]}
  /\ selection_state
       (package_states
          (get_upgradable (Ref.ops Upgrades.pc) Upgrades.env true Upgrades.start).1 3)
     = State.Install.
Proof. vm_compute. repeat split. Qed.

Lemma hooks_respect_holds_witness :
  IsInstallOk (Ref.ops Upgrades.pc) Upgrades.env 0 true 1 false Upgrades.start = false
  /\ IsDeleteOk Upgrades.env 0 false 1 false Upgrades.start = false.
Proof.
  destruct (hooks_respect_holds (Ref.ops Upgrades.pc) Upgrades.env 0 true false false 1%N 1
              Upgrades.start) as (_ & H).
  destruct H as (Hi & Hd); [discriminate|].
  split.
  - rewrite Hi; [reflexivity | discriminate | reflexivity | discriminate].
  - apply Hd. reflexivity.
Defined.


Lemma set_new_flag_keeps_count_witness :
  let s' := set_new_flag Leftover.env 0 true Fresh.start in
  new_package_count s' = 3%Z
  /\ new_package (package_states (obj s') 0) = true.
Proof.
  destruct (set_new_flag_keeps_count Leftover.env 0 true Fresh.start
              (NoDup_seq 0 3)) as (Hc & _ & He).
  - left.
  - reflexivity.
  - split; [rewrite Hc; reflexivity|].
    destruct (He eq_refl) as (-> & _). reflexivity.
Defined.

Lemma forget_new_undo_round_trip_witness :
  exists s1,
    forget_new_all (Ref.ops Leftover.pc) Leftover.env true Fresh.start = (s1, Some [1; 2])
    /\ new_package_count s1 = 0%Z
    /\ new_package_count (forget_undo Leftover.env [1; 2] s1) = 2%Z
    /\ forall p, package_states (obj (forget_undo Leftover.env [1; 2] s1)) p = Fresh.ext p.
Proof.
  assert (Hle : (Z.of_nat (count_new Leftover.env (obj Fresh.start))
                 <= new_package_count Fresh.start)%Z) by (vm_compute; discriminate).
  pose proof (forget_new_undo_round_trip (Ref.ops Leftover.pc) Leftover.env Fresh.start
                (NoDup_seq 0 3) eq_refl Hle) as H.
  cbv zeta in H.
  destruct (forget_new_all (Ref.ops Leftover.pc) Leftover.env true Fresh.start)
    as [s1 stored].
  destruct H as (_ & Hc & _ & _ & -> & Hps & Hc2).
  exists s1. split; [reflexivity|]. split; [exact Hc|]. split; [exact Hc2|]. exact Hps.
Defined.


Lemma surrounding_or_internal_spec_witness :
  (exists s e, surrounding_or_internal Alternatives.depends 1 = Some (s, e)
               /\ or_group Alternatives.depends 1 s e)
  /\ surrounding_or_internal Alternatives.depends 1 = Some (0, 3)
  /\ surrounding_or_internal Alternatives.depends 4 = None.
Proof.
  destruct (surrounding_or_internal_spec Alternatives.depends 1 eq_refl) as (Hin & _).
  destruct (surrounding_or_internal_spec Alternatives.depends 4 eq_refl) as (_ & Hout).
  split; [apply Hin; simpl; lia|]. split; [reflexivity|]. apply Hout. simpl. lia.
Defined.


Lemma subsumes_sound_witness :
  subsumes Versions.env Versions.cmp (Versions.on 2 "1") (Versions.on 4 "22") = Some true
  /\ check Versions.env "333" (Versions.on 2 "1") = true.
Proof.
  split; [reflexivity|].
  destruct (subsumes_sound Versions.env Versions.cmp (Versions.on 2 "1") (Versions.on 4 "22")
              versions_order versions_CheckDep eq_refl) as (_ & H).
  apply H; [reflexivity | discriminate | reflexivity].
Defined.


Lemma candidate_version_undo_witness :
  exists c1 c2,
    set_candidate_version (Ref.ops Upgrades.pc) Upgrades.env (Some 0) (Some [])
      Upgrades.start
    = (c1, Some [candver_undoer (Some 1)])
    /\ CandidateVer (state_of (Ref.ops Upgrades.pc) c1 0) = Some 0
    /\ undo (Ref.ops Upgrades.pc) Upgrades.env (candver_undoer (Some 1)) c1 = Some c2
    /\ CandidateVer (state_of (Ref.ops Upgrades.pc) c2 0) = Some 1
    /\ selection_state (package_states Upgrades.start 0) = State.Hold
    /\ selection_state (package_states c2 0) = State.Install.
Proof.
  pose proof (candidate_version_undo (Ref.ops Upgrades.pc) Upgrades.env 0 1 []
                Upgrades.start (ref_SetCandidateVersion_sets _ _ _) (ref_Candidate_kept _)
                eq_refl eq_refl eq_refl eq_refl eq_refl eq_refl) as H.
  match type of H with
  | context [match ?t with _ => _ end] => remember t as r eqn:Hr in H
  end.
  destruct r as [c1 undo1].
  destruct H as (Hu & Hc & _ & c2 & Hundo & Hc2 & Hs2).
  exists c1, c2. split; [rewrite Hu in Hr; symmetry; exact Hr|]. split; [exact Hc|].
  split; [exact Hundo|]. split; [exact Hc2|]. split; [reflexivity | exact Hs2].
Defined.


Lemma cascade_spares_needed_witness :
  exists c',
    internal_mark_delete (Ref.ops Shared.pc) Shared.env 0 false false Shared.start = Some c'
    /\ Mode (state_of (Ref.ops Shared.pc) c' 0) = ModeDelete
    /\ Mode (state_of (Ref.ops Shared.pc) c' 2) = ModeKeep
    /\ package_states c' 2 = plain_ext State.Install manual.
Proof.
  destruct (internal_mark_delete (Ref.ops Shared.pc) Shared.env 0 false false Shared.start)
    as [c'|] eqn:Hrun; [|discriminate Hrun].
  destruct (cascade_spares_needed (Ref.ops Shared.pc) Shared.env 0 false false
              Shared.start c' 2 1 (Orphans.dep Dep.Depends 1 2)
              (ref_MarkDelete_frame _) (ref_SetReInstall_keeps_Mode _)
              (ref_MarkDelete_keeps_marks _ _ _) (ref_SetReInstall_keeps_marks _ _ _) Hrun)
    as (Hm & He & _).
  - discriminate.
  - discriminate.
  - right. left.
  - reflexivity.
  - reflexivity.
  - reflexivity.
  - reflexivity.
  - exists c'. split; [reflexivity|]. split; [|split; [exact Hm | exact He]].
    vm_compute in Hrun. injection Hrun as <-. reflexivity.
Defined.


Lemma forbid_upgrade_holds_witness :
  exists c' undo',
    forbid_upgrade (Ref.ops Upgrades.pc) Upgrades.env 1 "2.0" (Some []) Upgrades.start
    = Some (c', undo')
    /\ do_upgrade (Ref.ops Upgrades.pc) Upgrades.env Upgrades.start 1 = true
    /\ do_upgrade (Ref.ops Upgrades.pc) Upgrades.env c' 1 = false
    /\ is_held (Ref.ops Upgrades.pc) Upgrades.env c' 1 = true.
Proof.
  destruct (forbid_upgrade_holds (Ref.ops Upgrades.pc) Upgrades.env 1 "2.0" (Some [])
              Upgrades.start 3 (ref_Candidate_stable _) eq_refl)
    as (c' & undo' & Hrun & _ & Hheld & Hup & _).
  - simpl. lia.
  - discriminate.
  - reflexivity.
  - reflexivity.
  - exists c', undo'. split; [exact Hrun|]. split; [reflexivity|]. split; assumption.
Defined.


Lemma act_on_states_spec_witness :
  let s' := act_on_states (Ref.ops Upgrades.pc) Upgrades.env false true (fun _ => false)
              {| obj := Upgrades.start; new_package_count := 7; reloads := 0 |} in
  selection_state (package_states (obj s') 3) = State.Install
  /\ selection_state (package_states (obj s') 0) = State.Hold
  /\ new_package_count s' = 0%Z.
Proof.
  destruct (act_on_states_spec (Ref.ops Upgrades.pc) Upgrades.env false true (fun _ => false)
              {| obj := Upgrades.start; new_package_count := 7; reloads := 0 |}
              (NoDup_seq 0 5)) as (Hsel & _ & Hc & _).
  split; [|split].
  - destruct (Hsel 3) as (_ & ->); [|reflexivity]. do 3 right. left.
  - destruct (Hsel 0) as (_ & ->); [|reflexivity]. left.
  - rewrite Hc. reflexivity.
Defined.


Lemma empty_action_group_witness :
  end_action_group (Ref.ops Cycle.pc) Cycle.env (Some [])
    (begin_action_group Cycle.start)
  = Some (Cycle.start, Some []).
Proof.
  destruct (empty_action_group (Ref.ops Cycle.pc) Cycle.env (Some []) Cycle.start)
    as (Hnested & _).
  apply Hnested. simpl. lia.
Defined.


(** Upgrading everything in the cache of four installed packages:
    "tool", whose candidate 2.0 is forbidden, stays held. *)
Lemma mark_all_upgradable_skips_held_witness :
  exists c' undo',
    mark_all_upgradable (Ref.ops Upgrades.pc) Upgrades.env true false (Some [])
      Upgrades.start = Some (c', undo')
    /\ forbidver (package_states c' 2) = "2.0"%string
    /\ is_held (Ref.ops Upgrades.pc) Upgrades.env c' 2 = true.
Proof.
  destruct (mark_all_upgradable_skips_held (Ref.ops Upgrades.pc) Upgrades.env
              true false (Some []) Upgrades.start 2
              (ref_Candidate_stable _) (ref_Candidate_kept _) (ref_Candidate_unmarked _)
              eq_refl)
    as (c' & undo' & Hrun & _ & Hsm & Hheld).
  - simpl. lia.
  - reflexivity.
  - exists c', undo'. split; [exact Hrun|].
  split.
    + destruct Hsm as (_ & _ & _ & _ & _ & Hf & _). rewrite Hf. reflexivity.
    + apply Hheld. exists 5. split; reflexivity.
Defined.
